(** * A shallow embedding of the multi-tenant WhatsApp webhook (holistic.js)

    The development follows the layout of the source file: JavaScript
    primitives first, then the pure helpers (fuzzy matcher, label decoders),
    then the document store and the effectful handlers, and finally the
    [POST /webhook] handler.  Theorems come after the definitions. *)

From Stdlib Require Import Ascii String ZArith Lia.
From stdpp Require Import base option list strings gmap sorting.

Local Open Scope nat_scope.

(* ================================================================== *)
(** * JavaScript primitives *)
(* ================================================================== *)

(** A JavaScript string is modelled as a [string]: a sequence of code
    units below 256, read as Latin-1 code points. *)
Module Js.

Definition code (c : ascii) : nat := nat_of_ascii c.

(** [String.prototype.trim] removes WhiteSpace and LineTerminator code
    points; below 256 these are TAB, LF, VT, FF, CR, SP and NBSP. *)
Definition isWhiteSpace (c : ascii) : bool :=
  let n := code c in
  ((9 <=? n) && (n <=? 13)) || (n =? 32) || (n =? 160).

(** [String.prototype.toLowerCase], per code unit: A-Z, and the Latin-1
    capitals U+00C0-U+00DE except the multiplication sign U+00D7. *)
Definition lowerChar (c : ascii) : ascii :=
  let n := code c in
  if ((65 <=? n) && (n <=? 90))
     || ((192 <=? n) && (n <=? 214))
     || ((216 <=? n) && (n <=? 222))
  then ascii_of_nat (n + 32) else c.

Fixpoint toLowerCase (s : string) : string :=
  match s with
  | EmptyString => EmptyString
  | String c s' => String (lowerChar c) (toLowerCase s')
  end.

Fixpoint trimStart (s : string) : string :=
  match s with
  | EmptyString => EmptyString
  | String c s' => if isWhiteSpace c then trimStart s' else s
  end.

Fixpoint trimEnd (s : string) : string :=
  match s with
  | EmptyString => EmptyString
  | String c s' =>
      match trimEnd s' with
      | EmptyString => if isWhiteSpace c then EmptyString else String c EmptyString
      | t => String c t
      end
  end.

Definition trim (s : string) : string := trimEnd (trimStart s).

(** [s.startsWith(p)] *)
Definition startsWith (s p : string) : bool := String.prefix p s.

(** [s.includes(t)] *)
Fixpoint includes (s t : string) : bool :=
  String.prefix t s ||
  match s with
  | EmptyString => false
  | String _ s' => includes s' t
  end.

(** [s.slice(0, n)] and [s.substring(0, n)] for [0 <= n]. *)
Definition slice0 (n : nat) (s : string) : string := String.substring 0 n s.

(** [s.charAt(i)]; [None] stands for the empty string that JavaScript
    returns when [i] is out of range. *)
Definition charAt (s : string) (i : nat) : option ascii := String.get i s.

(** [s.split(sep)] for a one-character separator. *)
Fixpoint split (sep : ascii) (s : string) : list string :=
  match s with
  | EmptyString => [EmptyString]
  | String c s' =>
      if Ascii.eqb c sep then EmptyString :: split sep s'
      else match split sep s' with
           | h :: t => String c h :: t
           | [] => [String c EmptyString]
           end
  end.

(** [parts.join(sep)] *)
Definition join (sep : string) (parts : list string) : string :=
  String.concat sep parts.

(** The two quote characters of the regular expression's class:
    the apostrophe (39) and the double quote (34). *)
Definition isQuote (c : ascii) : bool :=
  (code c =? 39) || (code c =? 34).

Fixpoint dropTrailingQuote (s : string) : string :=
  match s with
  | EmptyString => EmptyString
  | String c EmptyString => if isQuote c then EmptyString else s
  | String c s' => String c (dropTrailingQuote s')
  end.

(** The global replace of a leading or a trailing quote character by
    the empty string: the scan removes a quote at index 0, then
    (continuing after it) a quote that ends the string. *)
Definition stripQuotes (s : string) : string :=
  match s with
  | EmptyString => EmptyString
  | String c s' => if isQuote c then dropTrailingQuote s' else dropTrailingQuote s
  end.

(** Truthiness of a string value. *)
Definition truthy (s : string) : bool :=
  match s with EmptyString => false | _ => true end.

(** ** Arrays with holes

    A JavaScript array is a list of slots; [None] is a hole, read back
    as [undefined].  Writing at or beyond the length extends the array. *)
Definition arr_get {A} (l : list (option A)) (i : nat) : option A :=
  mjoin (l !! i).

Definition arr_set {A} (l : list (option A)) (i : nat) (x : A) : list (option A) :=
  if decide (i < length l) then <[i := Some x]> l
  else l ++ replicate (i - length l) None ++ [Some x].

(** [for (let i = lo; i < lo + n; i++) body]; the body may throw. *)
Fixpoint for_loop {St} (lo n : nat) (body : nat → St → option St) (s : St) : option St :=
  match n with
  | 0 => Some s
  | S n' => body lo s ≫= for_loop (S lo) n' body
  end.

End Js.

(* ================================================================== *)
(** * Fuzzy matcher *)
(* ================================================================== *)

(** [Math.min(x, y, z)] *)
Definition min3 (x y z : nat) : nat := Nat.min (Nat.min x y) z.

(** [matrix[i][j]]: [None] when the row or the cell is [undefined]. *)
Definition cell (matrix : list (option (list (option nat)))) (i j : nat) : option nat :=
  row ← Js.arr_get matrix i; Js.arr_get row j.

(** [levenshteinDistance(a, b)].  The result is [None] if the function
    throws or reads an undefined cell. *)
Definition levenshteinDistance (a b : string) : option nat :=
  if decide (a = EmptyString) then Some (String.length b)
  else if decide (b = EmptyString) then Some (String.length a)
  else
    let ia := String.length a in
    let ib := String.length b in
    matrix ← Js.for_loop 0 (S ia)
      (λ i matrix, Some (Js.arr_set matrix i [Some i])) [];
    matrix ← Js.for_loop 0 (S ib)
      (λ j matrix,
         row0 ← Js.arr_get matrix 0;
         Some (Js.arr_set matrix 0 (Js.arr_set row0 j j))) matrix;
    matrix ← Js.for_loop 1 ia
      (λ i matrix,
         Js.for_loop 1 ib
           (λ j matrix,
              v ← (if decide (Js.charAt a (i - 1) = Js.charAt b (j - 1))
                   then cell matrix (i - 1) (j - 1)
                   else x ← cell matrix (i - 1) j;
                        y ← cell matrix i (j - 1);
                        z ← cell matrix (i - 1) (j - 1);
                        Some (min3 (x + 1) (y + 1) (z + 1)));
              row ← Js.arr_get matrix i;
              Some (Js.arr_set matrix i (Js.arr_set row j v))) matrix) matrix;
    cell matrix ia ib.

(** The classic edit-distance table, written from its textbook
    recurrence: [D 0 j = j], [D i 0 = i], and every other cell is the
    minimum of a deletion, an insertion and a substitution, each of cost
    1, the substitution being free when the two characters agree. *)
Fixpoint lev_table (a b : string) (i : nat) {struct i} : nat → nat :=
  match i with
  | 0 => λ j, j
  | S i' =>
      fix row (j : nat) : nat :=
        match j with
        | 0 => S i'
        | S j' =>
            min3 (lev_table a b i' j + 1)
                 (row j' + 1)
                 (lev_table a b i' j' +
                  (if decide (String.get i' a = String.get j' b) then 0 else 1))
        end
  end.

Definition editDistance (a b : string) : nat :=
  lev_table a b (String.length a) (String.length b).

(** The first [w] cells of row [r] of the table, as an array, and the
    matrix whose row [r] holds the first [w r] cells, for [r] below [n]:
    the intermediate states of the loops of [levenshteinDistance]. *)
Definition table_row (a b : string) (r w : nat) : list (option nat) :=
  Some <$> (lev_table a b r <$> seq 0 w).

Definition table_shape (a b : string) (w : nat → nat) (n : nat)
  : list (option (list (option nat))) :=
  (λ r, Some (table_row a b r (w r))) <$> seq 0 n.

(** [s] contains [t] as a contiguous substring. *)
Definition contains (s t : string) : Prop :=
  ∃ before after : string, s = before +:+ t +:+ after.

(** [spec.toLowerCase().trim().replace(...)]: the normal form both sides
    of the comparison are brought into. *)
Definition normaliseSpecialty (s : string) : string :=
  Js.stripQuotes (Js.trim (Js.toLowerCase s)).

(** The callback of [arr.some] in [findDoctorsByFuzzySpecialty]; [target]
    is the already normalised classified specialty. *)
Definition specialtyMatches (target spec : string) : option bool :=
  let s := normaliseSpecialty spec in
  dist ← levenshteinDistance s target;
  let substringCheck := Js.includes s target || Js.includes target s in
  Some ((dist <=? 3) || substringCheck).

(** What the matcher is meant to decide, on a normalised target: the
    doctor's specialty string, lower-cased, trimmed and with a quote
    character at either end removed, is within edit distance 3 of the
    target, or one of the two contains the other. *)
Definition matchesSpec (target spec : string) : Prop :=
  let s := Js.stripQuotes (Js.trim (Js.toLowerCase spec)) in
  editDistance s target ≤ 3 ∨ contains s target ∨ contains target s.

(** [arr.some(f)] for a callback that may throw: stops at the first hit. *)
Fixpoint array_some {A} (f : A → option bool) (l : list A) : option bool :=
  match l with
  | [] => Some false
  | x :: l' => hit ← f x; if hit : bool then Some true else array_some f l'
  end.

(* ================================================================== *)
(** * Label decoders *)
(* ================================================================== *)

(** A form field as read from the payload: [None] is [undefined]. *)
Definition falsy (v : option string) : bool :=
  match v with
  | None => true
  | Some s => negb (Js.truthy s)
  end.

(** [a || b] on an optional string with a string default. *)
Definition or_else (v : option string) (d : string) : string :=
  match v with
  | Some s => if Js.truthy s then s else d
  | None => d
  end.

(** [parseYesNo(val, fallback)] *)
Definition parseYesNo (val : option string) (fallback : string) : string :=
  match val with
  | None => fallback
  | Some v =>
      if negb (Js.truthy v) then fallback
      else
        match Js.split "_" v with
        | _ :: part1 :: _ => part1      (* parts.length > 1: parts[1] *)
        | _ => v
        end
  end.

(** [parseNumberFromLabel(val, fallback)] *)
Definition parseNumberFromLabel (val : option string) (fallback : string) : string :=
  match val with
  | None => fallback
  | Some v =>
      if negb (Js.truthy v) then fallback
      else
        match Js.split "_" v with
        | _ :: part1 :: _ => part1      (* parts.length > 1: parts[1] *)
        | _ => v
        end
  end.

(** [s] has no underscore. *)
Definition underscore_free (s : string) : Prop := ¬ contains s "_".

(** [seg] is what precedes the first underscore of [value] (all of
    [value] when it has none). *)
Definition first_segment (value seg : string) : Prop :=
  underscore_free seg ∧ (value = seg ∨ ∃ rest, value = seg +:+ "_" +:+ rest).

Definition isDigit (c : ascii) : bool :=
  (48 <=? Js.code c) && (Js.code c <=? 57).

(** [val.match(/\((\d)\/5\)/)]: the digit of the leftmost occurrence of
    an opening parenthesis, one digit, a slash, a five and a closing
    parenthesis. *)
Fixpoint matchStarRating (s : string) : option ascii :=
  match s with
  | String "(" (String d (String "/" (String "5" (String ")" _))) as rest) =>
      if isDigit d then Some d else matchStarRating rest
  | String _ rest => matchStarRating rest
  | EmptyString => None
  end.

(** [parseStarRating(val, fallback)] *)
Definition parseStarRating (val : option string) (fallback : string) : string :=
  match val with
  | None => fallback
  | Some v =>
      if negb (Js.truthy v) then fallback
      else match matchStarRating v with
           | Some d => String d EmptyString
           | None => fallback
           end
  end.

(* ================================================================== *)
(** * Data model: the document store and the outside world *)
(* ================================================================== *)

Definition Timestamp := nat.

(** A parsed form payload ([flowData]): a flat object whose fields are
    strings, as the form replies of the messaging provider are. *)
Abbreviation FlowData := (gmap string string).

(** A transcript entry, one document of [PoC/<id>/Chat]. *)
Record ChatMessage := {
  Direction : string;
  From : string;
  To : string;
  Msg_Type : string;
  Msg_Body : string;
  chat_Timestamp : Timestamp;
  Msg_Image : option string;
}.

(** One document of [PoC/<id>/Patients]. *)
Record Patient := {
  pt_Name : option string;
  pt_Gender : option string;
  pt_Age : option Z;            (* [None]: NaN *)
  pt_Relation : string;
  pt_DOB : option Timestamp;
  pt_createdAt : option Timestamp;
  pt_updatedAt : option Timestamp;
  pt_reason : option string;
  pt_appointmentId : option string;
  pt_specialty : option string;
  pt_date : option string;
  pt_time : option string;
  pt_OrgID : option string;
}.

(** A conversation turn of [chatState.messages]. *)
Record Turn := {
  role : string;
  content : option string;      (* [None]: null *)
}.

(** One document of the [PoC] collection with its two subcollections.
    Optional fields may be absent on legacy documents. *)
Record PoCDoc := {
  poc_Name : string;
  poc_Phone : string;
  BotMode : option bool;
  addedBy : option string;
  Created_Timestamp : option Timestamp;
  lastSeen : option Timestamp;
  registered : option bool;
  poc_Gender : option string;
  poc_DOB : option Timestamp;
  poc_Address : option string;
  poc_Age : option Z;
  poc_updatedAt : option Timestamp;
  chatState : option (list Turn);
  Chat : list ChatMessage;
  Patients : list Patient;
}.

(** The [feedback] object attached to an appointment. *)
Record Feedback := {
  Recommend : string;
  Comments : string;
  Staff_Experience : string;
  Doctor_consultation : string;
  Overall_Experience : string;
  submittedAt : Timestamp;
}.

Record Appointment := {
  AppointmentID : string;
  apt_PoCRef : nat;
  apt_userPhone : string;
  apt_doctorId : string;
  apt_doctorName : option string;
  apt_specialty : string;
  apt_timeSlot : string;
  apt_patientName : option string;
  apt_patientAge : string;
  apt_patientGender : string;
  apt_reason : string;
  apt_createdAt : Timestamp;
  apt_status : string;
  apt_date : string;
  apt_dateTimestamp : option Timestamp;
  FlowToken : string;
  apt_OrgID : string;
  feedback : option Feedback;
}.

Record Ticket := {
  TicketID : string;
  tic_PoCRef : nat;
  tic_description : option string;
  tic_urgency : string;
  tic_category : string;
  tic_status : string;
  tic_createdAt : Timestamp;
  tic_OrgID : string;
}.

Record Checkin := {
  CheckinID : string;
  chk_PoCRef : nat;
  chk_phone : string;
  checkinTime : Timestamp;
  chk_OrgID : string;
}.

(** One document of [Organisation/<id>/Notifications]; [n_ref] is the
    key of the record that triggered it, when the event has one. *)
Record Notification := {
  n_from : string;
  n_message : string;
  n_timestamp : Timestamp;
  n_seen : bool;
  n_event : string;
  n_PoCRef : option nat;
  n_ref : option string;
  n_details : list (string * string);
}.

(** One document of the [Organisation] collection with its
    subcollections. *)
Record OrgDoc := {
  OrgID : option string;
  org_Name : option string;
  OrgName : option string;
  WA_Token : option string;
  WA_Phone_ID : option string;
  FB_Number : option string;
  BillingActive : option bool;
  Knowledge_URL : option string;
  Appointments : gmap string Appointment;
  Tickets : gmap string Ticket;
  Checkins : gmap string Checkin;
  Notifications : list Notification;
}.

Record Doctor := {
  dr_Name : option string;
  dr_OrgID : option string;
  Specialization : option (list string);   (* [None]: not an array *)
}.

(** The object cached by [loadOrganizationConfig]. *)
Record OrgConfig := {
  cfg_orgId : string;
  orgName : string;
  whatsappToken : string;
  whatsappPhoneId : string;
  billingActive : bool;
  knowledgeUrl : string;
  orgRef : nat;
}.

(** A request POSTed to the messaging provider's Graph endpoint. *)
Inductive OutboundKind :=
| OutText (body : option string)
| OutTemplate (name : string) (parameters : list string)
| OutFlow (flow_name flow_token : string).

Record Outbound := {
  out_phoneId : string;
  out_token : string;
  out_to : string;
  out_kind : OutboundKind;
}.

(** A chat-completion request and its answer. *)
Record LlmRequest := {
  llm_messages : list Turn;
  llm_tools : option string;       (* the tenant the tool catalog is built for *)
  llm_temperature : option string;
}.

(** What [openai.createChatCompletion] does: it throws, or answers with
    no choice, or with a first choice holding a message content (or null)
    and possibly a function call (name and raw arguments). *)
Inductive Completion :=
| LlmThrows
| LlmNoChoice
| LlmChoice (message_content : option string)
            (function_call : option (string * string)).

(** What [JSON.parse] gives for a form reply or for the arguments of a
    function call: it throws, or the text is [null], or it is an object,
    given by its string fields.  Any other value (a number, a string, an
    array) has none of the fields the program reads and is given as the
    empty object. *)
Inductive JsonValue :=
| JsonThrows
| JsonNull
| JsonObject (fields : FlowData).

(** The collaborators the program talks to, as oracles: the clock, the
    random number generator, the LLM provider, the Graph endpoint, the
    HTTP and file sources of the knowledge text, the media relay, and the
    built-in date, integer and JSON functions.
    - [env_clock k] is the value of the [k]-th clock read;
    - [env_random k] is the [k]-th random draw;
    - [env_llm history request] is the provider's answer;
    - [env_post r] tells whether the POST of [r] came back with [resp.ok]
      (a network failure is caught by every sender and reads as [false]);
    - [env_fetchText url] is the body of a successful GET, [env_readFile]
      the content of a readable file;
    - [env_media token mediaId mimeType orgId] is the public URL after a
      successful download and upload;
    - [env_parseDate s] is the timestamp of a valid date string, shifted by
      5.5 hours; [env_age k dob] the age computed from it at clock
      position [k]; [env_parseInt] is [parseInt(s, 10)] with [None] for NaN;
    - [env_JSON_parse] is [JSON.parse], [env_JSON_stringify] prints an
      object back, and [env_replyField s] is the truthy [reply] field of
      [JSON.parse(s)], if that succeeds and has one. *)
Record Env := {
  env_clock : nat → Timestamp;
  env_random : nat → nat;
  env_llm : list LlmRequest → LlmRequest → Completion;
  env_post : Outbound → bool;
  env_fetchText : string → option string;
  env_readFile : string → option string;
  env_media : string → string → string → string → option string;
  env_parseDate : string → option Timestamp;
  env_age : nat → Timestamp → Z;
  env_parseInt : option string → option Z;
  env_JSON_parse : string → JsonValue;
  env_JSON_stringify : FlowData → string;
  env_replyField : string → option string;
}.

(** The mutable state: the document store, the two in-process caches,
    the log of requests sent out, and the read positions of the clock
    and the random number generator.  In an auto-id collection ([PoC],
    [Organisation], and the list-shaped subcollections) the position of a
    document stands for its generated id; no operation deletes. *)
Record World := {
  PoC : list PoCDoc;
  Organisation : list OrgDoc;
  Doctors : gmap string Doctor;
  organizationConfigs : gmap string OrgConfig;
  knowledgeCache : gmap string string;
  sent : list Outbound;
  llm_calls : list LlmRequest;
  clock_reads : nat;
  random_draws : nat;
}.

(** ** Computations: state passing with exceptions

    [None] as a result is a thrown exception; the state reached so far is
    kept, as the effects of a JavaScript function that throws are. *)
Definition M (A : Type) : Type := World → option A * World.

Definition ret {A} (a : A) : M A := λ w, (Some a, w).

Definition bind {A B} (m : M A) (k : A → M B) : M B :=
  λ w, match m w with
       | (Some a, w') => k a w'
       | (None, w') => (None, w')
       end.

Definition throw {A} : M A := λ w, (None, w).

(** [try { m } catch { handler }] *)
Definition try_catch {A} (m : M A) (handler : M A) : M A :=
  λ w, match m w with
       | (None, w') => handler w'
       | r => r
       end.

Definition get_world : M World := λ w, (Some w, w).
Definition modify (f : World → World) : M unit := λ w, (Some tt, f w).

Notation "x <- m ;; k" := (bind m (λ x, k))
  (at level 100, m at next level, right associativity).
Notation "m ;; k" := (bind m (λ _, k))
  (at level 100, right associativity).

(** [for (const x of l) body] *)
Fixpoint for_each {A} (l : list A) (body : A → M unit) : M unit :=
  match l with
  | [] => ret tt
  | x :: l' => body x ;; for_each l' body
  end.

(** ** Field updates *)

Definition set_PoC (v : list PoCDoc) (w : World) : World :=
  {| PoC := v; Organisation := Organisation w; Doctors := Doctors w;
     organizationConfigs := organizationConfigs w;
     knowledgeCache := knowledgeCache w; sent := sent w;
     llm_calls := llm_calls w; clock_reads := clock_reads w;
     random_draws := random_draws w |}.

Definition set_Organisation (v : list OrgDoc) (w : World) : World :=
  {| PoC := PoC w; Organisation := v; Doctors := Doctors w;
     organizationConfigs := organizationConfigs w;
     knowledgeCache := knowledgeCache w; sent := sent w;
     llm_calls := llm_calls w; clock_reads := clock_reads w;
     random_draws := random_draws w |}.

Definition set_organizationConfigs (v : gmap string OrgConfig) (w : World) : World :=
  {| PoC := PoC w; Organisation := Organisation w; Doctors := Doctors w;
     organizationConfigs := v;
     knowledgeCache := knowledgeCache w; sent := sent w;
     llm_calls := llm_calls w; clock_reads := clock_reads w;
     random_draws := random_draws w |}.

Definition set_knowledgeCache (v : gmap string string) (w : World) : World :=
  {| PoC := PoC w; Organisation := Organisation w; Doctors := Doctors w;
     organizationConfigs := organizationConfigs w;
     knowledgeCache := v; sent := sent w;
     llm_calls := llm_calls w; clock_reads := clock_reads w;
     random_draws := random_draws w |}.

Definition set_sent (v : list Outbound) (w : World) : World :=
  {| PoC := PoC w; Organisation := Organisation w; Doctors := Doctors w;
     organizationConfigs := organizationConfigs w;
     knowledgeCache := knowledgeCache w; sent := v;
     llm_calls := llm_calls w; clock_reads := clock_reads w;
     random_draws := random_draws w |}.

Definition set_llm_calls (v : list LlmRequest) (w : World) : World :=
  {| PoC := PoC w; Organisation := Organisation w; Doctors := Doctors w;
     organizationConfigs := organizationConfigs w;
     knowledgeCache := knowledgeCache w; sent := sent w;
     llm_calls := v; clock_reads := clock_reads w;
     random_draws := random_draws w |}.

Definition set_clock_reads (v : nat) (w : World) : World :=
  {| PoC := PoC w; Organisation := Organisation w; Doctors := Doctors w;
     organizationConfigs := organizationConfigs w;
     knowledgeCache := knowledgeCache w; sent := sent w;
     llm_calls := llm_calls w; clock_reads := v;
     random_draws := random_draws w |}.

Definition set_random_draws (v : nat) (w : World) : World :=
  {| PoC := PoC w; Organisation := Organisation w; Doctors := Doctors w;
     organizationConfigs := organizationConfigs w;
     knowledgeCache := knowledgeCache w; sent := sent w;
     llm_calls := llm_calls w; clock_reads := clock_reads w;
     random_draws := v |}.

Definition set_lastSeen (t : Timestamp) (d : PoCDoc) : PoCDoc :=
  {| poc_Name := poc_Name d; poc_Phone := poc_Phone d; BotMode := BotMode d;
     addedBy := addedBy d; Created_Timestamp := Created_Timestamp d;
     lastSeen := Some t; registered := registered d;
     poc_Gender := poc_Gender d; poc_DOB := poc_DOB d;
     poc_Address := poc_Address d; poc_Age := poc_Age d;
     poc_updatedAt := poc_updatedAt d; chatState := chatState d;
     Chat := Chat d; Patients := Patients d |}.

Definition set_chatState (messages : list Turn) (d : PoCDoc) : PoCDoc :=
  {| poc_Name := poc_Name d; poc_Phone := poc_Phone d; BotMode := BotMode d;
     addedBy := addedBy d; Created_Timestamp := Created_Timestamp d;
     lastSeen := lastSeen d; registered := registered d;
     poc_Gender := poc_Gender d; poc_DOB := poc_DOB d;
     poc_Address := poc_Address d; poc_Age := poc_Age d;
     poc_updatedAt := poc_updatedAt d; chatState := Some messages;
     Chat := Chat d; Patients := Patients d |}.

Definition set_Chat (v : list ChatMessage) (d : PoCDoc) : PoCDoc :=
  {| poc_Name := poc_Name d; poc_Phone := poc_Phone d; BotMode := BotMode d;
     addedBy := addedBy d; Created_Timestamp := Created_Timestamp d;
     lastSeen := lastSeen d; registered := registered d;
     poc_Gender := poc_Gender d; poc_DOB := poc_DOB d;
     poc_Address := poc_Address d; poc_Age := poc_Age d;
     poc_updatedAt := poc_updatedAt d; chatState := chatState d;
     Chat := v; Patients := Patients d |}.

Definition set_Patients (v : list Patient) (d : PoCDoc) : PoCDoc :=
  {| poc_Name := poc_Name d; poc_Phone := poc_Phone d; BotMode := BotMode d;
     addedBy := addedBy d; Created_Timestamp := Created_Timestamp d;
     lastSeen := lastSeen d; registered := registered d;
     poc_Gender := poc_Gender d; poc_DOB := poc_DOB d;
     poc_Address := poc_Address d; poc_Age := poc_Age d;
     poc_updatedAt := poc_updatedAt d; chatState := chatState d;
     Chat := Chat d; Patients := v |}.

(** The [updateData] of the registration form, merged into a contact. *)
Definition set_registration (fullName gender : string) (dobTs : option Timestamp)
    (address : string) (age : Z) (updatedAt : Timestamp) (d : PoCDoc) : PoCDoc :=
  {| poc_Name := fullName; poc_Phone := poc_Phone d; BotMode := BotMode d;
     addedBy := addedBy d; Created_Timestamp := Created_Timestamp d;
     lastSeen := lastSeen d; registered := Some true;
     poc_Gender := Some gender; poc_DOB := dobTs;
     poc_Address := Some address; poc_Age := Some age;
     poc_updatedAt := Some updatedAt; chatState := chatState d;
     Chat := Chat d; Patients := Patients d |}.

Definition set_patient_registration (fullName gender : string)
    (dobTs : option Timestamp) (age : Z) (updatedAt : Timestamp) (p : Patient) : Patient :=
  {| pt_Name := Some fullName; pt_Gender := Some gender; pt_Age := Some age;
     pt_Relation := pt_Relation p; pt_DOB := dobTs;
     pt_createdAt := pt_createdAt p; pt_updatedAt := Some updatedAt;
     pt_reason := pt_reason p; pt_appointmentId := pt_appointmentId p;
     pt_specialty := pt_specialty p; pt_date := pt_date p;
     pt_time := pt_time p; pt_OrgID := pt_OrgID p |}.

Definition set_Appointments (v : gmap string Appointment) (o : OrgDoc) : OrgDoc :=
  {| OrgID := OrgID o; org_Name := org_Name o; OrgName := OrgName o;
     WA_Token := WA_Token o; WA_Phone_ID := WA_Phone_ID o;
     FB_Number := FB_Number o; BillingActive := BillingActive o;
     Knowledge_URL := Knowledge_URL o; Appointments := v;
     Tickets := Tickets o; Checkins := Checkins o;
     Notifications := Notifications o |}.

Definition set_Tickets (v : gmap string Ticket) (o : OrgDoc) : OrgDoc :=
  {| OrgID := OrgID o; org_Name := org_Name o; OrgName := OrgName o;
     WA_Token := WA_Token o; WA_Phone_ID := WA_Phone_ID o;
     FB_Number := FB_Number o; BillingActive := BillingActive o;
     Knowledge_URL := Knowledge_URL o; Appointments := Appointments o;
     Tickets := v; Checkins := Checkins o;
     Notifications := Notifications o |}.

Definition set_Checkins (v : gmap string Checkin) (o : OrgDoc) : OrgDoc :=
  {| OrgID := OrgID o; org_Name := org_Name o; OrgName := OrgName o;
     WA_Token := WA_Token o; WA_Phone_ID := WA_Phone_ID o;
     FB_Number := FB_Number o; BillingActive := BillingActive o;
     Knowledge_URL := Knowledge_URL o; Appointments := Appointments o;
     Tickets := Tickets o; Checkins := v;
     Notifications := Notifications o |}.

Definition set_Notifications (v : list Notification) (o : OrgDoc) : OrgDoc :=
  {| OrgID := OrgID o; org_Name := org_Name o; OrgName := OrgName o;
     WA_Token := WA_Token o; WA_Phone_ID := WA_Phone_ID o;
     FB_Number := FB_Number o; BillingActive := BillingActive o;
     Knowledge_URL := Knowledge_URL o; Appointments := Appointments o;
     Tickets := Tickets o; Checkins := Checkins o;
     Notifications := v |}.

Definition set_feedback (f : Feedback) (a : Appointment) : Appointment :=
  {| AppointmentID := AppointmentID a; apt_PoCRef := apt_PoCRef a;
     apt_userPhone := apt_userPhone a; apt_doctorId := apt_doctorId a;
     apt_doctorName := apt_doctorName a; apt_specialty := apt_specialty a;
     apt_timeSlot := apt_timeSlot a; apt_patientName := apt_patientName a;
     apt_patientAge := apt_patientAge a; apt_patientGender := apt_patientGender a;
     apt_reason := apt_reason a; apt_createdAt := apt_createdAt a;
     apt_status := apt_status a; apt_date := apt_date a;
     apt_dateTimestamp := apt_dateTimestamp a; FlowToken := FlowToken a;
     apt_OrgID := apt_OrgID a; feedback := Some f |}.

(** ** Inbound webhook deliveries *)

Inductive MediaKind := image | video | audio | document.

(** The first message of a delivery, by its shape: an interactive form
    reply carrying the raw [response_json], a media message, a plain text
    (the body may be missing), or any other type. *)
Inductive Payload :=
| NfmReply (response_json : string)
| Media (kind : MediaKind) (id : string) (mime_type : option string)
| Text (body : option string)
| OtherType.

Record Message := {
  msg_from : string;
  msg_payload : Payload;
}.

(** What the handler reads of a request. *)
Record Request := {
  header_organization_id : option string;   (* headers: x-organization-id *)
  param_orgId : option string;              (* query or path parameter orgId *)
  body_object : bool;                       (* req.body.object is truthy *)
  metadata_phone_number_id : option string;
  value_phone_number_id : option string;
  context_organization_id : option string;  (* of the first message *)
  metadata_organization_id : option string;
  profile_name : option string;             (* value.contacts[0].profile.name *)
  message : option Message;                 (* value.messages[0] *)
}.

Definition mediaTypeName (k : MediaKind) : string :=
  match k with
  | image => "image" | video => "video" | audio => "audio" | document => "document"
  end.

(** The branch of the form dispatch. *)
Inductive Flow := RegistrationFlow | FeedbackFlow | SupportFlow | AppointmentFlow.

(* ================================================================== *)
(** * The program *)
(* ================================================================== *)

Section Program.
Variable env : Env.

(** ** Store and oracle primitives *)

(** [admin.firestore.Timestamp.now()] *)
Definition getCurrentIndianTime : M Timestamp :=
  λ w, (Some (env_clock env (clock_reads w)), set_clock_reads (S (clock_reads w)) w).

(** [Math.floor(Math.random() * n)] *)
Definition random_index (n : nat) : M nat :=
  λ w, (Some (env_random env (random_draws w) `mod` n),
        set_random_draws (S (random_draws w)) w).

(** [openai.createChatCompletion(request)]; the result is the first
    choice, if there is one. *)
Definition createChatCompletion (request : LlmRequest)
  : M (option (option string * option (string * string))) :=
  λ w, let w' := set_llm_calls (llm_calls w ++ [request]) w in
       match env_llm env (llm_calls w) request with
       | LlmThrows => (None, w')
       | LlmNoChoice => (Some None, w')
       | LlmChoice c f => (Some (Some (c, f)), w')
       end.

(** [fetch(url, { method: "POST", ... })] followed by [resp.ok], inside
    the sender's own try/catch. *)
Definition post (r : Outbound) : M bool :=
  modify (λ w, set_sent (sent w ++ [r]) w) ;; ret (env_post env r).

(** [pocRef.get()]: the document data, if the document exists. *)
Definition poc_get (pocRef : nat) : M (option PoCDoc) :=
  w <- get_world ;; ret (PoC w !! pocRef).

(** [pocRef.update(fields)]: throws if the document does not exist. *)
Definition poc_update (pocRef : nat) (f : PoCDoc → PoCDoc) : M unit :=
  w <- get_world ;;
  match PoC w !! pocRef with
  | Some d => modify (set_PoC (<[pocRef := f d]> (PoC w)))
  | None => throw
  end.

(** Writes below a contact: [pocRef.collection(..).add(..)] and
    [pocRef.set(.., { merge: true })].  The handlers only hold references
    returned by [getOrCreatePoCByPhone]; for a reference without a document
    the write is not represented. *)
Definition poc_write (pocRef : nat) (f : PoCDoc → PoCDoc) : M unit :=
  modify (λ w, set_PoC (alter f pocRef (PoC w)) w).

(** Writes below an organisation document. *)
Definition org_write (orgRef : nat) (f : OrgDoc → OrgDoc) : M unit :=
  modify (λ w, set_Organisation (alter f orgRef (Organisation w)) w).

(** [generateId] and [generateFlowToken]: [length] characters drawn from
    [chars]. *)
Fixpoint generate_from (chars : string) (length : nat) : M string :=
  match length with
  | 0 => ret EmptyString
  | S n =>
      i <- random_index (String.length chars) ;;
      rest <- generate_from chars n ;;
      ret (match String.get i chars with
           | Some c => String c rest
           | None => rest
           end)
  end.

Definition generateId (length : nat) : M string :=
  generate_from "ABCDEFGHIJKLMNOPQRSTUVWXYZabcdefghijklmnopqrstuvwxyz0123456789" length.

Definition generateFlowToken (length : nat) : M string :=
  generate_from "0123456789" length.

(** ** Organisation configuration *)

(** The first document of a query [where(field, "==", orgId).limit(1)]
    over [Organisation]. *)
Definition find_org (field : OrgDoc → option string) (v : string) (w : World)
  : option (nat * OrgDoc) :=
  list_find (λ o, field o = Some v) (Organisation w).

Definition loadOrganizationConfig (orgId : string) : M (option OrgConfig) :=
  w <- get_world ;;
  match organizationConfigs w !! orgId with
  | Some config => ret (Some config)
  | None =>
      match find_org OrgID orgId w with
      | None => ret None
      | Some (ref, orgData) =>
          let config :=
            {| cfg_orgId := orgId;
               orgName := or_else (org_Name orgData) (or_else (OrgName orgData) orgId);
               whatsappToken := or_else (WA_Token orgData) "";
               whatsappPhoneId :=
                 or_else (WA_Phone_ID orgData) (or_else (FB_Number orgData) "");
               billingActive := bool_decide (BillingActive orgData = Some true);
               knowledgeUrl := or_else (Knowledge_URL orgData) "";
               orgRef := ref |} in
          modify (λ w, set_organizationConfigs
                         (<[orgId := config]> (organizationConfigs w)) w) ;;
          ret (Some config)
      end
  end.

Definition getOrganizationByPhoneId (phoneId : string) : M (option string) :=
  w <- get_world ;;
  match find_org WA_Phone_ID phoneId w with
  | Some (_, o) => ret (OrgID o)
  | None =>
      match find_org FB_Number phoneId w with
      | Some (_, o) => ret (OrgID o)
      | None => ret None
      end
  end.

Definition getOrganisationRef (orgId : string) : M (option nat) :=
  w <- get_world ;;
  ret (fst <$> find_org OrgID orgId w).

(** [createNotification(orgRef, from, message, event, references)] *)
Definition createNotification (orgRef : option nat) (from message event : string)
    (PoCRef : option nat) (ref : option string) (details : list (string * string))
  : M (option nat) :=
  match orgRef with
  | None => ret None
  | Some orgRef =>
      timestamp <- getCurrentIndianTime ;;
      let notificationData :=
        {| n_from := from; n_message := message; n_timestamp := timestamp;
           n_seen := false; n_event := event; n_PoCRef := PoCRef;
           n_ref := ref; n_details := details |} in
      w <- get_world ;;
      org_write orgRef (λ o, set_Notifications (Notifications o ++ [notificationData]) o) ;;
      ret (length <$> (Notifications <$> Organisation w !! orgRef))
  end.

(** ** Outbound messages *)

Definition sendWhatsAppMessage (to : string) (message : option string) (orgId : string)
  : M bool :=
  orgConfig <- loadOrganizationConfig orgId ;;
  match orgConfig with
  | None => ret false
  | Some orgConfig =>
      if negb (Js.truthy (whatsappToken orgConfig))
         || negb (Js.truthy (whatsappPhoneId orgConfig))
      then ret false
      else post {| out_phoneId := whatsappPhoneId orgConfig;
                   out_token := whatsappToken orgConfig;
                   out_to := to; out_kind := OutText message |}
  end.

Definition sendWelcomeTemplate (userPhone pocName orgId : string) : M bool :=
  orgConfig <- loadOrganizationConfig orgId ;;
  match orgConfig with
  | None => ret false
  | Some orgConfig =>
      post {| out_phoneId := whatsappPhoneId orgConfig;
              out_token := whatsappToken orgConfig;
              out_to := userPhone;
              out_kind := OutTemplate "welcome"
                            [orgName orgConfig; orgName orgConfig; pocName] |}
  end.

Definition sendSupportTemplate (userPhone orgId : string) : M bool :=
  orgConfig <- loadOrganizationConfig orgId ;;
  match orgConfig with
  | None => ret false
  | Some orgConfig =>
      post {| out_phoneId := whatsappPhoneId orgConfig;
              out_token := whatsappToken orgConfig;
              out_to := userPhone;
              out_kind := OutTemplate "support" [orgName orgConfig] |}
  end.

Definition sendAppointmentFlow (userPhone orgId : string) : M bool :=
  orgConfig <- loadOrganizationConfig orgId ;;
  match orgConfig with
  | None => ret false
  | Some orgConfig =>
      flowTok <- generateFlowToken 6 ;;
      post {| out_phoneId := whatsappPhoneId orgConfig;
              out_token := whatsappToken orgConfig;
              out_to := userPhone;
              out_kind := OutFlow "Appointment" flowTok |}
  end.

(** ** Contacts *)

(** [updatePoCLastSeen(pocRef)]: the failed update is caught and logged. *)
Definition updatePoCLastSeen (pocRef : nat) : M unit :=
  try_catch
    (t <- getCurrentIndianTime ;;
     poc_update pocRef (set_lastSeen t))
    (ret tt).

(** The query of [getOrCreatePoCByPhone]:
    [where("Phone", "==", phone).where("addedBy", "==", orgId).limit(1)]. *)
Definition find_poc (phone orgId : string) (w : World) : option (nat * PoCDoc) :=
  list_find (λ d, poc_Phone d = phone ∧ addedBy d = Some orgId) (PoC w).

Definition processWelcomeFormSubmission (pocRef : nat) (flowData : FlowData)
    (orgId : string) : M bool :=
  let fullName := or_else (flowData !! "screen_0_Full_Name_0") "" in
  let genderVal := or_else (flowData !! "screen_0_Gender_1") "" in
  let dobValue := or_else (flowData !! "screen_0_DOB_2") "" in
  let address := or_else (flowData !! "screen_0_Address_3") "" in
  let gender :=
    if Js.truthy genderVal then
      match Js.split "_" genderVal with
      | _ :: part1 :: _ => or_else (Some part1) "NA"
      | _ => "NA"
      end
    else "NA" in
  let dobTs := if Js.truthy dobValue then env_parseDate env dobValue else None in
  w <- get_world ;;
  let age := match dobTs with
             | Some birth => env_age env (clock_reads w) birth
             | None => 0%Z
             end in
  updatedAt <- getCurrentIndianTime ;;
  try_catch
    (poc_update pocRef (set_registration fullName gender dobTs address age updatedAt) ;;
     pocData <- poc_get pocRef ;;
     match Patients <$> pocData with
     | Some (first :: rest) =>
         updatedAt' <- getCurrentIndianTime ;;
         poc_write pocRef
           (set_Patients
              (set_patient_registration fullName gender dobTs age updatedAt' first :: rest))
     | _ => ret tt
     end ;;
     orgRef <- getOrganisationRef orgId ;;
     match orgRef with
     | Some _ =>
         pocData <- poc_get pocRef ;;
         let userPhone := or_else (poc_Phone <$> pocData) "Unknown" in
         createNotification orgRef userPhone
           ("New user " +:+ fullName +:+ " completed registration") "Registration"
           (Some pocRef) None
           [("name", fullName); ("gender", gender); ("address", address)] ;;
         ret tt
     | None => ret tt
     end ;;
     ret true)
    (ret false).

Definition getOrCreatePoCByPhone (phone contactName orgId : string) : M nat :=
  w <- get_world ;;
  match find_poc phone orgId w with
  | Some (pocRef, _) =>
      updatePoCLastSeen pocRef ;;
      ret pocRef
  | None =>
      let safeName := contactName in
      created <- getCurrentIndianTime ;;
      seen <- getCurrentIndianTime ;;
      w <- get_world ;;
      let newDoc := length (PoC w) in
      modify (λ w, set_PoC (PoC w ++
        [{| poc_Name := safeName; poc_Phone := phone; BotMode := Some true;
            addedBy := Some orgId; Created_Timestamp := Some created;
            lastSeen := Some seen; registered := Some false;
            poc_Gender := None; poc_DOB := None; poc_Address := None;
            poc_Age := None; poc_updatedAt := None; chatState := None;
            Chat := []; Patients := [] |}]) w) ;;
      orgRef <- getOrganisationRef orgId ;;
      match orgRef with
      | Some _ =>
          createNotification orgRef phone
            ("New user " +:+ safeName +:+ " created an account") "NewUser"
            (Some newDoc) None [] ;;
          ret tt
      | None => ret tt
      end ;;
      sendWelcomeTemplate phone safeName orgId ;;
      let relationVal :=
        if decide (Js.toLowerCase (Js.trim safeName) = Js.toLowerCase (Js.trim safeName))
        then "Self" else "" in
      dob <- getCurrentIndianTime ;;
      createdAt <- getCurrentIndianTime ;;
      poc_write newDoc (λ d, set_Patients (Patients d ++
        [{| pt_Name := Some safeName; pt_Gender := Some "NA"; pt_Age := Some 0%Z;
            pt_Relation := relationVal; pt_DOB := Some dob;
            pt_createdAt := Some createdAt; pt_updatedAt := None;
            pt_reason := None; pt_appointmentId := None; pt_specialty := None;
            pt_date := None; pt_time := None; pt_OrgID := None |}]) d) ;;
      ret newDoc
  end.

(** The body stored by [saveChatToPoC]. *)
Definition truncateBody (msgBody : option string) : string :=
  let truncated := or_else msgBody "" in
  if decide (300 < String.length truncated)
  then Js.slice0 300 truncated +:+ "...(truncated)"
  else truncated.

Definition saveChatToPoC (pocRef : nat) (direction from to msgType : string)
    (msgBody : option string) (extraFields : option string) : M unit :=
  let truncated := truncateBody msgBody in
  timestamp <- getCurrentIndianTime ;;
  let data :=
    {| Direction := direction; From := from; To := to; Msg_Type := msgType;
       Msg_Body := truncated; chat_Timestamp := timestamp;
       Msg_Image := extraFields |} in
  poc_write pocRef (λ d, set_Chat (Chat d ++ [data]) d) ;;
  updatePoCLastSeen pocRef.

(** ** Domain flow handlers

    The Firestore client refuses a document path that is not a non-empty
    string and a document that holds an [undefined] field: such a call
    throws, and nothing is written by it. *)

Definition appointmentFlowImpl (action : option string) (userPhone orgId : string)
  : M string :=
  if decide (action = Some "new") then
    sendAppointmentFlow userPhone orgId ;;
    ret "Appointment form sent."
  else if decide (action = Some "reschedule") then
    ret "Rescheduling placeholder. Not implemented."
  else if decide (action = Some "cancel") then
    ret "Cancellation placeholder. Not implemented."
  else ret "Unknown appointment action => new, reschedule, cancel only.".

(** How a template literal prints an optional string. *)
Definition show (v : option string) : string := default "undefined" v.

Definition createAppointmentDoc (pocRef : nat) (userPhone : string)
    (flowData : FlowData) (orgId : string) : M unit :=
  let flow_token := flowData !! "flow_token" in
  let doctorId := flowData !! "doctorId" in
  let date := flowData !! "date" in
  let time := flowData !! "time" in
  let reason := flowData !! "reason" in
  let name := flowData !! "name" in
  let age := flowData !! "age" in
  let gender := flowData !! "gender" in
  let specialty := flowData !! "specialty" in
  let patientName := name in
  let dateTs := match date with
                | Some d => if Js.truthy d then env_parseDate env d else None
                | None => None
                end in
  orgRef <- getOrganisationRef orgId ;;
  match orgRef with
  | None => ret tt
  | Some org =>
      (if falsy doctorId then throw else ret tt) ;;   (* doc(doctorId) *)
      w <- get_world ;;
      let drData := doctorId ≫= λ id, Doctors w !! id in
      let doctorName := drData ≫= dr_Name in
      suffix <- generateId 8 ;;
      let aptId := "APT-" +:+ suffix in
      createdAt <- getCurrentIndianTime ;;
      let aptDoc :=
        {| AppointmentID := aptId; apt_PoCRef := pocRef; apt_userPhone := userPhone;
           apt_doctorId := or_else doctorId ""; apt_doctorName := doctorName;
           apt_specialty := or_else specialty ""; apt_timeSlot := or_else time "";
           apt_patientName := patientName; apt_patientAge := or_else age "";
           apt_patientGender := or_else gender ""; apt_reason := or_else reason "";
           apt_createdAt := createdAt; apt_status := "Draft";
           apt_date := or_else date ""; apt_dateTimestamp := dateTs;
           FlowToken := or_else flow_token ""; apt_OrgID := orgId;
           feedback := None |} in
      (match doctorName, patientName with
       | Some _, Some _ => ret tt
       | _, _ => throw                               (* set(aptDoc) *)
       end) ;;
      org_write org (λ o, set_Appointments (<[aptId := aptDoc]> (Appointments o)) o) ;;
      createNotification orgRef userPhone
        ("New appointment created for " +:+ show patientName +:+ " with " +:+
         show doctorName +:+ " on " +:+ show date +:+ " at " +:+ show time)
        "Appointment" (Some pocRef) (Some aptId) [] ;;
      pocData <- poc_get pocRef ;;
      let patients := default [] (Patients <$> pocData) in
      match patientName ≫= λ n, list_find (λ p, pt_Name p = Some n) patients with
      | Some _ => ret tt
      | None =>
          isSelf <-
            (match poc_Name <$> pocData with
             | Some pocName =>
                 if Js.truthy pocName then
                   match patientName with
                   | Some n =>
                       ret (bool_decide (Js.toLowerCase (Js.trim pocName)
                                         = Js.toLowerCase (Js.trim n)))
                   | None => throw
                   end
                 else ret false
             | None => ret false
             end) ;;
          let newRelation := if isSelf : bool then "Self" else "" in
          dob <- getCurrentIndianTime ;;
          patientCreatedAt <- getCurrentIndianTime ;;
          (match gender with
           | Some _ => ret tt
           | None => throw                           (* add({ ..., Gender }) *)
           end) ;;
          poc_write pocRef (λ d, set_Patients (Patients d ++
            [{| pt_Name := patientName; pt_Gender := gender;
                pt_Age := env_parseInt env age; pt_Relation := newRelation;
                pt_DOB := Some dob; pt_createdAt := Some patientCreatedAt;
                pt_updatedAt := None; pt_reason := Some (or_else reason "");
                pt_appointmentId := Some aptId;
                pt_specialty := Some (or_else specialty "");
                pt_date := Some (or_else date ""); pt_time := Some (or_else time "");
                pt_OrgID := Some orgId |}]) d)
      end
  end.

Definition supportFlowImpl (department : option string) (userPhone orgId : string)
  : M string :=
  sendSupportTemplate userPhone orgId ;;
  ret "Support form sent.".

Definition createSupportTicket (pocRef : nat) (flowData : FlowData) (orgId : string)
  : M unit :=
  orgRef <- getOrganisationRef orgId ;;
  match orgRef with
  | None => ret tt
  | Some org =>
      let description := flowData !! "screen_0_Description_of_issue_2" in
      let urgencyVal := flowData !! "screen_0_Urgency_1" in
      let categoryVal := flowData !! "screen_0_Category_0" in
      let urgency := parseNumberFromLabel urgencyVal "Low" in
      let category := parseNumberFromLabel categoryVal "General" in
      suffix <- generateId 8 ;;
      let ticketId := "TIC-" +:+ suffix in
      createdAt <- getCurrentIndianTime ;;
      let doc :=
        {| TicketID := ticketId; tic_PoCRef := pocRef; tic_description := description;
           tic_urgency := urgency; tic_category := category; tic_status := "open";
           tic_createdAt := createdAt; tic_OrgID := orgId |} in
      (match description with
       | Some _ => ret tt
       | None => throw                               (* set(doc) *)
       end) ;;
      org_write org (λ o, set_Tickets (<[ticketId := doc]> (Tickets o)) o) ;;
      pocSnap <- poc_get pocRef ;;
      let userPhone := or_else (poc_Phone <$> pocSnap) "Unknown" in
      let userName := or_else (poc_Name <$> pocSnap) "User" in
      let notificationMessage :=
        "New support ticket created by " +:+ userName +:+ " with " +:+ urgency +:+
        " urgency in the " +:+ category +:+ " category" in
      let shortDescription :=
        let d := or_else description "" in
        if decide (50 < String.length d) then Js.slice0 50 d +:+ "..." else d in
      createNotification orgRef userPhone notificationMessage "Ticket"
        (Some pocRef) (Some ticketId)
        [("urgency", urgency); ("category", category); ("description", shortDescription)] ;;
      ret tt
  end.

Definition createCheckinDoc (pocRef : nat) (userPhone orgId : string) : M unit :=
  orgRef <- getOrganisationRef orgId ;;
  match orgRef with
  | None => ret tt
  | Some org =>
      pocSnap <- poc_get pocRef ;;
      let userName := or_else (poc_Name <$> pocSnap) "User" in
      suffix <- generateId 8 ;;
      let checkinId := "CHK-" +:+ suffix in
      checkinTime <- getCurrentIndianTime ;;
      let doc :=
        {| CheckinID := checkinId; chk_PoCRef := pocRef; chk_phone := userPhone;
           checkinTime := checkinTime; chk_OrgID := orgId |} in
      org_write org (λ o, set_Checkins (<[checkinId := doc]> (Checkins o)) o) ;;
      let notificationMessage := userName +:+ " just checked in at the facility" in
      createNotification orgRef userPhone notificationMessage "Checkin"
        (Some pocRef) (Some checkinId) [] ;;
      ret tt
  end.

(** The documents of a keyed collection in the order in which a query
    without [orderBy] returns them: ascending document id. *)
Definition docs_by_id {A} (m : gmap string A) : list (string * A) :=
  merge_sort (λ x y, Is_true (String.leb x.1 y.1)) (map_to_list m).

(** The first of two documents in the order of a query without
    [orderBy]: ascending document id. *)
Definition first_by_id {A} (kv : string * A) (acc : option (string * A))
  : option (string * A) :=
  match acc with
  | Some kv' => if String.leb kv.1 kv'.1 then Some kv else acc
  | None => Some kv
  end.

(** The query of [updateAppointmentFeedback]:
    [where("FlowToken", "==", flowToken).limit(1)], the first match in the
    order of the document ids. *)
Definition find_appointment (flowToken : string) (appointments : gmap string Appointment)
  : option (string * Appointment) :=
  foldr (λ kv acc, if decide (FlowToken kv.2 = flowToken) then first_by_id kv acc else acc)
    None (map_to_list appointments).

Definition updateAppointmentFeedback (flowData : FlowData) (orgId : string) : M unit :=
  let flowToken := or_else (flowData !! "flow_token") "" in
  let rawRecommend := flowData !! "screen_0_Choose_0" in
  let rawComments := or_else (flowData !! "screen_0_Leave_a_1") "" in
  let rawStaff := flowData !! "screen_1_Staff_Experience_0" in
  let rawDoc := flowData !! "screen_1_Doctor_consultation_1" in
  let rawOverall := flowData !! "screen_1_Overall_Experience_2" in
  let recommend := parseYesNo rawRecommend "No" in
  let comments := rawComments in
  let staffExp := parseStarRating rawStaff "NA" in
  let docConsult := parseStarRating rawDoc "NA" in
  let overallExp := parseStarRating rawOverall "NA" in
  orgRef <- getOrganisationRef orgId ;;
  match orgRef with
  | None => ret tt
  | Some org =>
      w <- get_world ;;
      let appointments := default ∅ (Appointments <$> Organisation w !! org) in
      match find_appointment flowToken appointments with
      | None => ret tt
      | Some (aptRef, aptDoc) =>
          let pocRef := apt_PoCRef aptDoc in
          let userPhone := or_else (Some (apt_userPhone aptDoc)) "Unknown" in
          submittedAt <- getCurrentIndianTime ;;
          let feedback :=
            {| Recommend := recommend; Comments := comments;
               Staff_Experience := staffExp; Doctor_consultation := docConsult;
               Overall_Experience := overallExp; submittedAt := submittedAt |} in
          org_write org
            (λ o, set_Appointments (alter (set_feedback feedback) aptRef (Appointments o)) o) ;;
          let overallRating :=
            if decide (overallExp ≠ "NA") then overallExp +:+ "/5" else "N/A" in
          let notificationMessage :=
            "Feedback received for appointment with " +:+
            or_else (apt_doctorName aptDoc) "Unknown" +:+
            ". Overall rating: " +:+ overallRating in
          let shortComments :=
            if decide (50 < String.length comments)
            then Js.slice0 50 comments +:+ "..." else comments in
          createNotification orgRef userPhone notificationMessage "Feedback"
            (Some pocRef) (Some aptRef)
            [("recommend", recommend); ("comments", shortComments);
             ("staffExp", staffExp); ("docConsult", docConsult);
             ("overallExp", overallExp)] ;;
          ret tt
      end
  end.

(** ** Knowledge store *)

Definition nl : string := String (ascii_of_nat 10) EmptyString.
Definition dq : string := String (ascii_of_nat 34) EmptyString.

Definition loadKnowledgeBase (orgId : string) : M string :=
  try_catch
    (w <- get_world ;;
     match knowledgeCache w !! orgId with
     | Some text => ret text
     | None =>
         orgConfig <- loadOrganizationConfig orgId ;;
         match orgConfig with
         | None => ret "No organization configuration found."
         | Some orgConfig =>
             let fromUrl :=
               if Js.truthy (knowledgeUrl orgConfig)
               then default "No knowledge base loaded."
                      (env_fetchText env (knowledgeUrl orgConfig))
               else "No knowledge base loaded." in
             let knowledgeText :=
               if decide (fromUrl = "No knowledge base loaded.") then
                 match env_readFile env ("knowledgebase_" +:+ orgId +:+ ".txt") with
                 | Some text => text
                 | None =>
                     match env_readFile env "knowledgebase.txt" with
                     | Some text => text
                     | None => "No knowledge base available for " +:+
                               orgName orgConfig +:+ "."
                     end
                 end
               else fromUrl in
             modify (λ w, set_knowledgeCache
                            (<[orgId := knowledgeText]> (knowledgeCache w)) w) ;;
             ret knowledgeText
         end
     end)
    (ret "Error loading knowledge base.").

(** [orgConfig.orgName]: a TypeError when the configuration is null. *)
Definition orgName_of (orgConfig : option OrgConfig) : M string :=
  match orgConfig with
  | Some c => ret (orgName c)
  | None => throw
  end.

(** [orgConfig?.orgName || orgId] *)
Definition tenantName (orgConfig : option OrgConfig) (orgId : string) : string :=
  or_else (orgName <$> orgConfig) orgId.

Definition knowledge_system_turn (name : string) : Turn :=
  {| role := "system";
     content := Some ("You are a helpful, human-like " +:+ name +:+
                      " knowledge assistant.") |}.

Definition refine_prompt (name userQuery : string) (matchedLines : list string) : string :=
  nl +:+ "You are " +:+ name +:+ "'s helpful assistant. " +:+ nl +:+
  "The user asked: " +:+ dq +:+ userQuery +:+ dq +:+ nl +:+
  "We found these lines in the local knowledge database:" +:+ nl +:+ nl +:+
  Js.join nl matchedLines +:+ nl +:+ nl +:+
  "Please summarize them or craft a short, natural response. " +:+ nl +:+
  "If the lines mention specific details, share them in a friendly tone." +:+ nl.

Definition full_prompt (name userQuery fullKnowledgeText : string) : string :=
  nl +:+ "You are " +:+ name +:+ "'s helpful assistant. " +:+ nl +:+
  "The user asked: " +:+ dq +:+ userQuery +:+ dq +:+ nl +:+
  "Below is the ENTIRE knowledge base text:" +:+ nl +:+ nl +:+
  fullKnowledgeText +:+ nl +:+ nl +:+
  "Try to find any relevant info. " +:+ nl +:+
  "If you find something relevant, summarize it or respond in a friendly tone. " +:+ nl +:+
  "If there's truly nothing relevant, respond with an empty line or say " +:+
  dq +:+ "No relevant info." +:+ dq +:+ nl.

Definition refine_request (name userQuery : string) (matchedLines : list string)
  : LlmRequest :=
  {| llm_messages := [knowledge_system_turn name;
                      {| role := "user";
                         content := Some (refine_prompt name userQuery matchedLines) |}];
     llm_tools := None; llm_temperature := None |}.

Definition full_request (name userQuery fullKnowledgeText : string) : LlmRequest :=
  {| llm_messages := [knowledge_system_turn name;
                      {| role := "user";
                         content := Some (full_prompt name userQuery fullKnowledgeText) |}];
     llm_tools := None; llm_temperature := Some "0.5" |}.

Definition refineKnowledgeWithGpt (userQuery : string) (matchedLines : list string)
    (orgConfig : option OrgConfig) : M string :=
  try_catch
    (name <- orgName_of orgConfig ;;
     choice <- createChatCompletion (refine_request name userQuery matchedLines) ;;
     match choice with
     | None => ret (Js.join nl matchedLines)
     | Some (message_content, _) =>
         ret (or_else message_content (Js.join nl matchedLines))
     end)
    (ret (Js.join nl matchedLines)).

Definition checkKnowledgeFullWithGpt (userQuery fullKnowledgeText : string)
    (orgConfig : option OrgConfig) : M string :=
  try_catch
    (name <- orgName_of orgConfig ;;
     choice <- createChatCompletion (full_request name userQuery fullKnowledgeText) ;;
     let reply := or_else (Js.trim <$> (choice ≫= fst)) "" in
     if Js.includes (Js.toLowerCase reply) "no relevant info"
        || Js.includes (Js.toLowerCase reply) "no relevant information"
        || Js.includes (Js.toLowerCase reply) "nothing relevant"
        || (String.length reply <? 4)
     then ret ""
     else ret reply)
    (ret "").

Definition knowledgeLookupImpl (userQuery orgId : string) : M string :=
  knowledgeText <- loadKnowledgeBase orgId ;;
  orgConfig <- loadOrganizationConfig orgId ;;
  if negb (Js.truthy knowledgeText)
     || Js.startsWith knowledgeText "Error"
     || Js.startsWith knowledgeText "No knowledge"
  then ret ("No knowledge base loaded for " +:+ tenantName orgConfig orgId +:+ ". Sorry.")
  else
    let lcQuery := Js.toLowerCase userQuery in
    let lines := Js.split (ascii_of_nat 10) knowledgeText in
    let matchingLines :=
      List.filter (λ line, Js.includes (Js.toLowerCase line) lcQuery) lines in
    if decide (0 < length matchingLines) then
      refineKnowledgeWithGpt userQuery matchingLines orgConfig
    else
      fallbackReply <- checkKnowledgeFullWithGpt userQuery knowledgeText orgConfig ;;
      if Js.truthy fallbackReply && (0 <? String.length (Js.trim fallbackReply))
      then ret fallbackReply
      else ret ("No direct info found in the knowledge base. Please ask more about "
                +:+ tenantName orgConfig orgId +:+ "!").

Definition smallTalkImpl (userMessage orgId : string) (orgConfig : option OrgConfig)
  : string :=
  let orgName := tenantName orgConfig orgId in
  "Hello! " +:+ orgName +:+ " is here to help. How can we assist you today?".

(** ** Symptom triage *)

Definition POSSIBLE_SPECIALTIES : list string :=
  ["General Physician"; "Neurologist"; "Cardiologist"; "Orthopedic Surgeon";
   "Pediatrician"; "Gynecologist"; "Pathologist"; "Oncologist";
   "ENT Surgeon"; "Gastroenterologist"; "Neuro Physician";
   "General Surgeon"; "Urologist"; "Nephrologist"; "Dermatologist";
   "Physiotherapist"; "RMO"; "Psychologist"; "Anesthesiologist";
   "Allergist/Immunologist"; "Endocrinologist"; "Hematologist";
   "Infectious Disease Specialist"; "Pulmonologist"; "Radiologist";
   "Rheumatologist"; "Psychiatrist"; "Ophthalmologist"; "Plastic Surgeon";
   "Vascular Surgeon"; "Neonatologist"; "Geriatrician";
   "Sports Medicine Specialist"; "Emergency Medicine Physician";
   "Critical Care Specialist"; "Family Medicine Physician";
   "Pain Management Specialist"; "Occupational Health Physician";
   "Cardiothoracic Surgeon"; "Neurosurgeon"; "Hepatologist";
   "Colorectal Surgeon"; "Obstetrician"; "Andrologist";
   "Pediatric Surgeon"; "Medical Geneticist"; "Forensic Pathologist";
   "Maxillofacial Surgeon"; "Transplant Surgeon"; "Nuclear Medicine Physician";
   "Interventional Radiologist"; "Palliative Care Specialist"].

Definition classify_request (symptomLine : string) : LlmRequest :=
  {| llm_messages :=
       [{| role := "system";
           content := Some "You are a helpful, human-like medical triage assistant." |};
        {| role := "user";
           content := Some (
             nl +:+ "You are a medical triage assistant. " +:+ nl +:+
             "Given the user symptom: " +:+ dq +:+ symptomLine +:+ dq +:+ nl +:+ nl +:+
             "Pick exactly ONE specialty from this list that best addresses that symptom:"
             +:+ nl +:+ Js.join ", " POSSIBLE_SPECIALTIES +:+ nl +:+ nl +:+
             "If multiple might apply, pick the one that is most likely/primary. " +:+ nl +:+
             "If uncertain, pick " +:+ dq +:+ "General Physician" +:+ dq +:+ "." +:+ nl +:+
             "Return exactly the name with no extra text. " +:+ nl) |}];
     llm_tools := None; llm_temperature := Some "0.0" |}.

Definition classifySymptomWithGpt (symptomLine : string) : M string :=
  try_catch
    (choice <- createChatCompletion (classify_request symptomLine) ;;
     let specialty := or_else (Js.trim <$> (choice ≫= fst)) "" in
     if existsb (λ s, bool_decide (Js.toLowerCase s = Js.toLowerCase specialty))
          POSSIBLE_SPECIALTIES
     then ret specialty
     else ret "General Physician")
    (ret "General Physician").

(** The loop over [snap.docs]; [None] when the callback of [some] throws. *)
Fixpoint matchDoctors (target : string) (docs : list Doctor) : option (list Doctor) :=
  match docs with
  | [] => Some []
  | data :: docs' =>
      match Specialization data with
      | None => matchDoctors target docs'
      | Some arr =>
          foundMatch ← array_some (specialtyMatches target) arr;
          matchedDocs ← matchDoctors target docs';
          Some (if foundMatch : bool then data :: matchedDocs else matchedDocs)
      end
  end.

Definition findDoctorsByFuzzySpecialty (specialty orgId : string) : M (list Doctor) :=
  w <- get_world ;;
  let docs := List.filter (λ d, bool_decide (dr_OrgID d = Some orgId))
                (snd <$> docs_by_id (Doctors w)) in
  match docs with
  | [] => ret []
  | _ =>
      let target := normaliseSpecialty specialty in
      ret (default [] (matchDoctors target docs))
  end.

(** [s.split(/(\.|,|\n)/)]: the pieces between the delimiters, with the
    delimiters themselves (the regular expression captures them). *)
Fixpoint splitSentences (s : string) : list string :=
  match s with
  | EmptyString => [EmptyString]
  | String c s' =>
      if (Js.code c =? 46) || (Js.code c =? 44) || (Js.code c =? 10)
      then EmptyString :: String c EmptyString :: splitSentences s'
      else match splitSentences s' with
           | h :: t => String c h :: t
           | [] => [String c EmptyString]
           end
  end.

Fixpoint assessLines (lines : list string) (orgId : string) : M (list string) :=
  match lines with
  | [] => ret []
  | line :: lines' =>
      gptSpecialty <- classifySymptomWithGpt line ;;
      docList <- findDoctorsByFuzzySpecialty gptSpecialty orgId ;;
      let head :=
        "*Symptom*: " +:+ dq +:+ line +:+ dq +:+ nl +:+
        "Likely specialty: " +:+ gptSpecialty +:+ "." +:+ nl +:+
        "Disclaimer: This is basic guidance, not a formal diagnosis. " +:+
        "Please consult in person for serious concerns." in
      let partialMsg :=
        match docList with
        | [] => head +:+ nl +:+ "[No specific doctor found for specialty " +:+ dq +:+
                gptSpecialty +:+ dq +:+ " - kindly see a general physician.]"
        | _ =>
            fold_left
              (λ acc d, acc +:+ nl +:+ "*" +:+ show (dr_Name d) +:+
                        "* (Specialization: " +:+
                        Js.join ", " (default [] (Specialization d)) +:+ ")")
              docList
              (head +:+ nl +:+ "*Possible doctors* matching that specialty:")
        end in
      resultParts <- assessLines lines' orgId ;;
      ret (partialMsg :: resultParts)
  end.

Definition symptomAssessmentImpl (userSymptom orgId : string) : M string :=
  let lines :=
    List.filter (λ x, Js.truthy x && (2 <? String.length x))
      (Js.trim <$> splitSentences userSymptom) in
  resultParts <- assessLines lines orgId ;;
  ret (Js.join (nl +:+ nl) resultParts +:+ nl +:+ nl +:+
       "Would you like to book an appointment with any of these doctors or ask more questions? "
       +:+ nl +:+ "If it feels severe, please see a physician immediately.").

(** ** Function-call dispatch *)

(** [args.field]: a TypeError when [args] is [null]. *)
Definition arg (args : option FlowData) (field : string) : M (option string) :=
  match args with
  | Some fields => ret (fields !! field)
  | None => throw
  end.

Definition handleLocalFunctionCall (name : string) (args : option FlowData)
    (fromPhone orgId : string) : M string :=
  orgConfig <- loadOrganizationConfig orgId ;;
  if decide (name = "appointment_flow") then
    action <- arg args "action" ;;
    appointmentFlowImpl action fromPhone orgId
  else if decide (name = "support_flow") then
    department <- arg args "department" ;;
    supportFlowImpl department fromPhone orgId
  else if decide (name = "knowledge_lookup") then
    userQuery <- arg args "userQuery" ;;
    knowledgeLookupImpl (or_else userQuery "") orgId
  else if decide (name = "small_talk") then
    userMessage <- arg args "userMessage" ;;
    ret (smallTalkImpl (or_else userMessage "") orgId orgConfig)
  else if decide (name = "symptom_assessment") then
    userSymptom <- arg args "userSymptom" ;;
    symptomAssessmentImpl (or_else userSymptom "") orgId
  else ret ("Kindly only ask anything related to " +:+ tenantName orgConfig orgId +:+ ".").

Definition handleOpenAiFunctionCall (fCall : string * string) (fromPhone orgId : string)
  : M string :=
  try_catch
    (match env_JSON_parse env fCall.2 with
     | JsonObject parsed => handleLocalFunctionCall fCall.1 (Some parsed) fromPhone orgId
     | JsonNull => handleLocalFunctionCall fCall.1 None fromPhone orgId
     | JsonThrows => throw
     end)
    (ret "Error parsing function arguments.").

Definition getSystemMessage (orgConfig : OrgConfig) : Turn :=
  {| role := "system";
     content := Some (
       nl +:+ "You are " +:+ orgName orgConfig +:+ "'s Chatbot in English. " +:+ nl +:+
       "We've replaced the old knowledge lookup with substring search + " +:+ nl +:+
       "a fallback GPT pass over the entire knowledge base if no substring found. " +:+ nl +:+
       "We also use GPT for symptom classification. " +:+ nl +:+
       "No other flows changed. " +:+ nl +:+
       "Respond in a natural, friendly, and helpful manner representing " +:+
       orgName orgConfig +:+ "." +:+ nl) |}.

(** ** The webhook *)

Definition getOrganizationFromContext (req : Request) : M string :=
  try_catch
    (if negb (falsy (header_organization_id req))
     then ret (or_else (header_organization_id req) "")
     else if negb (falsy (param_orgId req))
     then ret (or_else (param_orgId req) "")
     else
       let phoneId :=
         if negb (falsy (metadata_phone_number_id req)) then metadata_phone_number_id req
         else if negb (falsy (value_phone_number_id req)) then value_phone_number_id req
         else None in
       fromPhoneId <-
         (match phoneId with
          | Some phoneId => getOrganizationByPhoneId phoneId
          | None => ret None
          end) ;;
       if negb (falsy fromPhoneId) then ret (or_else fromPhoneId "")
       else if negb (falsy (message req ≫= λ _, context_organization_id req))
       then ret (or_else (context_organization_id req) "")
       else if negb (falsy (metadata_organization_id req))
       then ret (or_else (metadata_organization_id req) "")
       else ret "Saijyot")
    (ret "Saijyot").

(** The if/else-if chain over the marker keys of a form reply. *)
Definition flowOf (flowData : FlowData) : Flow :=
  if negb (falsy (flowData !! "screen_0_Full_Name_0")) then RegistrationFlow
  else if negb (falsy (flowData !! "screen_0_Choose_0")) then FeedbackFlow
  else if negb (falsy (flowData !! "screen_0_Description_of_issue_2")) then SupportFlow
  else AppointmentFlow.

Definition downloadWhatsAppMediaAndUpload (mediaId : string) (mimeType : option string)
    (orgId : string) : M (option string) :=
  try_catch
    (orgConfig <- loadOrganizationConfig orgId ;;
     match orgConfig with
     | None => ret None
     | Some orgConfig =>
         ret (env_media env (whatsappToken orgConfig) mediaId
                (default "application/octet-stream" mimeType) orgId)
     end)
    (ret None).

(** Branch A of the handler: an [nfm_reply].  The reply is parsed
    first; when it is [null] the contact and the inbound entry are still
    written, and the first field read throws. *)
Definition handleNfmReply (orgId : string) (orgConfig : OrgConfig) (contactName : string)
    (fromUser rawJson : string) : M nat :=
  match env_JSON_parse env rawJson with
  | JsonThrows => throw
  | JsonNull =>
      pocRef <- getOrCreatePoCByPhone fromUser contactName orgId ;;
      saveChatToPoC pocRef "inbound" fromUser (whatsappPhoneId orgConfig)
        "interactive" (Some "null") None ;;
      throw
  | JsonObject flowData =>
      pocRef <- getOrCreatePoCByPhone fromUser contactName orgId ;;
      let shortFlow := env_JSON_stringify env flowData in
      let shortFlow :=
        if decide (300 < String.length shortFlow)
        then Js.slice0 300 shortFlow +:+ "...(truncated)" else shortFlow in
      saveChatToPoC pocRef "inbound" fromUser (whatsappPhoneId orgConfig)
        "interactive" (Some shortFlow) None ;;
      let reply (text : string) : M nat :=
        sendWhatsAppMessage fromUser (Some text) orgId ;;
        saveChatToPoC pocRef "outbound" (whatsappPhoneId orgConfig) fromUser
          "text" (Some text) None ;;
        ret 200 in
      match flowOf flowData with
      | RegistrationFlow =>
          processWelcomeFormSubmission pocRef flowData orgId ;;
          reply "Thank you for completing your registration! You can now use our services."
      | FeedbackFlow =>
          updateAppointmentFeedback flowData orgId ;;
          reply "Thank you for your feedback!"
      | SupportFlow =>
          createSupportTicket pocRef flowData orgId ;;
          reply "We have created your support ticket. Thank you!"
      | AppointmentFlow =>
          createAppointmentDoc pocRef fromUser flowData orgId ;;
          reply "Your appointment has been recorded. Thank you!"
      end
  end.

(** Branch B, media. *)
Definition handleMedia (orgId : string) (orgConfig : OrgConfig) (pocRef : nat)
    (from : string) (kind : MediaKind) (mediaId : string) (mimeType : option string)
  : M nat :=
  uploaded <- downloadWhatsAppMediaAndUpload mediaId mimeType orgId ;;
  let publicUrl := or_else uploaded "Failed to retrieve media from WA." in
  match kind with
  | image =>
      saveChatToPoC pocRef "inbound" from (whatsappPhoneId orgConfig) "image"
        (Some "User sent an image") (Some publicUrl)
  | document =>
      match mimeType with
      | None => throw
      | Some mime =>
          let extension := if Js.includes mime "pdf" then "pdf" else "doc" in
          saveChatToPoC pocRef "inbound" from (whatsappPhoneId orgConfig) extension
            (Some publicUrl) None
      end
  | video =>
      saveChatToPoC pocRef "inbound" from (whatsappPhoneId orgConfig) "video"
        (Some publicUrl) None
  | audio =>
      saveChatToPoC pocRef "inbound" from (whatsappPhoneId orgConfig) "audio"
        (Some publicUrl) None
  end ;;
  orgRef <- getOrganisationRef orgId ;;
  match orgRef with
  | Some _ =>
      pocSnap <- poc_get pocRef ;;
      let userName := or_else (poc_Name <$> pocSnap) "User" in
      let what := match kind with
                  | image => "an image" | video => "a video"
                  | audio => "an audio message" | document => "a document"
                  end in
      createNotification orgRef from (userName +:+ " sent " +:+ what) "Message"
        (Some pocRef) None
        [("mediaType", mediaTypeName kind); ("mediaUrl", publicUrl)] ;;
      ret tt
  | None => ret tt
  end ;;
  ret 200.

(** The request of the function-calling loop. *)
Definition chat_request (messages : list Turn) (orgId : string) : LlmRequest :=
  {| llm_messages := messages; llm_tools := Some orgId; llm_temperature := None |}.

(** The AI part of the text branch, after the BotMode check. *)
Definition handleAi (orgId : string) (orgConfig : OrgConfig) (pocRef : nat)
    (from userText : string) (pocData : option PoCDoc) : M nat :=
  let messages := default [] (pocData ≫= chatState) in
  let systemMessage := getSystemMessage orgConfig in
  let messages :=
    if existsb (λ m, bool_decide (role m = "system")) messages
    then messages else systemMessage :: messages in
  let messages := messages ++ [{| role := "user"; content := Some userText |}] in
  choice <- createChatCompletion (chat_request messages orgId) ;;
  match choice with
  | None => ret 200
  | Some (message_content, function_call) =>
      reply <-
        (match function_call with
         | Some fc =>
             r <- handleOpenAiFunctionCall fc from orgId ;;
             ret (Some r)
         | None => ret message_content
         end) ;;
      let messages := messages ++ [{| role := "assistant"; content := reply |}] in
      poc_write pocRef (set_chatState messages) ;;
      let finalReply :=
        match reply with
        | Some r => match env_replyField env r with
                    | Some nested => Some nested
                    | None => reply
                    end
        | None => reply
        end in
      sendWhatsAppMessage from finalReply orgId ;;
      saveChatToPoC pocRef "outbound" (whatsappPhoneId orgConfig) from "text"
        finalReply None ;;
      ret 200
  end.

(** Branch B, plain text. *)
Definition handleText (orgId : string) (orgConfig : OrgConfig) (pocRef : nat)
    (from : string) (body : option string) : M nat :=
  let userText := or_else body "" in
  saveChatToPoC pocRef "inbound" from (whatsappPhoneId orgConfig) "text"
    (Some userText) None ;;
  (if negb (Js.startsWith userText "Checkin:") && (10 <? String.length userText) then
     orgRef <- getOrganisationRef orgId ;;
     match orgRef with
     | Some _ =>
         pocSnap <- poc_get pocRef ;;
         let userName := or_else (poc_Name <$> pocSnap) "User" in
         let shown :=
           if decide (30 < String.length userText)
           then Js.slice0 30 userText +:+ "..." else userText in
         createNotification orgRef from
           ("New message from " +:+ userName +:+ ": " +:+ dq +:+ shown +:+ dq)
           "Message" (Some pocRef) None [("messageContent", userText)] ;;
         ret tt
     | None => ret tt
     end
   else ret tt) ;;
  let isCheckin :=
    Js.startsWith userText "Checkin:" &&
    bool_decide (Js.trim (or_else (Js.split ":" userText !! 1) "") = orgId) in
  if isCheckin then
    createCheckinDoc pocRef from orgId ;;
    let checkAck :=
      "Welcome to " +:+ orgName orgConfig +:+ "! Check-in recorded. Please proceed!" in
    sendWhatsAppMessage from (Some checkAck) orgId ;;
    saveChatToPoC pocRef "outbound" (whatsappPhoneId orgConfig) from "text"
      (Some checkAck) None ;;
    ret 200
  else
    pocData <- poc_get pocRef ;;
    let botMode := negb (bool_decide ((pocData ≫= BotMode) = Some false)) in
    if negb botMode then ret 200
    else handleAi orgId orgConfig pocRef from userText pocData.

(** [app.post("/webhook", ...)]: the status code sent back.  An exception
    that reaches the handler's catch becomes a 500. *)
Definition webhookPost (req : Request) : M nat :=
  try_catch
    (if negb (body_object req) then ret 404
     else
       orgId <- getOrganizationFromContext req ;;
       orgConfig <- loadOrganizationConfig orgId ;;
       match orgConfig with
       | None => ret 404
       | Some orgConfig =>
           if negb (billingActive orgConfig) then ret 200
           else
             let contactName := or_else (profile_name req) "Unknown" in
             match message req with
             | None => ret 200
             | Some msg =>
                 match msg_payload msg with
                 | NfmReply rawJson =>
                     handleNfmReply orgId orgConfig contactName (msg_from msg) rawJson
                 | payload =>
                     let from := msg_from msg in
                     pocRef <- getOrCreatePoCByPhone from contactName orgId ;;
                     match payload with
                     | Media kind id mime => handleMedia orgId orgConfig pocRef from kind id mime
                     | Text body => handleText orgId orgConfig pocRef from body
                     | _ => ret 200
                     end
                 end
             end
       end)
    (ret 500).

End Program.

(* ================================================================== *)
(** * Specification vocabulary *)
(* ================================================================== *)

(** A computation keeps a relation between the state it starts from and
    the state it ends in, whether it returns or throws. *)
Definition preserves {A} (R : relation World) (m : M A) : Prop :=
  ∀ w, R w (m w).2.

(** A contact keeps its phone and tenant, and its transcript only grows
    at the end. *)
Definition contact_grows (d d' : PoCDoc) : Prop :=
  Chat d `prefix_of` Chat d' ∧ poc_Phone d' = poc_Phone d ∧ addedBy d' = addedBy d.

(** No contact disappears, and each one present [contact_grows]. *)
Definition stable (w w' : World) : Prop :=
  ∀ i d, PoC w !! i = Some d → ∃ d', PoC w' !! i = Some d' ∧ contact_grows d d'.

(** The token a feedback submission is correlated by, as
    [updateAppointmentFeedback] reads it: the [flow_token] field, or the
    empty string when that field is missing or empty. *)
Definition submissionToken (flowData : FlowData) : string :=
  or_else (flowData !! "flow_token") "".

(** The feedback object built from a submission at clock position [k]. *)
Definition feedbackOf (env : Env) (flowData : FlowData) (k : nat) : Feedback :=
  {| Recommend := parseYesNo (flowData !! "screen_0_Choose_0") "No";
     Comments := or_else (flowData !! "screen_0_Leave_a_1") "";
     Staff_Experience := parseStarRating (flowData !! "screen_1_Staff_Experience_0") "NA";
     Doctor_consultation :=
       parseStarRating (flowData !! "screen_1_Doctor_consultation_1") "NA";
     Overall_Experience :=
       parseStarRating (flowData !! "screen_1_Overall_Experience_2") "NA";
     submittedAt := env_clock env k |}.

(** The text message POSTed for a tenant configuration. *)
Definition text_message (orgConfig : OrgConfig) (to : string) (message : option string)
  : Outbound :=
  {| out_phoneId := whatsappPhoneId orgConfig; out_token := whatsappToken orgConfig;
     out_to := to; out_kind := OutText message |}.

(** The field [key] of the payload is present with a non-empty value. *)
Definition has_value (flowData : FlowData) (key : string) : Prop :=
  ∃ s, flowData !! key = Some s ∧ s ≠ EmptyString.

(** The appointments, tickets and check-ins of every organisation are as
    before. *)
Definition records_kept (w w' : World) : Prop :=
  ∀ k, Appointments <$> Organisation w' !! k = Appointments <$> Organisation w !! k
       ∧ Tickets <$> Organisation w' !! k = Tickets <$> Organisation w !! k
       ∧ Checkins <$> Organisation w' !! k = Checkins <$> Organisation w !! k.

(** The guard of [knowledgeLookupImpl]: the loaded text is empty or one
    of the loader's failure messages. *)
Definition unusableKnowledge (knowledgeText : string) : bool :=
  negb (Js.truthy knowledgeText)
  || Js.startsWith knowledgeText "Error"
  || Js.startsWith knowledgeText "No knowledge".

(** The lines of the text that contain the query, ignoring case. *)
Definition matchingLines (userQuery knowledgeText : string) : list string :=
  List.filter (λ line, Js.includes (Js.toLowerCase line) (Js.toLowerCase userQuery))
    (Js.split (ascii_of_nat 10) knowledgeText).

(** The reply of the whole-text pass counts as nothing found. *)
Definition nothingFound (reply : string) : bool :=
  Js.includes (Js.toLowerCase reply) "no relevant info"
  || Js.includes (Js.toLowerCase reply) "no relevant information"
  || Js.includes (Js.toLowerCase reply) "nothing relevant"
  || (String.length reply <? 4).

(** The trimmed content of a completion, or the empty string. *)
Definition replyOf (c : Completion) : string :=
  match c with
  | LlmChoice (Some content) _ => or_else (Some (Js.trim content)) ""
  | _ => EmptyString
  end.

Definition noInfoMessage (name : string) : string :=
  "No direct info found in the knowledge base. Please ask more about " +:+ name +:+ "!".

(** The characters [generate_from] draws from [chars], starting at
    position [k] of the random source. *)
Fixpoint drawn (env : Env) (chars : string) (length k : nat) : string :=
  match length with
  | 0 => EmptyString
  | S n =>
      match String.get (env_random env k `mod` String.length chars) chars with
      | Some c => String c (drawn env chars n (S k))
      | None => drawn env chars n (S k)
      end
  end.

Definition alphabet : string :=
  "ABCDEFGHIJKLMNOPQRSTUVWXYZabcdefghijklmnopqrstuvwxyz0123456789".

(** A letter or a digit. *)
Definition alphanumeric (c : ascii) : bool :=
  let n := Js.code c in
  ((48 <=? n) && (n <=? 57)) || ((65 <=? n) && (n <=? 90)) || ((97 <=? n) && (n <=? 122)).

(** The condition under which the text branch records a check-in. *)
Definition checkinCommand (userText orgId : string) : bool :=
  Js.startsWith userText "Checkin:" &&
  bool_decide (Js.trim (or_else (Js.split ":" userText !! 1) "") = orgId).

Definition checkinAck (orgConfig : OrgConfig) : string :=
  "Welcome to " +:+ orgName orgConfig +:+ "! Check-in recorded. Please proceed!".

(** The check-in document and its notification, written at clock
    position [k] under the id [checkinId]. *)
Definition checkinDoc (env : Env) (checkinId : string) (pocRef : nat)
    (userPhone orgId : string) (k : nat) : Checkin :=
  {| CheckinID := checkinId; chk_PoCRef := pocRef; chk_phone := userPhone;
     checkinTime := env_clock env k; chk_OrgID := orgId |}.

Definition checkinNotification (env : Env) (checkinId : string) (pocRef : nat)
    (userPhone userName : string) (k : nat) : Notification :=
  {| n_from := userPhone; n_message := userName +:+ " just checked in at the facility";
     n_timestamp := env_clock env k; n_seen := false; n_event := "Checkin";
     n_PoCRef := Some pocRef; n_ref := Some checkinId; n_details := [] |}.

(** [s] has no colon. *)
Definition colon_free (s : string) : Prop := ¬ contains s ":".

(** [seg] is what precedes the first colon of [rest] (all of [rest] when
    it has none). *)
Definition colon_segment (rest seg : string) : Prop :=
  colon_free seg ∧ (rest = seg ∨ ∃ more, rest = seg +:+ ":" +:+ more).

(** The text is a check-in command for the tenant [orgId]: it is the
    keyword followed by [rest], and the part of [rest] before its first
    colon is, white space at both ends apart, the tenant id. *)
Definition checkinText (userText orgId : string) : Prop :=
  ∃ rest seg,
    userText = "Checkin:" +:+ rest ∧ colon_segment rest seg ∧ Js.trim seg = orgId.

(** The appointment stored under [id] in the first organisation. *)
Definition appointmentOf (w : World) (id : string) : option Appointment :=
  Organisation w !! 0 ≫= λ o, Appointments o !! id.

(** The texts sent out, in order. *)
Definition sentTexts (w : World) : list (option string) :=
  omap (λ r, match out_kind r with OutText message => Some message | _ => None end) (sent w).

(** The turns sent to the LLM for a new user text: the stored
    conversation, headed by the system turn when it holds none, followed by
    the user turn. *)
Definition promptTurns (orgConfig : OrgConfig) (earlier : list Turn) (userText : string)
  : list Turn :=
  (if existsb (λ m, bool_decide (role m = "system")) earlier
   then earlier else getSystemMessage orgConfig :: earlier)
  ++ [{| role := "user"; content := Some userText |}].

(** What is sent back for a reply: its [reply] field when it parses to
    an object that has one, the reply itself otherwise. *)
Definition finalReplyOf (env : Env) (reply : option string) : option string :=
  match reply with
  | Some r => match env_replyField env r with Some nested => Some nested | None => reply end
  | None => reply
  end.

(** The transcript entry written by [saveChatToPoC] at clock position [k]. *)
Definition chat_entry (env : Env) (k : nat) (direction from to msgType : string)
    (msgBody extraFields : option string) : ChatMessage :=
  {| Direction := direction; From := from; To := to; Msg_Type := msgType;
     Msg_Body := truncateBody msgBody; chat_Timestamp := env_clock env k;
     Msg_Image := extraFields |}.

(** A run of deliveries, one after the other. *)
Definition deliveries (env : Env) (reqs : list Request) (w : World) : World :=
  fold_left (λ w req, (webhookPost env req w).2) reqs w.

(* ================================================================== *)
(** * Example data *)
(* ================================================================== *)

(** A quiet environment: the LLM gives no choice, every POST succeeds,
    nothing can be fetched, read or parsed. *)
Definition env0 : Env :=
  {| env_clock := λ k, 1000 + k;
     env_random := λ k, k;
     env_llm := λ _ _, LlmNoChoice;
     env_post := λ _, true;
     env_fetchText := λ _, None;
     env_readFile := λ _, None;
     env_media := λ _ _ _ _, None;
     env_parseDate := λ _, None;
     env_age := λ _ _, 0%Z;
     env_parseInt := λ _, None;
     env_JSON_parse := λ _, JsonThrows;
     env_JSON_stringify := λ _, EmptyString;
     env_replyField := λ _, None |}.

Definition acme : OrgDoc :=
  {| OrgID := Some "Acme"; org_Name := Some "Acme Clinic"; OrgName := None;
     WA_Token := Some "secret"; WA_Phone_ID := Some "15550001"; FB_Number := None;
     BillingActive := Some true; Knowledge_URL := None;
     Appointments := ∅; Tickets := ∅; Checkins := ∅; Notifications := [] |}.

Definition other : OrgDoc :=
  {| OrgID := Some "Other"; org_Name := Some "Other Hospital"; OrgName := None;
     WA_Token := Some "secret2"; WA_Phone_ID := Some "15550002"; FB_Number := None;
     BillingActive := Some true; Knowledge_URL := None;
     Appointments := ∅; Tickets := ∅; Checkins := ∅; Notifications := [] |}.

(** An existing contact of Acme. *)
Definition alice (botMode : bool) : PoCDoc :=
  {| poc_Name := "Alice"; poc_Phone := "919000000001"; BotMode := Some botMode;
     addedBy := Some "Acme"; Created_Timestamp := Some 1; lastSeen := Some 2;
     registered := Some false; poc_Gender := None; poc_DOB := None;
     poc_Address := None; poc_Age := None; poc_updatedAt := None;
     chatState := None; Chat := []; Patients := [] |}.

Definition world0 (botMode : bool) : World :=
  {| PoC := [alice botMode]; Organisation := [acme; other]; Doctors := ∅;
     organizationConfigs := ∅; knowledgeCache := ∅; sent := [];
     llm_calls := []; clock_reads := 0; random_draws := 0 |}.

(** A text message from Alice's phone, delivered to the tenant named in
    the header. *)
Definition text_request (orgId body : string) : Request :=
  {| header_organization_id := Some orgId; param_orgId := None; body_object := true;
     metadata_phone_number_id := None; value_phone_number_id := None;
     context_organization_id := None; metadata_organization_id := None;
     profile_name := Some "Alice";
     message := Some {| msg_from := "919000000001"; msg_payload := Text (Some body) |} |}.

(** Acme with one appointment booked under flow token 123456. *)
Definition booked : Appointment :=
  {| AppointmentID := "APT-00000001"; apt_PoCRef := 0;
     apt_userPhone := "919000000001"; apt_doctorId := "dr1";
     apt_doctorName := Some "Dr. Rao"; apt_specialty := "Cardiologist";
     apt_timeSlot := "10:00"; apt_patientName := Some "Alice"; apt_patientAge := "30";
     apt_patientGender := "Female"; apt_reason := "checkup"; apt_createdAt := 3;
     apt_status := "Draft"; apt_date := "2025-01-01"; apt_dateTimestamp := None;
     FlowToken := "123456"; apt_OrgID := "Acme"; feedback := None |}.

Definition acme_booked : OrgDoc :=
  set_Appointments {[ "APT-00000001" := booked ]} acme.

Definition world1 : World :=
  set_Organisation [acme_booked; other] (world0 true).

(** A feedback form submitted with the given flow token. *)
Definition feedback_form (flow_token : string) : FlowData :=
  <["flow_token" := flow_token]>
    (<["screen_0_Choose_0" := "0_Yes"]>
       {[ "screen_1_Overall_Experience_2" := "2_Good (4/5)" ]}).

(** The environment [env0], except that every form reply parses to
    [flowData]. *)
Definition env_forms (flowData : FlowData) : Env :=
  {| env_clock := env_clock env0; env_random := env_random env0;
     env_llm := env_llm env0; env_post := env_post env0;
     env_fetchText := env_fetchText env0; env_readFile := env_readFile env0;
     env_media := env_media env0; env_parseDate := env_parseDate env0;
     env_age := env_age env0; env_parseInt := env_parseInt env0;
     env_JSON_parse := λ _, JsonObject flowData;
     env_JSON_stringify := env_JSON_stringify env0;
     env_replyField := env_replyField env0 |}.

(** A form reply from Alice's phone. *)
Definition nfm_request (orgId rawJson : string) : Request :=
  {| header_organization_id := Some orgId; param_orgId := None; body_object := true;
     metadata_phone_number_id := None; value_phone_number_id := None;
     context_organization_id := None; metadata_organization_id := None;
     profile_name := Some "Alice";
     message := Some {| msg_from := "919000000001"; msg_payload := NfmReply rawJson |} |}.

(** A payload with the Full Name key present but empty, and a feedback
    marker. *)
Definition ambiguous_form : FlowData :=
  <["screen_0_Full_Name_0" := EmptyString]> {[ "screen_0_Choose_0" := "0_Yes" ]}.

(** The configuration [loadOrganizationConfig] builds for Acme. *)
Definition acme_config : OrgConfig :=
  {| cfg_orgId := "Acme"; orgName := "Acme Clinic"; whatsappToken := "secret";
     whatsappPhoneId := "15550001"; billingActive := true; knowledgeUrl := EmptyString;
     orgRef := 0 |}.

(** The environment [env0], except that the LLM answers every request
    with the content [summary]. *)
Definition env_summary (summary : string) : Env :=
  {| env_clock := env_clock env0; env_random := env_random env0;
     env_llm := λ _ _, LlmChoice (Some summary) None; env_post := env_post env0;
     env_fetchText := env_fetchText env0; env_readFile := env_readFile env0;
     env_media := env_media env0; env_parseDate := env_parseDate env0;
     env_age := env_age env0; env_parseInt := env_parseInt env0;
     env_JSON_parse := env_JSON_parse env0;
     env_JSON_stringify := env_JSON_stringify env0;
     env_replyField := env_replyField env0 |}.

(** Two knowledge texts with the same visiting-hours line; the second
    begins with the words the loader's failure message begins with. *)
Definition plain_text : string :=
  "Parking is free." +:+ nl +:+ "Visiting hours: 9am-5pm".

Definition guarded_text : string :=
  "No knowledge is wasted here." +:+ nl +:+ "Visiting hours: 9am-5pm".

(** Acme's configuration and knowledge text already loaded. *)
Definition world_kb (knowledgeText : string) : World :=
  set_knowledgeCache {[ "Acme" := knowledgeText ]}
    (set_organizationConfigs {[ "Acme" := acme_config ]} (world0 true)).

(** Three doctors: two of Acme, whose specialty strings differ from the
    plain name in case, white space, quotes and spelling, and one of
    another tenant. *)
Definition dr_rao : Doctor :=
  {| dr_Name := Some "Dr. Rao"; dr_OrgID := Some "Acme";
     Specialization := Some ["  CARDIOLOGYST  "] |}.

Definition dr_lee : Doctor :=
  {| dr_Name := Some "Dr. Lee"; dr_OrgID := Some "Acme";
     Specialization := Some ["'Dermatologist'"] |}.

Definition dr_kim : Doctor :=
  {| dr_Name := Some "Dr. Kim"; dr_OrgID := Some "Other";
     Specialization := Some ["Cardiologist"] |}.

Definition world_doctors : World :=
  {| PoC := []; Organisation := [acme; other];
     Doctors := <["dr1" := dr_rao]> (<["dr2" := dr_lee]> {[ "dr3" := dr_kim ]});
     organizationConfigs := ∅; knowledgeCache := ∅; sent := [];
     llm_calls := []; clock_reads := 0; random_draws := 0 |}.

(** A booking form that carries every field but the flow token, and a
    feedback form without a flow token. *)
Definition untokened_booking : FlowData :=
  <["doctorId" := "dr1"]>
    (<["date" := "2025-01-01"]>
       (<["time" := "10:00"]>
          (<["reason" := "checkup"]>
             (<["name" := "Alice"]>
                (<["age" := "30"]>
                   (<["gender" := "Female"]> {[ "specialty" := "Cardiologist" ]})))))).

Definition untokened_feedback : FlowData :=
  <["screen_0_Choose_0" := "0_Yes"]>
    {[ "screen_1_Overall_Experience_2" := "2_Good (4/5)" ]}.

(** [world0] with the doctor the booking names. *)
Definition world_dr : World :=
  {| PoC := [alice true]; Organisation := [acme; other];
     Doctors := {[ "dr1" := dr_rao ]};
     organizationConfigs := ∅; knowledgeCache := ∅; sent := [];
     llm_calls := []; clock_reads := 0; random_draws := 0 |}.

(** A registration form whose Full Name field was left empty. *)
Definition nameless_registration : FlowData :=
  <["screen_0_Full_Name_0" := EmptyString]>
    (<["screen_0_Gender_1" := "0_Male"]>
       (<["screen_0_DOB_2" := "1990-01-01"]> {[ "screen_0_Address_3" := "12 High St" ]})).

(** A body of 350 characters. *)
Definition long_body : string := string_of_list_ascii (replicate 350 "a"%char).

(* ================================================================== *)
(** * Theorems *)
(* ================================================================== *)

(** ** Loops *)

Lemma for_loop_inv {St} (P : nat → St → Prop) (body : nat → St → option St) n :
∀ lo s,
  P lo s →
  (∀ i t, lo ≤ i < lo + n → P i t → ∃ t', body i t = Some t' ∧ P (S i) t') →
  ∃ s', Js.for_loop lo n body s = Some s' ∧ P (lo + n) s'.
Proof.
induction n as [|n IH]; intros lo s Hs Hstep; simpl.
- exists s. rewrite Nat.add_0_r. done.
- destruct (Hstep lo s) as (t & Hb & Ht); [lia | done |].
  rewrite Hb. simpl.
  destruct (IH (S lo) t Ht) as (s' & Hrun & Hs').
  + intros i u Hi Hu. apply Hstep; [lia | done].
  + exists s'. split; [done|]. by replace (lo + S n) with (S lo + n) by lia.
Qed.

Section LevTable.
Variables a b : string.
Local Abbreviation T := (lev_table a b).

Lemma lev_table_0_r i : T i 0 = i.
Proof. by destruct i. Qed.

Lemma lev_table_0_l j : T 0 j = j.
Proof. done. Qed.

Lemma lev_table_S_S i j :
  T (S i) (S j) =
  min3 (T i (S j) + 1) (T (S i) j + 1)
       (T i j + (if decide (String.get i a = String.get j b) then 0 else 1)).
Proof. done. Qed.

Lemma lev_table_up_row i j : T (S i) j ≤ T i j + 1.
Proof.
  destruct j as [|j]; [rewrite !lev_table_0_r; lia|].
  rewrite lev_table_S_S. unfold min3. lia.
Qed.

Lemma lev_table_up_col i j : T i (S j) ≤ T i j + 1.
Proof.
  destruct i as [|i]; [simpl; lia|].
  rewrite lev_table_S_S. unfold min3. lia.
Qed.

Lemma lev_table_low_col i : ∀ j, T i j ≤ T i (S j) + 1.
Proof.
  induction i as [|i IH]; intros j; [simpl; lia|].
  rewrite lev_table_S_S. unfold min3.
  pose proof (lev_table_up_row i j). pose proof (IH j).
  destruct (decide _); lia.
Qed.

Lemma lev_table_low_row i j : T i j ≤ T (S i) j + 1.
Proof.
  induction j as [|j IH]; [rewrite !lev_table_0_r; lia|].
  rewrite lev_table_S_S. unfold min3.
  pose proof (lev_table_up_col i j).
  destruct (decide _); lia.
Qed.

Lemma lev_table_diag_eq i j :
  String.get i a = String.get j b → T (S i) (S j) = T i j.
Proof.
  intros Heq. rewrite lev_table_S_S. rewrite decide_True by done.
  pose proof (lev_table_low_col i j). pose proof (lev_table_low_row i j).
  unfold min3. lia.
Qed.

Lemma lev_table_diag_ne i j :
  String.get i a ≠ String.get j b →
  T (S i) (S j) = min3 (T i (S j) + 1) (T (S i) j + 1) (T i j + 1).
Proof. intros Hne. rewrite lev_table_S_S. by rewrite decide_False. Qed.

Local Abbreviation trow := (table_row a b).
Local Abbreviation shape := (table_shape a b).

Lemma length_trow r w : length (trow r w) = w.
Proof. unfold table_row. by rewrite !length_fmap, length_seq. Qed.

Lemma length_shape w n : length (shape w n) = n.
Proof. unfold table_shape. by rewrite length_fmap, length_seq. Qed.

Lemma trow_get r w c : c < w → Js.arr_get (trow r w) c = Some (T r c).
Proof.
  intros Hc. unfold Js.arr_get, table_row.
  rewrite !list_lookup_fmap, lookup_seq_lt by done. done.
Qed.

Lemma shape_get w n r : r < n → Js.arr_get (shape w n) r = Some (trow r (w r)).
Proof.
  intros Hr. unfold Js.arr_get, table_shape.
  rewrite list_lookup_fmap, lookup_seq_lt by done. done.
Qed.

Lemma cell_shape w n r c : r < n → c < w r → cell (shape w n) r c = Some (T r c).
Proof.
  intros Hr Hc. unfold cell. rewrite shape_get by done. simpl.
  by apply trow_get.
Qed.

Lemma trow_snoc r w v : v = T r w → Js.arr_set (trow r w) w v = trow r (S w).
Proof.
  intros ->. unfold Js.arr_set. rewrite length_trow.
  rewrite decide_False by lia. rewrite Nat.sub_diag. simpl.
  unfold table_row. rewrite seq_S. by rewrite !fmap_app.
Qed.

Lemma shape_snoc w n row :
  row = trow n (w n) → Js.arr_set (shape w n) n row = shape w (S n).
Proof.
  intros ->. unfold Js.arr_set. rewrite length_shape.
  rewrite decide_False by lia. rewrite Nat.sub_diag. simpl.
  unfold table_shape. rewrite seq_S. by rewrite fmap_app.
Qed.

Lemma shape_ext w w' n : (∀ r, r < n → w r = w' r) → shape w n = shape w' n.
Proof.
  intros Hw. unfold table_shape. apply list_eq. intros k.
  rewrite !list_lookup_fmap.
  destruct (decide (k < n)) as [Hk|Hk].
  - rewrite lookup_seq_lt by done. simpl. by rewrite Hw.
  - by rewrite lookup_seq_ge by lia.
Qed.

Lemma shape_insert w w' n r row :
  r < n → row = trow r (w' r) → (∀ k, k ≠ r → w' k = w k) →
  Js.arr_set (shape w n) r row = shape w' n.
Proof.
  intros Hr -> Hw. unfold Js.arr_set. rewrite length_shape.
  rewrite decide_True by done.
  apply list_eq. intros k.
  destruct (decide (k = r)) as [->|Hk].
  - rewrite list_lookup_insert_eq by (by rewrite length_shape).
    unfold table_shape. rewrite list_lookup_fmap, lookup_seq_lt by done. done.
  - rewrite list_lookup_insert_ne by done.
    unfold table_shape. rewrite !list_lookup_fmap.
    destruct (decide (k < n)).
    + rewrite lookup_seq_lt by done. simpl. by rewrite Hw.
    + by rewrite lookup_seq_ge by lia.
Qed.

Lemma string_length_pos (s : string) : s ≠ EmptyString → 0 < String.length s.
Proof. destruct s; [done | simpl; lia]. Qed.

Lemma levenshteinDistance_table :
  levenshteinDistance a b = Some (editDistance a b).
Proof.
  unfold levenshteinDistance, editDistance.
  destruct (decide (a = EmptyString)) as [Ha|Ha].
  { replace (String.length a) with 0 by (by rewrite Ha). done. }
  destruct (decide (b = EmptyString)) as [Hb|Hb].
  { replace (String.length b) with 0 by (by rewrite Hb).
    by rewrite lev_table_0_r. }
  set (ia := String.length a). set (ib := String.length b).
  assert (0 < ib) as Hib by (by apply string_length_pos).
  (* first loop: one-cell rows *)
  destruct (for_loop_inv (λ i m, m = shape (λ _, 1) i)
              (λ i matrix, Some (Js.arr_set matrix i [Some i])) (S ia) 0 [])
    as (m1 & -> & Hm1); [done| |].
  { intros i t _ ->. eexists; split; [done|].
    apply shape_snoc. unfold table_row. simpl. by rewrite lev_table_0_r. }
  rewrite Nat.add_0_l in Hm1. subst m1. cbn [mbind option_bind].
  (* second loop: the first row *)
  destruct (for_loop_inv
              (λ j m, m = shape (λ r, if decide (r = 0) then Nat.max 1 j else 1) (S ia))
              (λ j matrix, row0 ← Js.arr_get matrix 0;
                           Some (Js.arr_set matrix 0 (Js.arr_set row0 j j)))
              (S ib) 0 (shape (λ _, 1) (S ia)))
    as (m2 & -> & Hm2).
  { apply shape_ext. intros r _. by destruct (decide (r = 0)). }
  { intros j t _ ->. rewrite shape_get by lia. cbn [mbind option_bind].
    eexists; split; [done|].
    apply shape_insert; [lia | | intros k Hk; by rewrite !decide_False].
    rewrite !decide_True by done.
    destruct j as [|j]; [done|].
    replace (Nat.max 1 (S j)) with (S j) by lia.
    replace (Nat.max 1 (S (S j))) with (S (S j)) by lia.
    by apply trow_snoc. }
  rewrite Nat.add_0_l in Hm2. subst m2. cbn [mbind option_bind].
  (* third loop: the remaining rows, cell by cell *)
  destruct (for_loop_inv
              (λ i m, m = shape (λ r, if decide (r < i) then S ib else 1) (S ia))
              (λ i matrix,
                 Js.for_loop 1 ib
                   (λ j matrix,
                      v ← (if decide (Js.charAt a (i - 1) = Js.charAt b (j - 1))
                           then cell matrix (i - 1) (j - 1)
                           else x ← cell matrix (i - 1) j;
                                y ← cell matrix i (j - 1);
                                z ← cell matrix (i - 1) (j - 1);
                                Some (min3 (x + 1) (y + 1) (z + 1)));
                      row ← Js.arr_get matrix i;
                      Some (Js.arr_set matrix i (Js.arr_set row j v))) matrix)
              ia 1
              (shape (λ r, if decide (r = 0) then Nat.max 1 (S ib) else 1) (S ia)))
    as (m3 & -> & Hm3).
  { apply shape_ext. intros r _.
    destruct (decide (r = 0)), (decide (r < 1)); lia. }
  { intros i t Hi ->.
    destruct (for_loop_inv
                (λ j m, m = shape (λ r, if decide (r < i) then S ib
                                        else if decide (r = i) then j else 1) (S ia))
                (λ j matrix,
                   v ← (if decide (Js.charAt a (i - 1) = Js.charAt b (j - 1))
                        then cell matrix (i - 1) (j - 1)
                        else x ← cell matrix (i - 1) j;
                             y ← cell matrix i (j - 1);
                             z ← cell matrix (i - 1) (j - 1);
                             Some (min3 (x + 1) (y + 1) (z + 1)));
                   row ← Js.arr_get matrix i;
                   Some (Js.arr_set matrix i (Js.arr_set row j v)))
                ib 1
                (shape (λ r, if decide (r < i) then S ib else 1) (S ia)))
      as (m & -> & Hm).
    { apply shape_ext. intros r _.
      destruct (decide (r < i)), (decide (r = i)); lia. }
    { intros j t Hj ->.
      destruct i as [|i]; [lia|]. destruct j as [|j]; [lia|].
      replace (S i - 1) with i by lia. replace (S j - 1) with j by lia.
      set (w := λ r, if decide (r < S i) then S ib
                     else if decide (r = S i) then S j else 1).
      assert (w i = S ib) as Hwi by (unfold w; rewrite decide_True; lia).
      assert (w (S i) = S j) as HwSi
          by (unfold w; rewrite decide_False by lia; rewrite decide_True; lia).
      assert (∃ v, (if decide (Js.charAt a i = Js.charAt b j)
                    then cell (shape w (S ia)) i j
                    else x ← cell (shape w (S ia)) i (S j);
                         y ← cell (shape w (S ia)) (S i) j;
                         z ← cell (shape w (S ia)) i j;
                         Some (min3 (x + 1) (y + 1) (z + 1))) = Some v
                   ∧ v = T (S i) (S j)) as (v & -> & ->).
      { destruct (decide _) as [Hc|Hc].
        - rewrite cell_shape by lia. eexists; split; [done|].
          symmetry. by apply lev_table_diag_eq.
        - rewrite !cell_shape by lia. cbn [mbind option_bind].
          eexists; split; [done|].
          symmetry. by apply lev_table_diag_ne. }
      cbn [mbind option_bind]. rewrite shape_get by lia.
      cbn [mbind option_bind]. eexists; split; [done|].
      apply shape_insert; [lia | |].
      - rewrite HwSi. rewrite decide_False by lia. rewrite decide_True by done.
        by apply trow_snoc.
      - intros k Hk. unfold w.
        destruct (decide (k < S i)); [done|]. by rewrite !decide_False. }
    exists (shape (λ r, if decide (r < i) then S ib
                        else if decide (r = i) then 1 + ib else 1) (S ia)).
    split; [by rewrite Hm|].
    apply shape_ext. intros r _.
    destruct (decide (r < i)), (decide (r = i)), (decide (r < S i)); lia. }
  subst m3. cbn [mbind option_bind].
  rewrite cell_shape; [done | lia |].
  rewrite decide_True; lia.
Qed.
End LevTable.

(** ** Strings *)

Lemma append_cons (c : ascii) (p r : string) :
  String c p +:+ r = String c (p +:+ r).
Proof. reflexivity. Qed.

Lemma append_nil_l (r : string) : EmptyString +:+ r = r.
Proof. reflexivity. Qed.

Lemma prefix_spec (p s : string) :
  String.prefix p s = true ↔ ∃ r, s = p +:+ r.
Proof.
  revert s. induction p as [|c p IH]; intros s.
  - split; [intros _; by exists s|]. intros _. by destruct s.
  - destruct s as [|c' s]; simpl.
    + split; [done | intros [r Hr]; done].
    + destruct (ascii_dec c c') as [->|Hne].
      * rewrite IH. split; intros [r Hr]; exists r;
          rewrite append_cons in *; congruence.
      * split; [done|]. intros [r Hr]. rewrite append_cons in Hr. congruence.
Qed.

Lemma includes_nil (t : string) :
  Js.includes EmptyString t = String.prefix t EmptyString || false.
Proof. reflexivity. Qed.

Lemma includes_cons (c : ascii) (s t : string) :
  Js.includes (String c s) t = String.prefix t (String c s) || Js.includes s t.
Proof. reflexivity. Qed.

Lemma includes_contains (s t : string) :
  Js.includes s t = true ↔ contains s t.
Proof.
  induction s as [|c s IH]; [rewrite includes_nil | rewrite includes_cons].
  - rewrite orb_false_r, prefix_spec. split.
    + intros [r Hr]. exists EmptyString, r. done.
    + intros (before & after & H). destruct before; [|done].
      rewrite append_nil_l in H. by exists after.
  - rewrite orb_true_iff, prefix_spec, IH. split.
    + intros [[r Hr] | (before & after & H)].
      * exists EmptyString, r. done.
      * exists (String c before), after. rewrite append_cons. by rewrite H.
    + intros (before & after & H). destruct before as [|c' before].
      * left. by exists after.
      * right. rewrite append_cons in H. exists before, after. congruence.
Qed.

Lemma includes_not_contains (s t : string) :
  Js.includes s t = false → ¬ contains s t.
Proof. intros H Hc. apply includes_contains in Hc. congruence. Qed.

(** ** Fuzzy matcher *)

Lemma specialtyMatches_spec (target spec : string) :
  ∃ m, specialtyMatches target spec = Some m ∧ (m = true ↔ matchesSpec target spec).
Proof.
  unfold specialtyMatches, matchesSpec.
  rewrite levenshteinDistance_table. simpl.
  eexists; split; [done|].
  rewrite !orb_true_iff, Nat.leb_le, !includes_contains. done.
Qed.

Lemma array_some_spec (target : string) (arr : list string) :
  ∃ m, array_some (specialtyMatches target) arr = Some m
       ∧ (m = true ↔ ∃ spec, spec ∈ arr ∧ matchesSpec target spec).
Proof.
  induction arr as [|spec arr (m & Hm & IH)]; simpl.
  - exists false. split; [done|]. split; [done|]. intros (? & H & _). by apply elem_of_nil in H.
  - destruct (specialtyMatches_spec target spec) as (hit & -> & Hhit). simpl.
    destruct hit.
    + exists true. split; [done|]. split; [|done]. intros _.
      exists spec. split; [left | by apply Hhit].
    + exists m. split; [done|]. rewrite IH. split.
      * intros (s & Hs & Hms). exists s. split; [by right | done].
      * intros (s & Hs & Hms). apply elem_of_cons in Hs as [->|Hs].
        -- apply Hhit in Hms. done.
        -- by exists s.
Qed.

Lemma matchDoctors_spec (target : string) (docs : list Doctor) :
  ∃ l, matchDoctors target docs = Some l
       ∧ ∀ d, d ∈ l ↔ d ∈ docs ∧ ∃ arr spec,
              Specialization d = Some arr ∧ spec ∈ arr ∧ matchesSpec target spec.
Proof.
  induction docs as [|data docs (l & Hl & IH)]; simpl.
  - exists []. split; [done|]. intros d. split; [intros H; by apply elem_of_nil in H|].
    intros [H _]. by apply elem_of_nil in H.
  - destruct (Specialization data) as [arr|] eqn:Harr.
    + destruct (array_some_spec target arr) as (m & -> & Hm). simpl.
      rewrite Hl. simpl. eexists; split; [done|]. intros d.
      destruct m.
      * rewrite elem_of_cons, IH, elem_of_cons. split.
        -- intros [->|[Hd Hex]]; [|by split; [right|]].
           split; [by left|]. destruct Hm as [Hm _].
           destruct (Hm eq_refl) as (spec & Hs & Hms). by exists arr, spec.
        -- intros [[->|Hd] Hex]; [by left | right; by split].
      * rewrite IH, elem_of_cons. split.
        -- intros [Hd Hex]. by split; [right|].
        -- intros [[->|Hd] Hex]; [|by split].
           destruct Hex as (arr' & spec & Harr' & Hs & Hms).
           rewrite Harr in Harr'. injection Harr' as <-.
           destruct Hm as [_ Hm]. discriminate Hm. by exists spec.
    + exists l. split; [done|]. intros d. rewrite IH, elem_of_cons. split.
      * intros [Hd Hex]. by split; [right|].
      * intros [[->|Hd] Hex]; [|by split].
        destruct Hex as (arr' & spec & Harr' & _). congruence.
Qed.

Lemma dropTrailingQuote_snoc (body : string) (q : ascii) :
  Js.isQuote q = true → Js.dropTrailingQuote (body +:+ String q EmptyString) = body.
Proof.
  intros Hq. induction body as [|c body IH].
  - rewrite append_nil_l. simpl. by rewrite Hq.
  - rewrite append_cons. destruct body as [|c' body].
    + rewrite append_nil_l in *. cbn [Js.dropTrailingQuote] in *. by rewrite IH.
    + rewrite append_cons in *. cbn [Js.dropTrailingQuote] in *. by rewrite IH.
Qed.

(** C3. [levenshteinDistance] computes the classic edit-distance table;
    on the three example pairs it gives 0, at most 3 (a match) and more
    than 3 with no containment (no match).  The doctor's specialty string
    is compared after [toLowerCase], [trim] and the removal of a quote
    character at either end, the classified specialty being brought into
    the same form by [findDoctorsByFuzzySpecialty]: strings that are more
    than 3 edits apart as written, and contain one another in neither
    direction, match once they are in that form.  A specialty string
    matches exactly when, in that form, its edit distance to the target is
    at most 3 or one contains the other, and a doctor of the tenant is
    returned exactly when one of their specialty strings matches. *)
Theorem C3_fuzzy_specialty_matching :
  (∀ a b, levenshteinDistance a b = Some (editDistance a b))
  ∧ levenshteinDistance "Cardiologist" "Cardiologist" = Some 0
  ∧ (∃ d, levenshteinDistance "Cardiologist" "Cardiologyst" = Some d ∧ d ≤ 3
          ∧ specialtyMatches (normaliseSpecialty "Cardiologyst") "Cardiologist" = Some true)
  ∧ (∃ d, levenshteinDistance "Dermatologist" "Neurologist" = Some d ∧ 3 < d
          ∧ ¬ contains "Dermatologist" "Neurologist"
          ∧ ¬ contains "Neurologist" "Dermatologist"
          ∧ specialtyMatches (normaliseSpecialty "Neurologist") "Dermatologist" = Some false)
  ∧ (∀ q1 q2 body,
       Js.isQuote q1 = true → Js.isQuote q2 = true →
       Js.stripQuotes (String q1 (body +:+ String q2 EmptyString)) = body)
  ∧ normaliseSpecialty "  'CardioLogist'  " = "cardiologist"
  ∧ (∃ d, levenshteinDistance "  CARDIOLOGYST  " "cardiologist" = Some d ∧ 3 < d
          ∧ ¬ contains "  CARDIOLOGYST  " "cardiologist"
          ∧ ¬ contains "cardiologist" "  CARDIOLOGYST  "
          ∧ specialtyMatches "cardiologist" "  CARDIOLOGYST  " = Some true)
  ∧ (∃ d, levenshteinDistance "'cardyologyst'" "cardiologist" = Some d ∧ 3 < d
          ∧ ¬ contains "'cardyologyst'" "cardiologist"
          ∧ ¬ contains "cardiologist" "'cardyologyst'"
          ∧ specialtyMatches "cardiologist" "'cardyologyst'" = Some true)
  ∧ (∀ target spec,
       ∃ m, specialtyMatches target spec = Some m
            ∧ (m = true ↔
               editDistance (Js.stripQuotes (Js.trim (Js.toLowerCase spec))) target ≤ 3
               ∨ contains (Js.stripQuotes (Js.trim (Js.toLowerCase spec))) target
               ∨ contains target (Js.stripQuotes (Js.trim (Js.toLowerCase spec)))))
  ∧ (∀ specialty orgId w,
       ∃ l, findDoctorsByFuzzySpecialty specialty orgId w = (Some l, w)
            ∧ ∀ d, d ∈ l ↔
                   (∃ id, Doctors w !! id = Some d) ∧ dr_OrgID d = Some orgId
                   ∧ ∃ arr spec, Specialization d = Some arr ∧ spec ∈ arr
                        ∧ matchesSpec
                            (Js.stripQuotes (Js.trim (Js.toLowerCase specialty))) spec)
  ∧ findDoctorsByFuzzySpecialty " 'Cardiologist' " "Acme" world_doctors
    = (Some [dr_rao], world_doctors).
Proof.
  split; [apply levenshteinDistance_table|].
  split; [by vm_compute|].
  split. { exists 1. split; [by vm_compute|]. split; [lia | by vm_compute]. }
  split.
  { exists 5. split; [by vm_compute|]. split; [lia|].
    split; [by apply includes_not_contains|].
    split; [by apply includes_not_contains | by vm_compute]. }
  split.
  { intros q1 q2 body Hq1 Hq2. cbn [Js.stripQuotes]. rewrite Hq1.
    by apply dropTrailingQuote_snoc. }
  split; [by vm_compute|].
  split.
  { exists 16. split; [by vm_compute|]. split; [lia|].
    split; [by apply includes_not_contains|].
    split; [by apply includes_not_contains | by vm_compute]. }
  split.
  { exists 4. split; [by vm_compute|]. split; [lia|].
    split; [by apply includes_not_contains|].
    split; [by apply includes_not_contains | by vm_compute]. }
  split; [intros; apply specialtyMatches_spec|].
  split; [|by vm_compute].
  intros specialty orgId w. unfold findDoctorsByFuzzySpecialty.
  unfold bind, get_world, ret.
  set (docs := List.filter _ _).
  assert (∀ d, d ∈ docs ↔ (∃ id, Doctors w !! id = Some d) ∧ dr_OrgID d = Some orgId)
    as Hdocs.
  { intros d. unfold docs, docs_by_id.
    rewrite list_elem_of_In, filter_In, <- list_elem_of_In.
    rewrite bool_decide_eq_true, list_elem_of_fmap.
    setoid_rewrite merge_sort_Permutation. split.
    - intros [((id & d') & -> & Hin) Horg]. split; [|done].
      exists id. by apply elem_of_map_to_list in Hin.
    - intros [(id & Hid) Horg]. split; [|done].
      exists (id, d). split; [done|]. by apply elem_of_map_to_list. }
  destruct (matchDoctors_spec (normaliseSpecialty specialty) docs) as (l & Hl & Hspec).
  unfold normaliseSpecialty in Hl, Hspec.
  destruct docs as [|d0 docs'] eqn:Hd.
  - exists []. split; [done|]. intros d. split; [intros H; by apply elem_of_nil in H|].
    intros (Hid & Horg & _). assert (d ∈ @nil Doctor) as H by (apply Hdocs; done).
    by apply elem_of_nil in H.
  - exists l. unfold normaliseSpecialty. rewrite Hl. split; [done|].
    intros d. rewrite Hspec, Hdocs. tauto.
Qed.

(** ** Label decoders *)

Lemma split_cons_sep (sep : ascii) (s : string) :
  Js.split sep (String sep s) = EmptyString :: Js.split sep s.
Proof. simpl. by rewrite Ascii.eqb_refl. Qed.

Lemma split_nonempty (sep : ascii) (s : string) : Js.split sep s ≠ [].
Proof.
  induction s as [|c s IH]; simpl; [done|].
  destruct (Ascii.eqb c sep); [done|]. by destruct (Js.split sep s).
Qed.

Lemma split_cons_other (sep c : ascii) (s : string) :
  c ≠ sep →
  ∃ h t, Js.split sep s = h :: t ∧ Js.split sep (String c s) = String c h :: t.
Proof.
  intros Hc. simpl. apply Ascii.eqb_neq in Hc. rewrite Hc.
  destruct (Js.split sep s) as [|h t] eqn:Hs; [by apply split_nonempty in Hs|].
  by exists h, t.
Qed.

Lemma underscore_free_nil : underscore_free EmptyString.
Proof. intros (before & after & H). by destruct before. Qed.

Lemma underscore_free_cons (c : ascii) (s : string) :
  underscore_free (String c s) ↔ c ≠ "_"%char ∧ underscore_free s.
Proof.
  unfold underscore_free. split.
  - intros Hn. split.
    + intros ->. apply Hn. by exists EmptyString, s.
    + intros (before & after & ->). apply Hn.
      exists (String c before), after. by rewrite append_cons.
  - intros [Hc Hs] (before & after & H). destruct before as [|c' before].
    + rewrite append_nil_l, append_cons in H. congruence.
    + rewrite append_cons in H. injection H as -> ->. apply Hs. by exists before, after.
Qed.

Lemma split_underscore_free (v : string) :
  underscore_free v → Js.split "_" v = [v].
Proof.
  induction v as [|c v IH]; [done|].
  rewrite underscore_free_cons. intros [Hc Hv].
  destruct (split_cons_other "_" c v Hc) as (h & t & Hs & ->).
  rewrite IH in Hs by done. by injection Hs as <- <-.
Qed.

Lemma split_after_index (index value : string) :
  underscore_free index →
  Js.split "_" (index +:+ "_" +:+ value) = index :: Js.split "_" value.
Proof.
  induction index as [|c index IH].
  - intros _. rewrite append_nil_l, append_cons, append_nil_l. apply split_cons_sep.
  - rewrite underscore_free_cons. intros [Hc Hi]. rewrite append_cons.
    destruct (split_cons_other "_" c (index +:+ "_" +:+ value) Hc) as (h & t & Hs & ->).
    rewrite IH in Hs by done. by injection Hs as <- <-.
Qed.

Lemma split_first_segment (value : string) :
  ∃ seg t, Js.split "_" value = seg :: t ∧ first_segment value seg.
Proof.
  induction value as [|c value (seg & t & Hs & Hfree & Hval)].
  - exists EmptyString, []. split; [done|]. split; [apply underscore_free_nil | by left].
  - destruct (decide (c = "_"%char)) as [->|Hc].
    + rewrite split_cons_sep. exists EmptyString, (Js.split "_" value).
      split; [done|]. split; [apply underscore_free_nil|]. right. by exists value.
    + destruct (split_cons_other "_" c value Hc) as (h & t' & Hs' & ->).
      rewrite Hs in Hs'. injection Hs' as <- <-.
      exists (String c seg), t. split; [done|].
      split; [by apply underscore_free_cons|].
      destruct Hval as [->|[rest ->]]; [by left|]. right. exists rest.
      by rewrite append_cons.
Qed.

Lemma truthy_labelled (index value : string) :
  Js.truthy (index +:+ "_" +:+ value) = true.
Proof. by destruct index. Qed.

(** C9, as stated, fails: of a value that contains an underscore only the
    part before that underscore comes back. *)
Lemma C9_counterexample :
  parseNumberFromLabel (Some ("1" +:+ "_" +:+ "Very_High")) "Unknown" ≠ "Very_High"
  ∧ parseYesNo (Some ("1" +:+ "_" +:+ "Very_High")) "No" ≠ "Very_High".
Proof. split; by vm_compute. Qed.

(** C9, amended. For a field ["<index>_<value>"] whose index holds no
    underscore, both decoders return the part of <value> before its first
    underscore, hence all of <value> when it holds none; a non-empty field
    with no underscore comes back unchanged; a missing or empty field
    gives the fallback. *)
Theorem C9_label_decoding (fallback : string) :
  (∀ index value,
     underscore_free index →
     ∃ seg, parseNumberFromLabel (Some (index +:+ "_" +:+ value)) fallback = seg
            ∧ parseYesNo (Some (index +:+ "_" +:+ value)) fallback = seg
            ∧ first_segment value seg)
  ∧ (∀ index value,
       underscore_free index → underscore_free value →
       parseNumberFromLabel (Some (index +:+ "_" +:+ value)) fallback = value
       ∧ parseYesNo (Some (index +:+ "_" +:+ value)) fallback = value)
  ∧ (∀ v, v ≠ EmptyString → underscore_free v →
          parseNumberFromLabel (Some v) fallback = v ∧ parseYesNo (Some v) fallback = v)
  ∧ parseNumberFromLabel None fallback = fallback
  ∧ parseYesNo None fallback = fallback
  ∧ parseNumberFromLabel (Some EmptyString) fallback = fallback
  ∧ parseYesNo (Some EmptyString) fallback = fallback.
Proof.
  assert (∀ index value,
            underscore_free index →
            ∃ seg, parseNumberFromLabel (Some (index +:+ "_" +:+ value)) fallback = seg
                   ∧ first_segment value seg) as Hmain.
  { intros index value Hi. unfold parseNumberFromLabel.
    rewrite truthy_labelled. simpl negb. cbv iota.
    rewrite split_after_index by done.
    destruct (split_first_segment value) as (seg & t & -> & Hseg). by exists seg. }
  split; [|split; [|split]].
  - intros index value Hi. destruct (Hmain index value Hi) as (seg & Hp & Hseg).
    exists seg. split; [exact Hp|]. split; [exact Hp | exact Hseg].
  - intros index value Hi Hv.
    assert (parseNumberFromLabel (Some (index +:+ "_" +:+ value)) fallback = value) as H;
      [|split; exact H].
    unfold parseNumberFromLabel. rewrite truthy_labelled. simpl negb. cbv iota.
    rewrite split_after_index by done. by rewrite split_underscore_free.
  - intros v Hne Hv.
    assert (parseNumberFromLabel (Some v) fallback = v) as H; [|split; exact H].
    unfold parseNumberFromLabel. destruct v as [|c v]; [done|]. simpl negb. cbv iota.
    by rewrite split_underscore_free.
  - done.
Qed.

Lemma C9_label_decoding_witness :
  underscore_free "0" ∧ underscore_free "Male"
  ∧ parseNumberFromLabel (Some ("0" +:+ "_" +:+ "Male")) "Unknown" = "Male"
  ∧ parseYesNo (Some ("0" +:+ "_" +:+ "Male")) "Unknown" = "Male".
Proof.
  assert (underscore_free "0") as H0 by (apply includes_not_contains; reflexivity).
  assert (underscore_free "Male") as H1 by (apply includes_not_contains; reflexivity).
  split; [exact H0|]. split; [exact H1|].
  destruct (C9_label_decoding "Unknown") as (_ & H & _).
  exact (H "0" "Male" H0 H1).
Defined.

(** ** Frame reasoning *)

Section Frame.
Context (R : relation World) `{!PreOrder R}.
Context (Rp : relation PoCDoc) (Ro : relation OrgDoc).

Lemma preserves_ret {A} (a : A) : preserves R (ret a).
Proof. intros w. reflexivity. Qed.

Lemma preserves_throw {A} : preserves R (@throw A).
Proof. intros w. reflexivity. Qed.

Lemma preserves_get_world : preserves R get_world.
Proof. intros w. reflexivity. Qed.

Lemma preserves_bind {A B} (m : M A) (k : A → M B) :
  preserves R m → (∀ a, preserves R (k a)) → preserves R (bind m k).
Proof.
  intros Hm Hk w. unfold bind. specialize (Hm w).
  destruct (m w) as [[a|] w1]; simpl in *; [|done].
  etransitivity; [exact Hm | apply Hk].
Qed.

Lemma preserves_try_catch {A} (m h : M A) :
  preserves R m → preserves R h → preserves R (try_catch m h).
Proof.
  intros Hm Hh w. unfold try_catch. specialize (Hm w).
  destruct (m w) as [[a|] w1]; simpl in *; [done|].
  etransitivity; [exact Hm | apply Hh].
Qed.

Lemma preserves_modify (f : World → World) :
  (∀ w, R w (f w)) → preserves R (modify f).
Proof. intros Hf w. apply Hf. Qed.

Lemma preserves_for_each {A} (l : list A) (body : A → M unit) :
  (∀ x, preserves R (body x)) → preserves R (for_each l body).
Proof.
  intros Hb. induction l as [|x l IH]; simpl; [apply preserves_ret|].
  apply preserves_bind; [apply Hb | intros _; apply IH].
Qed.

Create HintDb frame discriminated.
#[local] Hint Constants Opaque : frame.

Ltac frame_step :=
  match goal with
  | |- preserves _ (ret _) => apply preserves_ret
  | |- preserves _ throw => apply preserves_throw
  | |- preserves _ get_world => apply preserves_get_world
  | |- preserves _ (bind _ _) => apply preserves_bind
  | |- preserves _ (try_catch _ _) => apply preserves_try_catch
  | |- preserves _ (modify _) => apply preserves_modify
  | |- preserves _ (match ?x with _ => _ end) => destruct x
  | |- preserves _ (let _ := _ in _) => cbv zeta
  | |- preserves _ _ => solve [eauto 3 with frame]
  | |- ∀ _, _ => intro
  | |- _ => solve [eauto 2]
  end.

Ltac frame := repeat frame_step.

Hypothesis h_clock : ∀ w n, R w (set_clock_reads n w).
Hypothesis h_random : ∀ w n, R w (set_random_draws n w).
Hypothesis h_llm : ∀ w l, R w (set_llm_calls l w).
Hypothesis h_sent : ∀ w l, R w (set_sent l w).
Hypothesis h_configs : ∀ w c, R w (set_organizationConfigs c w).
Hypothesis h_knowledge : ∀ w c, R w (set_knowledgeCache c w).
Hypothesis h_poc_new : ∀ w d, R w (set_PoC (PoC w ++ [d]) w).
Hypothesis h_poc : ∀ w i f, (∀ d, Rp d (f d)) → R w (set_PoC (alter f i (PoC w)) w).
Hypothesis h_org : ∀ w i f, (∀ o, Ro o (f o)) → R w (set_Organisation (alter f i (Organisation w)) w).

Hypothesis p_lastSeen : ∀ t d, Rp d (set_lastSeen t d).
Hypothesis p_chat : ∀ x d, Rp d (set_Chat (Chat d ++ [x]) d).
Hypothesis p_chatState : ∀ m d, Rp d (set_chatState m d).
Hypothesis p_patients : ∀ ps d, Rp d (set_Patients ps d).
Hypothesis p_registration : ∀ n g b a age u d, Rp d (set_registration n g b a age u d).

Hypothesis o_notification : ∀ n o, Ro o (set_Notifications (Notifications o ++ [n]) o).
Hypothesis o_appointment : ∀ k a o, Ro o (set_Appointments (<[k := a]> (Appointments o)) o).
Hypothesis o_feedback : ∀ k f o,
  Ro o (set_Appointments (alter (set_feedback f) k (Appointments o)) o).
Hypothesis o_ticket : ∀ k t o, Ro o (set_Tickets (<[k := t]> (Tickets o)) o).
Hypothesis o_checkin : ∀ k c o, Ro o (set_Checkins (<[k := c]> (Checkins o)) o).

Lemma getCurrentIndianTime_preserves env : preserves R (getCurrentIndianTime env).
Proof. intros w. apply h_clock. Qed.

Lemma random_index_preserves env n : preserves R (random_index env n).
Proof. intros w. apply h_random. Qed.

Lemma createChatCompletion_preserves env req : preserves R (createChatCompletion env req).
Proof. intros w. unfold createChatCompletion. destruct (env_llm _ _ _); apply h_llm. Qed.

Lemma post_preserves env r : preserves R (post env r).
Proof. unfold post. frame. Qed.

Lemma poc_get_preserves i : preserves R (poc_get i).
Proof. unfold poc_get. frame. Qed.

Lemma poc_write_preserves i f : (∀ d, Rp d (f d)) → preserves R (poc_write i f).
Proof. intros Hf. unfold poc_write. frame. Qed.

Lemma poc_update_preserves i f : (∀ d, Rp d (f d)) → preserves R (poc_update i f).
Proof.
  intros Hf w. unfold poc_update, bind, get_world.
  destruct (PoC w !! i) as [d|] eqn:Hd; simpl; [|reflexivity].
  replace (<[i := f d]> (PoC w)) with (alter f i (PoC w)); [by apply h_poc|].
  apply list_eq. intros j. destruct (decide (j = i)) as [->|Hj].
  - rewrite list_lookup_alter_eq, Hd. simpl.
    symmetry. apply list_lookup_insert_eq. by eapply lookup_lt_Some.
  - by rewrite list_lookup_alter_ne, list_lookup_insert_ne.
Qed.

Lemma org_write_preserves i f : (∀ o, Ro o (f o)) → preserves R (org_write i f).
Proof. intros Hf. unfold org_write. frame. Qed.



#[local] Hint Resolve getCurrentIndianTime_preserves random_index_preserves
  createChatCompletion_preserves post_preserves poc_get_preserves
  poc_write_preserves poc_update_preserves org_write_preserves : frame.

Lemma generate_from_preserves env chars n : preserves R (generate_from env chars n).
Proof. induction n as [|n IH]; simpl; frame. Qed.
#[local] Hint Resolve generate_from_preserves : frame.

Lemma generateId_preserves env n : preserves R (generateId env n).
Proof. unfold generateId. frame. Qed.

Lemma generateFlowToken_preserves env n : preserves R (generateFlowToken env n).
Proof. unfold generateFlowToken. frame. Qed.
#[local] Hint Resolve generateId_preserves generateFlowToken_preserves : frame.

Lemma loadOrganizationConfig_preserves orgId : preserves R (loadOrganizationConfig orgId).
Proof. unfold loadOrganizationConfig. frame. Qed.

Lemma getOrganizationByPhoneId_preserves phoneId :
  preserves R (getOrganizationByPhoneId phoneId).
Proof. unfold getOrganizationByPhoneId. frame. Qed.

Lemma getOrganisationRef_preserves orgId : preserves R (getOrganisationRef orgId).
Proof. unfold getOrganisationRef. frame. Qed.
#[local] Hint Resolve loadOrganizationConfig_preserves getOrganizationByPhoneId_preserves
  getOrganisationRef_preserves : frame.

Lemma createNotification_preserves env orgRef from message event PoCRef ref details :
  preserves R (createNotification env orgRef from message event PoCRef ref details).
Proof. unfold createNotification. frame. Qed.
#[local] Hint Resolve createNotification_preserves : frame.

Lemma sendWhatsAppMessage_preserves env to message orgId :
  preserves R (sendWhatsAppMessage env to message orgId).
Proof. unfold sendWhatsAppMessage. frame. Qed.

Lemma sendWelcomeTemplate_preserves env userPhone pocName orgId :
  preserves R (sendWelcomeTemplate env userPhone pocName orgId).
Proof. unfold sendWelcomeTemplate. frame. Qed.

Lemma sendSupportTemplate_preserves env userPhone orgId :
  preserves R (sendSupportTemplate env userPhone orgId).
Proof. unfold sendSupportTemplate. frame. Qed.

Lemma sendAppointmentFlow_preserves env userPhone orgId :
  preserves R (sendAppointmentFlow env userPhone orgId).
Proof. unfold sendAppointmentFlow. frame. Qed.
#[local] Hint Resolve sendWhatsAppMessage_preserves sendWelcomeTemplate_preserves
  sendSupportTemplate_preserves sendAppointmentFlow_preserves : frame.

Lemma updatePoCLastSeen_preserves env pocRef : preserves R (updatePoCLastSeen env pocRef).
Proof. unfold updatePoCLastSeen. frame. Qed.
#[local] Hint Resolve updatePoCLastSeen_preserves : frame.

Lemma processWelcomeFormSubmission_preserves env pocRef flowData orgId :
  preserves R (processWelcomeFormSubmission env pocRef flowData orgId).
Proof. unfold processWelcomeFormSubmission. frame. Qed.

Lemma getOrCreatePoCByPhone_preserves env phone contactName orgId :
  preserves R (getOrCreatePoCByPhone env phone contactName orgId).
Proof. unfold getOrCreatePoCByPhone. frame. Qed.

Lemma saveChatToPoC_preserves env pocRef direction from to msgType msgBody extraFields :
  preserves R (saveChatToPoC env pocRef direction from to msgType msgBody extraFields).
Proof. unfold saveChatToPoC. frame. Qed.
#[local] Hint Resolve processWelcomeFormSubmission_preserves
  getOrCreatePoCByPhone_preserves saveChatToPoC_preserves : frame.

Lemma appointmentFlowImpl_preserves env action userPhone orgId :
  preserves R (appointmentFlowImpl env action userPhone orgId).
Proof. unfold appointmentFlowImpl. frame. Qed.

Lemma createAppointmentDoc_preserves env pocRef userPhone flowData orgId :
  preserves R (createAppointmentDoc env pocRef userPhone flowData orgId).
Proof. unfold createAppointmentDoc. frame. Qed.

Lemma supportFlowImpl_preserves env department userPhone orgId :
  preserves R (supportFlowImpl env department userPhone orgId).
Proof. unfold supportFlowImpl. frame. Qed.

Lemma createSupportTicket_preserves env pocRef flowData orgId :
  preserves R (createSupportTicket env pocRef flowData orgId).
Proof. unfold createSupportTicket. frame. Qed.

Lemma createCheckinDoc_preserves env pocRef userPhone orgId :
  preserves R (createCheckinDoc env pocRef userPhone orgId).
Proof. unfold createCheckinDoc. frame. Qed.

Lemma updateAppointmentFeedback_preserves env flowData orgId :
  preserves R (updateAppointmentFeedback env flowData orgId).
Proof. unfold updateAppointmentFeedback. frame. Qed.
#[local] Hint Resolve appointmentFlowImpl_preserves createAppointmentDoc_preserves
  supportFlowImpl_preserves createSupportTicket_preserves createCheckinDoc_preserves
  updateAppointmentFeedback_preserves : frame.

Lemma loadKnowledgeBase_preserves env orgId : preserves R (loadKnowledgeBase env orgId).
Proof. unfold loadKnowledgeBase. frame. Qed.

Lemma orgName_of_preserves orgConfig : preserves R (orgName_of orgConfig).
Proof. unfold orgName_of. frame. Qed.
#[local] Hint Resolve loadKnowledgeBase_preserves orgName_of_preserves : frame.

Lemma refineKnowledgeWithGpt_preserves env userQuery matchedLines orgConfig :
  preserves R (refineKnowledgeWithGpt env userQuery matchedLines orgConfig).
Proof. unfold refineKnowledgeWithGpt. frame. Qed.

Lemma checkKnowledgeFullWithGpt_preserves env userQuery text orgConfig :
  preserves R (checkKnowledgeFullWithGpt env userQuery text orgConfig).
Proof. unfold checkKnowledgeFullWithGpt. frame. Qed.
#[local] Hint Resolve refineKnowledgeWithGpt_preserves
  checkKnowledgeFullWithGpt_preserves : frame.

Lemma knowledgeLookupImpl_preserves env userQuery orgId :
  preserves R (knowledgeLookupImpl env userQuery orgId).
Proof. unfold knowledgeLookupImpl. frame. Qed.

Lemma classifySymptomWithGpt_preserves env symptomLine :
  preserves R (classifySymptomWithGpt env symptomLine).
Proof.
  unfold classifySymptomWithGpt.
  apply preserves_try_catch; [|apply preserves_ret].
  apply preserves_bind; [apply createChatCompletion_preserves; auto|].
  intros choice. cbv zeta.
  generalize (existsb (λ s, bool_decide (Js.toLowerCase s
                = Js.toLowerCase (or_else (Js.trim <$> choice ≫= fst) "")))
                POSSIBLE_SPECIALTIES).
  intros []; apply preserves_ret.
Qed.

Lemma findDoctorsByFuzzySpecialty_preserves specialty orgId :
  preserves R (findDoctorsByFuzzySpecialty specialty orgId).
Proof. unfold findDoctorsByFuzzySpecialty. frame. Qed.
#[local] Hint Resolve knowledgeLookupImpl_preserves classifySymptomWithGpt_preserves
  findDoctorsByFuzzySpecialty_preserves : frame.

Lemma assessLines_preserves env lines orgId : preserves R (assessLines env lines orgId).
Proof. induction lines as [|line lines IH]; simpl; frame. Qed.
#[local] Hint Resolve assessLines_preserves : frame.

Lemma symptomAssessmentImpl_preserves env userSymptom orgId :
  preserves R (symptomAssessmentImpl env userSymptom orgId).
Proof. unfold symptomAssessmentImpl. frame. Qed.
#[local] Hint Resolve symptomAssessmentImpl_preserves : frame.

Lemma arg_preserves args field : preserves R (arg args field).
Proof. unfold arg. frame. Qed.
#[local] Hint Resolve arg_preserves : frame.

Lemma handleLocalFunctionCall_preserves env name args fromPhone orgId :
  preserves R (handleLocalFunctionCall env name args fromPhone orgId).
Proof. unfold handleLocalFunctionCall. frame. Qed.
#[local] Hint Resolve handleLocalFunctionCall_preserves : frame.

Lemma handleOpenAiFunctionCall_preserves env fCall fromPhone orgId :
  preserves R (handleOpenAiFunctionCall env fCall fromPhone orgId).
Proof. unfold handleOpenAiFunctionCall. frame. Qed.

Lemma getOrganizationFromContext_preserves req :
  preserves R (getOrganizationFromContext req).
Proof. unfold getOrganizationFromContext. frame. Qed.

Lemma downloadWhatsAppMediaAndUpload_preserves env mediaId mimeType orgId :
  preserves R (downloadWhatsAppMediaAndUpload env mediaId mimeType orgId).
Proof. unfold downloadWhatsAppMediaAndUpload. frame. Qed.
#[local] Hint Resolve handleOpenAiFunctionCall_preserves
  getOrganizationFromContext_preserves downloadWhatsAppMediaAndUpload_preserves : frame.

Lemma handleNfmReply_preserves env orgId orgConfig contactName fromUser rawJson :
  preserves R (handleNfmReply env orgId orgConfig contactName fromUser rawJson).
Proof. unfold handleNfmReply. frame. Qed.

Lemma handleMedia_preserves env orgId orgConfig pocRef from kind mediaId mimeType :
  preserves R (handleMedia env orgId orgConfig pocRef from kind mediaId mimeType).
Proof. unfold handleMedia. frame. Qed.

Lemma handleAi_preserves env orgId orgConfig pocRef from userText pocData :
  preserves R (handleAi env orgId orgConfig pocRef from userText pocData).
Proof. unfold handleAi. frame. Qed.
#[local] Hint Resolve handleNfmReply_preserves handleMedia_preserves
  handleAi_preserves : frame.

Lemma handleText_preserves env orgId orgConfig pocRef from body :
  preserves R (handleText env orgId orgConfig pocRef from body).
Proof. unfold handleText. frame. Qed.
#[local] Hint Resolve handleText_preserves : frame.

Lemma webhookPost_preserves env req : preserves R (webhookPost env req).
Proof. unfold webhookPost. frame. Qed.

End Frame.

(** ** Running the store primitives *)

Lemma list_alter_insert {A} (f : A → A) (i : nat) (l : list A) (x : A) :
  l !! i = Some x → alter f i l = <[i := f x]> l.
Proof.
  intros Hx. apply list_eq. intros j. destruct (decide (j = i)) as [->|Hj].
  - rewrite list_lookup_alter_eq, Hx. simpl.
    symmetry. apply list_lookup_insert_eq. by eapply lookup_lt_Some.
  - by rewrite list_lookup_alter_ne, list_lookup_insert_ne.
Qed.

Lemma poc_write_run (i : nat) (f : PoCDoc → PoCDoc) (w : World) (d : PoCDoc) :
  PoC w !! i = Some d →
  poc_write i f w = (Some tt, set_PoC (<[i := f d]> (PoC w)) w).
Proof. intros Hd. unfold poc_write, modify. by rewrite (list_alter_insert _ _ _ d). Qed.

Lemma poc_update_run (i : nat) (f : PoCDoc → PoCDoc) (w : World) (d : PoCDoc) :
  PoC w !! i = Some d →
  poc_update i f w = (Some tt, set_PoC (<[i := f d]> (PoC w)) w).
Proof. intros Hd. unfold poc_update, bind, get_world. by rewrite Hd. Qed.

Lemma updatePoCLastSeen_run env (i : nat) (w : World) (d : PoCDoc) :
  PoC w !! i = Some d →
  updatePoCLastSeen env i w =
    (Some tt, set_PoC (<[i := set_lastSeen (env_clock env (clock_reads w)) d]> (PoC w))
                (set_clock_reads (S (clock_reads w)) w)).
Proof.
  intros Hd. unfold updatePoCLastSeen, try_catch, bind, getCurrentIndianTime.
  by rewrite (poc_update_run _ _ _ d).
Qed.

Lemma saveChatToPoC_run env (i : nat) direction from to msgType msgBody extraFields
    (w : World) (d : PoCDoc) :
  PoC w !! i = Some d →
  saveChatToPoC env i direction from to msgType msgBody extraFields w =
    (Some tt,
     set_PoC (<[i := set_lastSeen (env_clock env (S (clock_reads w)))
                       (set_Chat (Chat d ++ [chat_entry env (clock_reads w) direction from
                                               to msgType msgBody extraFields]) d)]> (PoC w))
       (set_clock_reads (S (S (clock_reads w))) w)).
Proof.
  intros Hd. unfold saveChatToPoC, bind at 1, getCurrentIndianTime.
  unfold bind. rewrite (poc_write_run _ _ _ d) by done.
  erewrite updatePoCLastSeen_run.
  2:{ simpl. apply list_lookup_insert_eq. by eapply lookup_lt_Some. }
  simpl. by rewrite list_insert_insert_eq.
Qed.

(** ** Transcripts *)

Lemma contact_grows_refl (d : PoCDoc) : contact_grows d d.
Proof. done. Qed.

Lemma contact_grows_trans (d1 d2 d3 : PoCDoc) :
  contact_grows d1 d2 → contact_grows d2 d3 → contact_grows d1 d3.
Proof.
  intros (H1 & H2 & H3) (H4 & H5 & H6). split; [by etransitivity|].
  split; congruence.
Qed.

#[local] Instance stable_preorder : PreOrder stable.
Proof.
  split.
  - intros w i d Hd. exists d. split; [done | apply contact_grows_refl].
  - intros w1 w2 w3 H12 H23 i d Hd.
    destruct (H12 i d Hd) as (d2 & Hd2 & Hg2).
    destruct (H23 i d2 Hd2) as (d3 & Hd3 & Hg3).
    exists d3. split; [done | by eapply contact_grows_trans].
Qed.

Lemma stable_same_contacts (w w' : World) : PoC w' = PoC w → stable w w'.
Proof. intros Heq i d Hd. exists d. rewrite Heq. split; [done | apply contact_grows_refl]. Qed.

Lemma stable_new_contact (w : World) (d : PoCDoc) : stable w (set_PoC (PoC w ++ [d]) w).
Proof.
  intros i d0 Hd0. exists d0. split; [|apply contact_grows_refl].
  simpl. by apply lookup_app_l_Some.
Qed.

Lemma stable_alter (w : World) (i : nat) (f : PoCDoc → PoCDoc) :
  (∀ d, contact_grows d (f d)) → stable w (set_PoC (alter f i (PoC w)) w).
Proof.
  intros Hf j d Hd. simpl. destruct (decide (j = i)) as [->|Hj].
  - exists (f d). by rewrite list_lookup_alter_eq, Hd.
  - exists d. rewrite list_lookup_alter_ne by done. split; [done | apply contact_grows_refl].
Qed.

Lemma webhookPost_stable env (req : Request) (w : World) :
  stable w (webhookPost env req w).2.
Proof.
  apply (webhookPost_preserves stable contact_grows (λ _ _, True));
    try (intros; by apply stable_same_contacts);
    try done.
  - apply stable_new_contact.
  - apply stable_alter.
  - intros x d. split; [by apply prefix_app_r | done].
Qed.

Lemma deliveries_stable env (reqs : list Request) (w : World) :
  stable w (deliveries env reqs w).
Proof.
  revert w. induction reqs as [|req reqs IH]; intros w; simpl; [reflexivity|].
  etransitivity; [apply (webhookPost_stable env req) | apply IH].
Qed.

(** ** Truncation *)

Lemma slice0_split (n : nat) (s : string) :
  n ≤ String.length s →
  ∃ rest, s = Js.slice0 n s +:+ rest ∧ String.length (Js.slice0 n s) = n.
Proof.
  revert s. induction n as [|n IH]; intros s Hn.
  - exists s. by destruct s.
  - destruct s as [|c s]; simpl in Hn; [lia|].
    destruct (IH s) as (rest & Hs & Hlen); [lia|].
    exists rest. unfold Js.slice0 in *. simpl. rewrite append_cons.
    split; [by rewrite <- Hs | by rewrite Hlen].
Qed.

(** C8. A body longer than 300 characters is stored as its first 300
    characters followed by the marker, a shorter one verbatim; the entry is
    appended at the end of the contact's transcript; and no delivery handled
    afterwards edits or removes an entry of any transcript. *)
Theorem C8_transcript_truncation env :
  (∀ body, String.length body ≤ 300 → truncateBody (Some body) = body)
  ∧ (∀ body, 300 < String.length body →
       ∃ kept dropped, body = kept +:+ dropped ∧ String.length kept = 300
                       ∧ truncateBody (Some body) = kept +:+ "...(truncated)")
  ∧ (∀ pocRef direction from to msgType body extraFields w d,
       PoC w !! pocRef = Some d →
       ∃ w' d' entry,
         saveChatToPoC env pocRef direction from to msgType (Some body) extraFields w
           = (Some tt, w')
         ∧ PoC w' !! pocRef = Some d'
         ∧ Chat d' = Chat d ++ [entry]
         ∧ Msg_Body entry = truncateBody (Some body)
         ∧ Direction entry = direction ∧ From entry = from ∧ To entry = to
         ∧ Msg_Type entry = msgType)
  ∧ (∀ reqs w i d,
       PoC w !! i = Some d →
       ∃ d', PoC (deliveries env reqs w) !! i = Some d' ∧ Chat d `prefix_of` Chat d').
Proof.
  split; [|split; [|split]].
  - intros body Hlen. unfold truncateBody, or_else.
    destruct body as [|c body]; [done|]. simpl Js.truthy. cbv iota.
    by rewrite decide_False by lia.
  - intros body Hlen. unfold truncateBody, or_else.
    destruct body as [|c body]; [simpl in Hlen; lia|]. simpl Js.truthy. cbv iota.
    rewrite decide_True by done.
    destruct (slice0_split 300 (String c body)) as (rest & Hs & Hl); [lia|].
    by exists (Js.slice0 300 (String c body)), rest.
  - intros pocRef direction from to msgType body extraFields w d Hd.
    rewrite (saveChatToPoC_run env _ _ _ _ _ _ _ _ d) by done.
    eexists _, _, _. split; [done|]. split.
    + simpl. apply list_lookup_insert_eq. by eapply lookup_lt_Some.
    + done.
  - intros reqs w i d Hd.
    destruct (deliveries_stable env reqs w i d Hd) as (d' & Hd' & Hg & _).
    by exists d'.
Qed.

Lemma C8_transcript_truncation_witness :
  truncateBody (Some "hello") = "hello"
  ∧ (∃ kept dropped, long_body = kept +:+ dropped ∧ String.length kept = 300
                     ∧ truncateBody (Some long_body) = kept +:+ "...(truncated)")
  ∧ (∃ w' d' entry,
       saveChatToPoC env0 0 "inbound" "919000000001" "15550001" "text"
         (Some long_body) None (world0 true) = (Some tt, w')
       ∧ PoC w' !! 0 = Some d'
       ∧ Chat d' = Chat (alice true) ++ [entry]
       ∧ Msg_Body entry = truncateBody (Some long_body)
       ∧ Direction entry = "inbound" ∧ From entry = "919000000001"
       ∧ To entry = "15550001" ∧ Msg_Type entry = "text")
  ∧ (∃ d', PoC (deliveries env0 [text_request "Acme" "hello"] (world0 true)) !! 0 = Some d'
           ∧ Chat (alice true) `prefix_of` Chat d').
Proof.
  destruct (C8_transcript_truncation env0) as (H1 & H2 & H3 & H4).
  split; [apply H1; vm_compute; lia|].
  split; [apply H2; vm_compute; lia|].
  split; [apply H3; reflexivity|].
  apply H4. reflexivity.
Defined.

(** ** Contacts *)

Lemma find_poc_Some (phone orgId : string) (w : World) (ref : nat) (d : PoCDoc) :
  find_poc phone orgId w = Some (ref, d) →
  PoC w !! ref = Some d ∧ poc_Phone d = phone ∧ addedBy d = Some orgId.
Proof.
  unfold find_poc. intros H. apply list_find_Some in H as (Hd & [Hp Ha] & _). done.
Qed.

Lemma find_poc_exists (phone orgId : string) (w : World) (i : nat) (d : PoCDoc) :
  PoC w !! i = Some d → poc_Phone d = phone → addedBy d = Some orgId →
  ∃ ref d0, find_poc phone orgId w = Some (ref, d0).
Proof.
  intros Hd Hp Ha. unfold find_poc.
  destruct (list_find_elem_of (λ d, poc_Phone d = phone ∧ addedBy d = Some orgId)
              (PoC w) d) as [[ref d0] H]; [by eapply list_elem_of_lookup_2 | done |].
  by exists ref, d0.
Qed.

Lemma getOrCreatePoCByPhone_existing env (phone contactName orgId : string) (w : World)
    (ref : nat) (d : PoCDoc) :
  find_poc phone orgId w = Some (ref, d) →
  getOrCreatePoCByPhone env phone contactName orgId w =
    (Some ref,
     set_PoC (<[ref := set_lastSeen (env_clock env (clock_reads w)) d]> (PoC w))
       (set_clock_reads (S (clock_reads w)) w)).
Proof.
  intros Hf. unfold getOrCreatePoCByPhone, bind at 1, get_world. rewrite Hf.
  unfold bind. apply find_poc_Some in Hf as (Hd & _).
  by rewrite (updatePoCLastSeen_run env _ _ d).
Qed.

Lemma getOrCreatePoCByPhone_new env (phone contactName orgId : string) (w : World) :
  find_poc phone orgId w = None →
  ∃ w' d',
    getOrCreatePoCByPhone env phone contactName orgId w = (Some (length (PoC w)), w')
    ∧ PoC w' = PoC w ++ [d']
    ∧ poc_Name d' = contactName ∧ poc_Phone d' = phone ∧ addedBy d' = Some orgId
    ∧ BotMode d' = Some true ∧ registered d' = Some false
    ∧ Chat d' = [] ∧ chatState d' = None ∧ length (Patients d') = 1.
Proof.
  intros Hf. unfold getOrCreatePoCByPhone, bind at 1, get_world. rewrite Hf.
  unfold bind, getCurrentIndianTime, get_world, modify, getOrganisationRef,
    createNotification, sendWelcomeTemplate, loadOrganizationConfig, post, poc_write,
    org_write, ret, bind, getCurrentIndianTime, get_world, modify.
  simpl.
  repeat (case_match; simpl in *; simplify_eq).
  all: eexists _, _; split; [reflexivity|].
  all: simpl; rewrite alter_app_r_alt by lia; rewrite Nat.sub_diag; simpl.
  all: split; [reflexivity|]; simpl; done.
Qed.

Lemma find_poc_insert (phone orgId : string) (w w' : World) (ref : nat) (d d' : PoCDoc) :
  find_poc phone orgId w = Some (ref, d) →
  PoC w' = <[ref := d']> (PoC w) →
  poc_Phone d' = phone → addedBy d' = Some orgId →
  find_poc phone orgId w' = Some (ref, d').
Proof.
  unfold find_poc. intros Hf Hw Hp Ha. rewrite Hw.
  apply list_find_Some in Hf as (Hd & _ & Hfirst).
  apply list_find_Some. split; [|split; [done|]].
  - apply list_lookup_insert_eq. by eapply lookup_lt_Some.
  - intros j y Hy Hj. rewrite list_lookup_insert_ne in Hy by lia. by eapply Hfirst.
Qed.

Lemma find_poc_app (phone orgId : string) (w w' : World) (d' : PoCDoc) :
  find_poc phone orgId w = None →
  PoC w' = PoC w ++ [d'] →
  poc_Phone d' = phone → addedBy d' = Some orgId →
  find_poc phone orgId w' = Some (length (PoC w), d').
Proof.
  unfold find_poc. intros Hf Hw Hp Ha. rewrite Hw.
  rewrite list_find_app_r by done. simpl.
  by rewrite decide_True.
Qed.

(** Every call returns, and what it returns is then the contact found for
    this phone and tenant. *)
Lemma getOrCreatePoCByPhone_found env (phone contactName orgId : string) (w : World) :
  ∃ ref w' d',
    getOrCreatePoCByPhone env phone contactName orgId w = (Some ref, w')
    ∧ find_poc phone orgId w' = Some (ref, d')
    ∧ (∀ i d, PoC w !! i = Some d →
              ∃ d2, PoC w' !! i = Some d2 ∧ poc_Phone d2 = poc_Phone d
                    ∧ addedBy d2 = addedBy d).
Proof.
  destruct (find_poc phone orgId w) as [[ref d]|] eqn:Hf.
  - rewrite (getOrCreatePoCByPhone_existing env _ _ _ _ ref d) by done.
    eexists _, _, _. split; [done|]. split.
    + eapply find_poc_insert; [exact Hf | reflexivity | |];
        apply find_poc_Some in Hf as (_ & Hp & Ha); done.
    + intros i d0 Hd0. simpl. destruct (decide (i = ref)) as [->|Hi].
      * apply find_poc_Some in Hf as (Hd & _). rewrite Hd in Hd0. injection Hd0 as <-.
        eexists. split; [apply list_lookup_insert_eq; by eapply lookup_lt_Some | done].
      * exists d0. by rewrite list_lookup_insert_ne.
  - destruct (getOrCreatePoCByPhone_new env phone contactName orgId w Hf)
      as (w' & d' & Hrun & HPoC & _ & Hp & Ha & _).
    exists (length (PoC w)), w', d'. split; [done|]. split.
    + by eapply find_poc_app.
    + intros i d0 Hd0. exists d0. rewrite HPoC. split; [by apply lookup_app_l_Some | done].
Qed.

Lemma saveChatToPoC_other env (i j : nat) direction from to msgType msgBody extraFields
    (w : World) :
  i ≠ j →
  PoC (saveChatToPoC env i direction from to msgType msgBody extraFields w).2 !! j
  = PoC w !! j.
Proof.
  intros Hij. destruct (PoC w !! i) as [d|] eqn:Hd.
  - rewrite (saveChatToPoC_run env _ _ _ _ _ _ _ _ d) by done. simpl.
    by rewrite list_lookup_insert_ne.
  - unfold saveChatToPoC, updatePoCLastSeen, try_catch, bind, getCurrentIndianTime,
      poc_write, poc_update, modify, get_world, bind, throw, ret. simpl.
    rewrite list_lookup_alter_eq, Hd. simpl. by rewrite list_lookup_alter_ne.
Qed.

Lemma processWelcomeFormSubmission_run env (i : nat) (flowData : FlowData)
    (orgId : string) (w : World) (d : PoCDoc) :
  PoC w !! i = Some d →
  ∃ w' d',
    processWelcomeFormSubmission env i flowData orgId w = (Some true, w')
    ∧ PoC w' !! i = Some d'
    ∧ registered d' = Some true
    ∧ poc_Name d' = or_else (flowData !! "screen_0_Full_Name_0") ""
    ∧ Chat d' = Chat d ∧ poc_Phone d' = poc_Phone d ∧ addedBy d' = addedBy d
    ∧ (∀ j, j ≠ i → PoC w' !! j = PoC w !! j)
    ∧ sent w' = sent w ∧ llm_calls w' = llm_calls w
    ∧ (∀ k, Appointments <$> Organisation w' !! k = Appointments <$> Organisation w !! k)
    ∧ (∀ k, Tickets <$> Organisation w' !! k = Tickets <$> Organisation w !! k)
    ∧ (∀ k, Checkins <$> Organisation w' !! k = Checkins <$> Organisation w !! k).
Proof.
  intros Hd. assert (i < length (PoC w)) as Hi by (by eapply lookup_lt_Some).
  unfold processWelcomeFormSubmission, try_catch, bind, get_world, getCurrentIndianTime,
    poc_update, poc_get, poc_write, getOrganisationRef, createNotification, org_write,
    modify, throw, ret, bind, get_world, getCurrentIndianTime, modify, ret, find_org.
  cbn [PoC set_PoC set_clock_reads clock_reads Organisation set_Organisation fst snd].
  rewrite Hd. cbn [PoC set_PoC set_clock_reads clock_reads Organisation set_Organisation
                   fst snd fmap option_fmap option_map].
  rewrite list_lookup_insert_eq by done.
  cbn [PoC set_PoC set_clock_reads clock_reads Organisation set_Organisation
       fst snd fmap option_fmap option_map Patients set_registration].
  destruct (Patients d) as [|first rest] eqn:Hpat;
    cbn [PoC set_PoC set_clock_reads clock_reads Organisation set_Organisation
         fst snd fmap option_fmap option_map];
    destruct (list_find (λ o, OrgID o = Some orgId) (Organisation w)) as [[org o]|] eqn:Horg;
    cbn [PoC set_PoC set_clock_reads clock_reads Organisation set_Organisation
         fst snd fmap option_fmap option_map];
    eexists _, _; (split; [reflexivity|]);
    cbn [PoC set_PoC set_clock_reads clock_reads Organisation set_Organisation
         sent llm_calls set_sent set_llm_calls fst snd].
  all: try rewrite (list_alter_insert _ _ _ _ (list_lookup_insert_eq _ _ _ Hi)).
  all: try rewrite list_insert_insert_eq.
  all: (split; [by apply list_lookup_insert_eq|]).
  all: repeat (split; [done|]).
  all: (split; [by intros j Hj; apply list_lookup_insert_ne|]).
  all: repeat (split; [done|]).
  all: try done.
  all: repeat split; intros k; (destruct (decide (k = org)) as [->|Hk];
         [rewrite list_lookup_alter_eq; by destruct (Organisation w !! org)
         | by rewrite list_lookup_alter_ne]).
Qed.

(** C1. After get-or-create for one phone under two distinct tenants,
    the two contacts returned are distinct documents, each of that phone
    and scoped to its own tenant; a write to the transcript of one contact,
    or its registration, leaves every other contact document as it was;
    and a contact that is created carries the tenant it was created for. *)
Theorem C1_tenant_isolation env (p n1 n2 t1 t2 : string) (w : World) :
  t1 ≠ t2 →
  (∃ r1 w1 r2 w2 d1 d2,
     getOrCreatePoCByPhone env p n1 t1 w = (Some r1, w1)
     ∧ getOrCreatePoCByPhone env p n2 t2 w1 = (Some r2, w2)
     ∧ r1 ≠ r2
     ∧ PoC w2 !! r1 = Some d1 ∧ poc_Phone d1 = p ∧ addedBy d1 = Some t1
     ∧ PoC w2 !! r2 = Some d2 ∧ poc_Phone d2 = p ∧ addedBy d2 = Some t2
     ∧ (∀ direction from to msgType body extraFields,
          ∃ d1',
            PoC (saveChatToPoC env r1 direction from to msgType body extraFields w2).2 !! r1
              = Some d1'
            ∧ Chat d1' = Chat d1 ++ [chat_entry env (clock_reads w2) direction from to
                                       msgType body extraFields]
            ∧ PoC (saveChatToPoC env r1 direction from to msgType body extraFields w2).2 !! r2
              = Some d2)
     ∧ (∀ flowData,
          ∃ d1',
            PoC (processWelcomeFormSubmission env r1 flowData t1 w2).2 !! r1 = Some d1'
            ∧ registered d1' = Some true
            ∧ PoC (processWelcomeFormSubmission env r1 flowData t1 w2).2 !! r2 = Some d2))
  ∧ (∀ i j direction from to msgType body extraFields w0,
       i ≠ j →
       PoC (saveChatToPoC env i direction from to msgType body extraFields w0).2 !! j
       = PoC w0 !! j)
  ∧ (∀ phone name orgId w0,
       find_poc phone orgId w0 = None →
       ∃ d, PoC (getOrCreatePoCByPhone env phone name orgId w0).2 !! length (PoC w0) = Some d
            ∧ addedBy d = Some orgId ∧ poc_Phone d = phone
            ∧ Chat d = [] ∧ registered d = Some false).
Proof.
  intros Ht. split; [|split].
  - destruct (getOrCreatePoCByPhone_found env p n1 t1 w) as (r1 & w1 & e1 & Hrun1 & Hf1 & _).
    destruct (getOrCreatePoCByPhone_found env p n2 t2 w1)
      as (r2 & w2 & d2 & Hrun2 & Hf2 & Hkeep).
    apply find_poc_Some in Hf1 as (He1 & Hp1 & Ha1).
    apply find_poc_Some in Hf2 as (Hd2 & Hp2 & Ha2).
    destruct (Hkeep r1 e1 He1) as (d1 & Hd1 & Hp1' & Ha1').
    assert (r1 ≠ r2) as Hne.
    { intros ->. rewrite Hd1 in Hd2. injection Hd2 as ->. congruence. }
    exists r1, w1, r2, w2, d1, d2.
    split; [done|]. split; [done|]. split; [done|].
    split; [done|]. split; [congruence|]. split; [congruence|].
    split; [done|]. split; [done|]. split; [done|]. split.
    + intros direction from to msgType body extraFields.
      rewrite (saveChatToPoC_run env _ _ _ _ _ _ _ _ d1) by done. simpl.
      eexists. split; [apply list_lookup_insert_eq; by eapply lookup_lt_Some|].
      split; [done|]. by rewrite list_lookup_insert_ne.
    + intros flowData.
      destruct (processWelcomeFormSubmission_run env r1 flowData t1 w2 d1 Hd1)
        as (w3 & d1' & -> & Hd1' & Hreg & _ & _ & _ & _ & Hother & _).
      exists d1'. split; [done|]. split; [done|]. simpl. rewrite Hother; done.
  - intros. by apply saveChatToPoC_other.
  - intros phone name orgId w0 Hf.
    destruct (getOrCreatePoCByPhone_new env phone name orgId w0 Hf)
      as (w' & d' & -> & HPoC & _ & Hp & Ha & _ & Hreg & Hchat & _).
    exists d'. simpl. rewrite HPoC. split; [|done].
    rewrite lookup_app_r by lia. by rewrite Nat.sub_diag.
Qed.

Lemma C1_tenant_isolation_witness :
  ∃ r1 w1 r2 w2 d1 d2,
    getOrCreatePoCByPhone env0 "919000000001" "Alice" "Acme" (world0 true) = (Some r1, w1)
    ∧ getOrCreatePoCByPhone env0 "919000000001" "Alice" "Other" w1 = (Some r2, w2)
    ∧ r1 ≠ r2
    ∧ PoC w2 !! r1 = Some d1 ∧ addedBy d1 = Some "Acme"
    ∧ PoC w2 !! r2 = Some d2 ∧ addedBy d2 = Some "Other".
Proof.
  assert ("Acme" ≠ "Other") as Hne by discriminate.
  destruct (C1_tenant_isolation env0 "919000000001" "Alice" "Alice" "Acme" "Other"
              (world0 true) Hne)
    as ((r1 & w1 & r2 & w2 & d1 & d2 & H1 & H2 & H3 & H4 & _ & H5 & H6 & _ & H7 & _) & _).
  exists r1, w1, r2, w2, d1, d2. repeat (split; [assumption|]). assumption.
Defined.

(** C2. When a contact of this phone and tenant exists, get-or-create
    returns the first such contact and changes nothing but that contact's
    last-seen time and the clock: no contact and no patient is added, no
    notification is written and nothing is sent.  Called twice in a row from
    any state, the second call returns the contact of the first. *)
Theorem C2_get_or_create_idempotent env (phone name orgId : string) (w : World)
    (i : nat) (d : PoCDoc) :
  PoC w !! i = Some d → poc_Phone d = phone → addedBy d = Some orgId →
  (∃ ref d0 w',
     getOrCreatePoCByPhone env phone name orgId w = (Some ref, w')
     ∧ PoC w !! ref = Some d0 ∧ poc_Phone d0 = phone ∧ addedBy d0 = Some orgId
     ∧ (∀ j dj, j < ref → PoC w !! j = Some dj →
                ¬ (poc_Phone dj = phone ∧ addedBy dj = Some orgId))
     ∧ w' = set_PoC (<[ref := set_lastSeen (env_clock env (clock_reads w)) d0]> (PoC w))
              (set_clock_reads (S (clock_reads w)) w)
     ∧ length (PoC w') = length (PoC w)
     ∧ (∀ j, Patients <$> PoC w' !! j = Patients <$> PoC w !! j)
     ∧ (∀ j, Chat <$> PoC w' !! j = Chat <$> PoC w !! j)
     ∧ Organisation w' = Organisation w
     ∧ sent w' = sent w
     ∧ llm_calls w' = llm_calls w)
  ∧ (∀ w0 name1 name2,
       ∃ ref w1 w2,
         getOrCreatePoCByPhone env phone name1 orgId w0 = (Some ref, w1)
         ∧ getOrCreatePoCByPhone env phone name2 orgId w1 = (Some ref, w2)
         ∧ length (PoC w2) = length (PoC w1)
         ∧ (∀ j, Patients <$> PoC w2 !! j = Patients <$> PoC w1 !! j)
         ∧ Organisation w2 = Organisation w1
         ∧ sent w2 = sent w1).
Proof.
  intros Hd Hp Ha.
  assert (∀ w0 ref d0,
            find_poc phone orgId w0 = Some (ref, d0) →
            ∀ j, Patients <$> <[ref := set_lastSeen (env_clock env (clock_reads w0)) d0]>
                                (PoC w0) !! j = Patients <$> PoC w0 !! j) as Hpat.
  { intros w0 ref d0 Hf j. apply find_poc_Some in Hf as (Hd0 & _).
    destruct (decide (j = ref)) as [->|Hj].
    - rewrite list_lookup_insert_eq by (by eapply lookup_lt_Some). by rewrite Hd0.
    - by rewrite list_lookup_insert_ne. }
  split.
  - destruct (find_poc_exists phone orgId w i d Hd Hp Ha) as (ref & d0 & Hf).
    exists ref, d0. eexists.
    split; [by apply getOrCreatePoCByPhone_existing|].
    pose proof Hf as Hf'. unfold find_poc in Hf'.
    apply list_find_Some in Hf' as (Hd0 & [Hp0 Ha0] & Hfirst).
    split; [done|]. split; [done|]. split; [done|].
    split; [intros j dj Hj Hdj; by eapply Hfirst|].
    split; [done|]. simpl. split; [by rewrite length_insert|].
    split; [by apply Hpat|]. split; [|done].
    intros j. destruct (decide (j = ref)) as [->|Hj].
    + rewrite list_lookup_insert_eq by (by eapply lookup_lt_Some). by rewrite Hd0.
    + by rewrite list_lookup_insert_ne.
  - intros w0 name1 name2.
    destruct (getOrCreatePoCByPhone_found env phone name1 orgId w0)
      as (ref & w1 & d1 & Hrun1 & Hf1 & _).
    exists ref, w1. eexists. split; [done|].
    split; [by apply getOrCreatePoCByPhone_existing|].
    simpl. split; [by rewrite length_insert|]. split; [by apply Hpat | done].
Qed.

Lemma C2_get_or_create_idempotent_witness :
  ∃ ref d0 w',
    getOrCreatePoCByPhone env0 "919000000001" "Alice" "Acme" (world0 true) = (Some ref, w')
    ∧ PoC (world0 true) !! ref = Some d0
    ∧ length (PoC w') = length (PoC (world0 true))
    ∧ Organisation w' = Organisation (world0 true)
    ∧ sent w' = sent (world0 true).
Proof.
  destruct (C2_get_or_create_idempotent env0 "919000000001" "Alice" "Acme" (world0 true)
              0 (alice true) eq_refl eq_refl eq_refl)
    as ((ref & d0 & w' & H1 & H2 & _ & _ & _ & _ & H3 & _ & _ & H4 & H5 & _) & _).
  exists ref, d0, w'. repeat (split; [assumption|]). assumption.
Defined.

(** ** Feedback *)

Ltac wsimpl :=
  cbn [PoC Organisation Doctors organizationConfigs knowledgeCache sent llm_calls
       clock_reads random_draws set_PoC set_Organisation set_organizationConfigs
       set_knowledgeCache set_sent set_llm_calls set_clock_reads set_random_draws
       fst snd].

Lemma world_ext (w1 w2 : World) :
  PoC w1 = PoC w2 → Organisation w1 = Organisation w2 → Doctors w1 = Doctors w2 →
  organizationConfigs w1 = organizationConfigs w2 →
  knowledgeCache w1 = knowledgeCache w2 → sent w1 = sent w2 →
  llm_calls w1 = llm_calls w2 → clock_reads w1 = clock_reads w2 →
  random_draws w1 = random_draws w2 → w1 = w2.
Proof. destruct w1, w2. simpl. congruence. Qed.

Lemma string_leb_trans (s1 : string) :
  ∀ s2 s3, String.leb s1 s2 = true → String.leb s2 s3 = true → String.leb s1 s3 = true.
Proof.
  unfold String.leb.
  induction s1 as [|c1 s1 IH]; intros [|c2 s2] [|c3 s3]; simpl; try done.
  unfold Ascii.compare.
  destruct (N.compare_spec (N_of_ascii c1) (N_of_ascii c2)) as [E12|L12|G12];
    destruct (N.compare_spec (N_of_ascii c2) (N_of_ascii c3)) as [E23|L23|G23];
    try done.
  - rewrite E12, E23, N.compare_refl. apply IH.
  - intros _ _. rewrite E12. by rewrite (proj2 (N.compare_lt_iff _ _) L23).
  - intros _ _. rewrite <- E23. by rewrite (proj2 (N.compare_lt_iff _ _) L12).
  - intros _ _. assert (N_of_ascii c1 < N_of_ascii c3)%N as L by lia.
    by rewrite (proj2 (N.compare_lt_iff _ _) L).
Qed.

Section FindFirst.
Context {A : Type} (P : string * A → Prop) `{Pdec : !∀ kv, Decision (P kv)}.

Local Abbreviation pick :=
  (foldr (λ kv acc, if decide (P kv) then first_by_id kv acc else acc) None).

Lemma pick_Some (l : list (string * A)) (kv : string * A) :
  pick l = Some kv →
  kv ∈ l ∧ P kv ∧ ∀ kv', kv' ∈ l → P kv' → String.leb kv.1 kv'.1 = true.
Proof.
  revert kv. induction l as [|x l IH]; intros kv; simpl; [done|].
  destruct (decide (P x)) as [Hx|Hx].
  - destruct (pick l) as [y|] eqn:Hy; simpl.
    + destruct (IH y eq_refl) as (Hin & HP & Hmin).
      destruct (String.leb x.1 y.1) eqn:Hle; intros [= <-].
      * split; [by left|]. split; [done|]. intros kv' [->|Hin']%elem_of_cons HP'.
        -- destruct (String.leb_total x.1 x.1) as [H|H]; exact H.
        -- eapply string_leb_trans; [exact Hle | by apply Hmin].
      * split; [by right|]. split; [done|]. intros kv' [->|Hin']%elem_of_cons HP'.
        -- destruct (String.leb_total y.1 x.1) as [H|H]; [done | congruence].
        -- by apply Hmin.
    + intros [= <-]. split; [by left|]. split; [done|].
      intros kv' [->|Hin']%elem_of_cons HP'.
      * destruct (String.leb_total x.1 x.1) as [H|H]; exact H.
      * exfalso. clear IH. induction l as [|z l IHl]; [by apply elem_of_nil in Hin'|].
        simpl in Hy. destruct (decide (P z)) as [Hz|Hz].
        -- destruct (pick l); simpl in Hy; [destruct (String.leb _ _)|]; done.
        -- apply elem_of_cons in Hin' as [->|Hin']; [done | by apply IHl].
  - intros Hp. destruct (IH kv Hp) as (Hin & HP & Hmin).
    split; [by right|]. split; [done|]. intros kv' [->|Hin']%elem_of_cons HP'; [done|].
    by apply Hmin.
Qed.

Lemma pick_None (l : list (string * A)) :
  pick l = None ↔ ∀ kv, kv ∈ l → ¬ P kv.
Proof.
  induction l as [|x l IH]; simpl.
  - split; [|done]. intros _ kv H. by apply elem_of_nil in H.
  - destruct (decide (P x)) as [Hx|Hx].
    + split; [by destruct (pick l) as [y|]; simpl; [destruct (String.leb _ _)|]|].
      intros H. exfalso. apply (H x); [by left | done].
    + rewrite IH. split.
      * intros H kv [->|Hin]%elem_of_cons; [done | by apply H].
      * intros H kv Hin. apply H. by right.
Qed.

End FindFirst.

Lemma find_appointment_Some (tok : string) (m : gmap string Appointment)
    (id : string) (a : Appointment) :
  find_appointment tok m = Some (id, a) → m !! id = Some a ∧ FlowToken a = tok.
Proof.
  unfold find_appointment. intros H.
  apply (pick_Some (λ kv, FlowToken kv.2 = tok)) in H as (Hin & Htok & _).
  split; [by apply elem_of_map_to_list | done].
Qed.

Lemma find_appointment_None (tok : string) (m : gmap string Appointment) :
  find_appointment tok m = None ↔ ∀ id a, m !! id = Some a → FlowToken a ≠ tok.
Proof.
  unfold find_appointment. rewrite (pick_None (λ kv, FlowToken kv.2 = tok)). split.
  - intros H id a Hm. apply (H (id, a)). by apply elem_of_map_to_list.
  - intros H [id a] Hin. apply (H id a). by apply elem_of_map_to_list.
Qed.

Lemma find_appointment_first (tok : string) (m : gmap string Appointment)
    (id : string) (a : Appointment) :
  find_appointment tok m = Some (id, a) →
  ∀ id' a', m !! id' = Some a' → FlowToken a' = tok → String.leb id id' = true.
Proof.
  unfold find_appointment. intros H id' a' Hm Htok.
  apply (pick_Some (λ kv, FlowToken kv.2 = tok)) in H as (_ & _ & Hmin).
  apply (Hmin (id', a')); [by apply elem_of_map_to_list | done].
Qed.

Lemma find_org_Some (field : OrgDoc → option string) (v : string) (w : World)
    (org : nat) (o : OrgDoc) :
  find_org field v w = Some (org, o) → Organisation w !! org = Some o ∧ field o = Some v.
Proof. unfold find_org. intros H. apply list_find_Some in H as (Ho & Hv & _). done. Qed.

Lemma updateAppointmentFeedback_run env (flowData : FlowData) (orgId : string) (w : World) :
  match find_org OrgID orgId w with
  | None => updateAppointmentFeedback env flowData orgId w = (Some tt, w)
  | Some (org, o) =>
      match find_appointment (submissionToken flowData) (Appointments o) with
      | None => updateAppointmentFeedback env flowData orgId w = (Some tt, w)
      | Some (id, a) =>
          ∃ n,
            updateAppointmentFeedback env flowData orgId w =
              (Some tt,
               set_Organisation
                 (<[org := set_Notifications (Notifications o ++ [n])
                             (set_Appointments
                                (<[id := set_feedback
                                           (feedbackOf env flowData (clock_reads w)) a]>
                                   (Appointments o)) o)]> (Organisation w))
                 (set_clock_reads (S (S (clock_reads w))) w))
            ∧ n_event n = "Feedback" ∧ n_ref n = Some id
      end
  end.
Proof.
  cbv [updateAppointmentFeedback bind getOrganisationRef get_world ret].
  fold (submissionToken flowData).
  destruct (find_org OrgID orgId w) as [[org o]|] eqn:Horg; [|done].
  cbn [fmap option_fmap option_map fst].
  apply find_org_Some in Horg as (Ho & _). rewrite Ho.
  cbn [fmap option_fmap option_map default from_option]. unfold id.
  destruct (find_appointment (submissionToken flowData) (Appointments o))
    as [[id a]|] eqn:Hapt; [|done].
  apply find_appointment_Some in Hapt as (Ha & _).
  assert (org < length (Organisation w)) as Hlen by (by eapply lookup_lt_Some).
  cbv [getCurrentIndianTime org_write createNotification modify bind get_world ret].
  cbn [Organisation set_Organisation set_clock_reads clock_reads fst snd].
  eexists. split; [|split].
  - f_equal. apply world_ext; wsimpl; try reflexivity.
    rewrite (list_alter_insert _ org (Organisation w) o) by done.
    erewrite list_alter_insert by (by apply list_lookup_insert_eq).
    rewrite list_insert_insert_eq.
    cbn [Notifications set_Appointments].
    fold (feedbackOf env flowData (clock_reads w)).
    assert (alter (set_feedback (feedbackOf env flowData (clock_reads w))) id
              (Appointments o)
            = <[id := set_feedback (feedbackOf env flowData (clock_reads w)) a]>
                (Appointments o)) as ->; [|reflexivity].
    apply map_eq. intros k. destruct (decide (k = id)) as [->|Hk].
    + rewrite lookup_alter_eq, lookup_insert_eq, Ha. done.
    + by rewrite lookup_alter_ne, lookup_insert_ne.
  - reflexivity.
  - reflexivity.
Qed.

(** C4, as stated, fails: a feedback form that carries no flow token
    is attached to an appointment that was booked without one, whose stored
    FlowToken is the empty string and so differs from the missing field. *)
Lemma C4_counterexample :
  let booked := (createAppointmentDoc env0 0 "919000000001" untokened_booking "Acme"
                   world_dr).2 in
  let rated := (updateAppointmentFeedback env0 untokened_feedback "Acme" booked).2 in
  untokened_feedback !! "flow_token" = None
  ∧ FlowToken <$> appointmentOf booked "APT-ABCDEFGH" = Some EmptyString
  ∧ feedback <$> appointmentOf booked "APT-ABCDEFGH" = Some None
  ∧ Some <$> (FlowToken <$> appointmentOf booked "APT-ABCDEFGH")
    ≠ Some (untokened_feedback !! "flow_token")
  ∧ (feedback <$> appointmentOf rated "APT-ABCDEFGH")
    = Some (Some (feedbackOf env0 untokened_feedback (clock_reads booked))).
Proof.
  cbv zeta. split; [by vm_compute|]. split; [by vm_compute|]. split; [by vm_compute|].
  split; [by vm_compute | by vm_compute].
Qed.

(** C4, amended. The token of a submission is its [flow_token] field,
    a missing or empty field being read as the empty string.  Feedback is
    attached only to an appointment of the tenant whose stored FlowToken
    equals that token; when no appointment of the tenant carries it the
    call returns normally and leaves the whole state as it was (no
    feedback, no notification); when one does, the first such appointment
    in the order of the document ids receives the feedback object and one
    notification is written. *)
Theorem C4_feedback_correlation env (flowData : FlowData) (orgId : string) (w : World) :
  ((∀ s, flowData !! "flow_token" = Some s → s ≠ EmptyString →
         submissionToken flowData = s)
   ∧ (falsy (flowData !! "flow_token") = true → submissionToken flowData = EmptyString))
  ∧ ((∀ org o id a,
        find_org OrgID orgId w = Some (org, o) → Appointments o !! id = Some a →
        FlowToken a ≠ submissionToken flowData) →
     updateAppointmentFeedback env flowData orgId w = (Some tt, w))
  ∧ (∃ w',
       updateAppointmentFeedback env flowData orgId w = (Some tt, w')
       ∧ PoC w' = PoC w ∧ sent w' = sent w
       ∧ (∀ k o id a,
            Organisation w !! k = Some o → Appointments o !! id = Some a →
            ∃ o' a',
              Organisation w' !! k = Some o' ∧ Appointments o' !! id = Some a'
              ∧ (a' = a
                 ∨ (FlowToken a = submissionToken flowData
                    ∧ OrgID o = Some orgId
                    ∧ a' = set_feedback (feedbackOf env flowData (clock_reads w)) a)))
       ∧ (∀ k o,
            Organisation w !! k = Some o →
            ∃ o', Organisation w' !! k = Some o'
                  ∧ (Notifications o' = Notifications o
                     ∨ ∃ n, Notifications o' = Notifications o ++ [n]
                            ∧ n_event n = "Feedback")))
  ∧ (∀ org o id a,
       find_org OrgID orgId w = Some (org, o) → Appointments o !! id = Some a →
       FlowToken a = submissionToken flowData →
       ∃ w' o' id' a' n,
         updateAppointmentFeedback env flowData orgId w = (Some tt, w')
         ∧ Appointments o !! id' = Some a' ∧ FlowToken a' = submissionToken flowData
         ∧ (∀ id'' a'',
              Appointments o !! id'' = Some a'' →
              FlowToken a'' = submissionToken flowData → String.leb id' id'' = true)
         ∧ Organisation w' !! org = Some o'
         ∧ Appointments o' =
             <[id' := set_feedback (feedbackOf env flowData (clock_reads w)) a']>
               (Appointments o)
         ∧ feedback <$> Appointments o' !! id'
           = Some (Some (feedbackOf env flowData (clock_reads w)))
         ∧ Notifications o' = Notifications o ++ [n] ∧ n_event n = "Feedback").
Proof.
  pose proof (updateAppointmentFeedback_run env flowData orgId w) as Hrun.
  split; [|split; [|split]].
  - split.
    + intros s Hs Hne. unfold submissionToken, or_else. rewrite Hs. by destruct s.
    + unfold submissionToken, or_else, falsy.
      destruct (flowData !! "flow_token") as [[|c s]|]; done.
  - intros Hnone. destruct (find_org OrgID orgId w) as [[org o]|] eqn:Horg; [|done].
    destruct (find_appointment _ _) as [[id a]|] eqn:Hapt; [|done].
    apply find_appointment_Some in Hapt as (Ha & Htok).
    by destruct (Hnone org o id a eq_refl Ha).
  - destruct (find_org OrgID orgId w) as [[org o]|] eqn:Horg.
    2:{ exists w. split; [done|]. split; [done|]. split; [done|].
        split; [intros k o id a Ho Ha; exists o, a; auto | intros k o Ho; exists o; auto]. }
    destruct (find_appointment _ _) as [[id a]|] eqn:Hapt.
    2:{ exists w. split; [done|]. split; [done|]. split; [done|].
        split; [intros k o0 id a Ho Ha; exists o0, a; auto | intros k o0 Ho; exists o0; auto]. }
    destruct Hrun as (n & -> & Hev & _).
    apply find_org_Some in Horg as (Ho & Horgid).
    apply find_appointment_Some in Hapt as (Ha & Htok).
    assert (org < length (Organisation w)) as Hlen by (by eapply lookup_lt_Some).
    eexists. split; [done|]. wsimpl. split; [done|]. split; [done|]. split.
    + intros k o0 id0 a0 Ho0 Ha0. destruct (decide (k = org)) as [->|Hk].
      * rewrite Ho in Ho0. injection Ho0 as <-.
        rewrite list_lookup_insert_eq by done.
        destruct (decide (id0 = id)) as [->|Hid].
        -- eexists _, _. split; [done|].
           cbn [Appointments set_Notifications set_Appointments].
           rewrite lookup_insert_eq. split; [done|]. right.
           rewrite Ha in Ha0. injection Ha0 as <-.
           split; [exact Htok | split; [exact Horgid | reflexivity]].
        -- eexists _, a0. split; [done|].
           cbn [Appointments set_Notifications set_Appointments].
           rewrite lookup_insert_ne by congruence. split; [done|]. by left.
      * rewrite list_lookup_insert_ne by congruence. exists o0, a0. auto.
    + intros k o0 Ho0. destruct (decide (k = org)) as [->|Hk].
      * rewrite Ho in Ho0. injection Ho0 as <-.
        rewrite list_lookup_insert_eq by done. eexists. split; [done|].
        right. by exists n.
      * rewrite list_lookup_insert_ne by congruence. exists o0. auto.
  - intros org o id a Horg Ha Htok. rewrite Horg in Hrun.
    destruct (find_appointment _ _) as [[id' a']|] eqn:Hapt.
    2:{ rewrite find_appointment_None in Hapt. by destruct (Hapt id a Ha). }
    destruct Hrun as (n & -> & Hev & _).
    apply find_org_Some in Horg as (Ho & _).
    pose proof (find_appointment_first _ _ _ _ Hapt) as Hfirst.
    apply find_appointment_Some in Hapt as (Ha' & Htok').
    eexists _, _, id', a', n. split; [done|]. split; [done|]. split; [done|].
    split; [exact Hfirst|]. wsimpl.
    split; [apply list_lookup_insert_eq; by eapply lookup_lt_Some|].
    cbn [Appointments set_Notifications set_Appointments Notifications].
    split; [done|]. split; [by rewrite lookup_insert_eq | done].
Qed.

Lemma C4_feedback_correlation_witness :
  updateAppointmentFeedback env0 (feedback_form "654321") "Acme" world1 = (Some tt, world1)
  ∧ ∃ w' o' id' a' n,
      updateAppointmentFeedback env0 (feedback_form "123456") "Acme" world1 = (Some tt, w')
      ∧ Appointments acme_booked !! id' = Some a'
      ∧ FlowToken a' = submissionToken (feedback_form "123456")
      ∧ (∀ id'' a'',
           Appointments acme_booked !! id'' = Some a'' →
           FlowToken a'' = submissionToken (feedback_form "123456") →
           String.leb id' id'' = true)
      ∧ Organisation w' !! 0 = Some o'
      ∧ Appointments o' =
          <[id' := set_feedback (feedbackOf env0 (feedback_form "123456")
                                   (clock_reads world1)) a']> (Appointments acme_booked)
      ∧ feedback <$> Appointments o' !! id'
        = Some (Some (feedbackOf env0 (feedback_form "123456") (clock_reads world1)))
      ∧ Notifications o' = Notifications acme_booked ++ [n] ∧ n_event n = "Feedback".
Proof.
  assert (find_org OrgID "Acme" world1 = Some (0, acme_booked)) as Horg by reflexivity.
  split.
  - destruct (C4_feedback_correlation env0 (feedback_form "654321") "Acme" world1)
      as (_ & H & _).
    apply H. intros org o id a Hfind Ha. rewrite Horg in Hfind. injection Hfind as <- <-.
    unfold acme_booked in Ha. cbn [Appointments set_Appointments] in Ha.
    apply lookup_singleton_Some in Ha as [<- <-]. by vm_compute.
  - destruct (C4_feedback_correlation env0 (feedback_form "123456") "Acme" world1)
      as (_ & _ & _ & H).
    apply (H 0 acme_booked "APT-00000001" booked Horg); reflexivity.
Defined.

(** ** Outbound messages *)

Lemma sendWhatsAppMessage_frame env (to : string) (message : option string)
    (orgId : string) (w : World) :
  ∃ b w',
    sendWhatsAppMessage env to message orgId w = (Some b, w')
    ∧ PoC w' = PoC w ∧ Organisation w' = Organisation w
    ∧ llm_calls w' = llm_calls w ∧ clock_reads w' = clock_reads w
    ∧ random_draws w' = random_draws w.
Proof.
  cbv [sendWhatsAppMessage loadOrganizationConfig bind get_world ret modify post].
  destruct (organizationConfigs w !! orgId) as [cfg|];
    [|destruct (find_org OrgID orgId w) as [[org o]|]]; wsimpl.
  - destruct (negb _ || negb _); by eexists _, _.
  - match goal with |- context [if ?b then _ else _] => destruct b end; by eexists _, _.
  - by eexists _, _.
Qed.

Lemma sendWhatsAppMessage_cached env (to : string) (message : option string)
    (orgId : string) (w : World) (orgConfig : OrgConfig) :
  organizationConfigs w !! orgId = Some orgConfig →
  sendWhatsAppMessage env to message orgId w =
    if Js.truthy (whatsappToken orgConfig) && Js.truthy (whatsappPhoneId orgConfig)
    then (Some (env_post env (text_message orgConfig to message)),
          set_sent (sent w ++ [text_message orgConfig to message]) w)
    else (Some false, w).
Proof.
  intros Hc.
  cbv [sendWhatsAppMessage loadOrganizationConfig bind get_world ret modify post].
  rewrite Hc. by destruct (Js.truthy (whatsappToken orgConfig)),
                          (Js.truthy (whatsappPhoneId orgConfig)).
Qed.

(** ** Form dispatch *)

Lemma falsy_has_value (flowData : FlowData) (key : string) :
  falsy (flowData !! key) = false ↔ has_value flowData key.
Proof.
  unfold falsy, has_value. destruct (flowData !! key) as [s|]; split.
  - intros H. exists s. split; [done|]. by destruct s.
  - intros (s' & [= <-] & Hs). by destruct s.
  - done.
  - by intros (s & ? & _).
Qed.

Lemma falsy_not_has_value (flowData : FlowData) (key : string) :
  falsy (flowData !! key) = true ↔ ¬ has_value flowData key.
Proof.
  rewrite <- falsy_has_value. by destruct (falsy _).
Qed.

#[local] Instance records_kept_preorder : PreOrder records_kept.
Proof.
  split.
  - by intros w k.
  - intros w1 w2 w3 H12 H23 k. destruct (H12 k) as (? & ? & ?), (H23 k) as (? & ? & ?).
    repeat split; congruence.
Qed.

Lemma records_kept_same (w w' : World) :
  Organisation w' = Organisation w → records_kept w w'.
Proof. intros H k. by rewrite H. Qed.

Lemma records_kept_alter (w : World) (i : nat) (f : OrgDoc → OrgDoc) :
  (∀ o, Appointments (f o) = Appointments o ∧ Tickets (f o) = Tickets o
        ∧ Checkins (f o) = Checkins o) →
  records_kept w (set_Organisation (alter f i (Organisation w)) w).
Proof.
  intros Hf k. wsimpl. destruct (decide (k = i)) as [->|Hk].
  - rewrite list_lookup_alter_eq. destruct (Organisation w !! i) as [o|]; [|done].
    simpl. destruct (Hf o) as (-> & -> & ->). done.
  - by rewrite list_lookup_alter_ne.
Qed.

Lemma getOrCreatePoCByPhone_records env (phone contactName orgId : string) (w : World) :
  records_kept w (getOrCreatePoCByPhone env phone contactName orgId w).2.
Proof.
  apply (getOrCreatePoCByPhone_preserves records_kept (λ _ _, True)
           (λ o o', Appointments o' = Appointments o ∧ Tickets o' = Tickets o
                    ∧ Checkins o' = Checkins o));
    try (intros; by apply records_kept_same); try done.
  intros w0 i f Hf. by apply records_kept_alter.
Qed.

Lemma handleNfmReply_registration env (orgId : string) (orgConfig : OrgConfig)
    (contactName fromUser rawJson : string) (flowData : FlowData) (w : World) :
  env_JSON_parse env rawJson = JsonObject flowData →
  has_value flowData "screen_0_Full_Name_0" →
  ∃ pocRef w' d',
    handleNfmReply env orgId orgConfig contactName fromUser rawJson w = (Some 200, w')
    ∧ PoC w' !! pocRef = Some d'
    ∧ poc_Phone d' = fromUser ∧ addedBy d' = Some orgId
    ∧ registered d' = Some true
    ∧ poc_Name d' = or_else (flowData !! "screen_0_Full_Name_0") ""
    ∧ records_kept w w'.
Proof.
  intros Hparse Hname. unfold handleNfmReply. rewrite Hparse.
  unfold flowOf. apply falsy_has_value in Hname. rewrite Hname. cbn [negb].
  destruct (getOrCreatePoCByPhone_found env fromUser contactName orgId w)
    as (pocRef & w1 & d1 & Hrun1 & Hf1 & _).
  pose proof (getOrCreatePoCByPhone_records env fromUser contactName orgId w) as Hrec1.
  rewrite Hrun1 in Hrec1. cbn [snd] in Hrec1.
  apply find_poc_Some in Hf1 as (Hd1 & Hp1 & Ha1).
  unfold bind at 1. rewrite Hrun1. cbv zeta.
  unfold bind at 1. rewrite (saveChatToPoC_run env _ _ _ _ _ _ _ _ d1) by done.
  set (d2 := set_lastSeen _ _). set (w2 := set_PoC _ _).
  assert (PoC w2 !! pocRef = Some d2) as Hd2.
  { unfold w2. wsimpl. apply list_lookup_insert_eq. by eapply lookup_lt_Some. }
  assert (records_kept w1 w2) as Hrec2 by (by apply records_kept_same).
  destruct (processWelcomeFormSubmission_run env pocRef flowData orgId w2 d2 Hd2)
    as (w3 & d3 & Hrun3 & Hd3 & Hreg3 & Hname3 & _ & Hp3 & Ha3 & _ & _ & _ & HA & HT & HC).
  unfold bind at 1. rewrite Hrun3.
  destruct (sendWhatsAppMessage_frame env fromUser
              (Some "Thank you for completing your registration! You can now use our services.")
              orgId w3) as (b & w4 & Hrun4 & HPoC4 & Horg4 & _).
  unfold bind at 1. rewrite Hrun4.
  assert (PoC w4 !! pocRef = Some d3) as Hd4 by (by rewrite HPoC4).
  unfold bind at 1. rewrite (saveChatToPoC_run env _ _ _ _ _ _ _ _ d3) by done.
  unfold ret. eexists pocRef, _, _. split; [done|]. wsimpl.
  split; [apply list_lookup_insert_eq; by eapply lookup_lt_Some|].
  cbn. split; [by rewrite Hp3 | ]. split; [by rewrite Ha3|].
  split; [done|]. split; [done|].
  transitivity w1; [done|]. transitivity w2; [done|].
  intros k. wsimpl. rewrite Horg4. by rewrite HA, HT, HC.
Qed.

(** C5. The dispatch tests the value of the Full Name field, not its
    presence, although the comment on the branch speaks of a form that
    contains the field: a payload that holds the key with an empty value
    next to a feedback marker is handled as feedback, and a registration
    form whose name was left empty is handled as an appointment booking and
    ends in an error; in both runs the contact stays unregistered and no
    registration acknowledgment is sent. *)
Theorem C5_empty_name_dispatch :
  (is_Some (ambiguous_form !! "screen_0_Full_Name_0")
   ∧ flowOf ambiguous_form = FeedbackFlow
   ∧ (webhookPost (env_forms ambiguous_form) (nfm_request "Acme" "{}") (world0 true)).1
     = Some 200
   ∧ registered <$>
       PoC (webhookPost (env_forms ambiguous_form) (nfm_request "Acme" "{}") (world0 true)).2
       !! 0 = Some (Some false)
   ∧ sentTexts (webhookPost (env_forms ambiguous_form) (nfm_request "Acme" "{}")
                  (world0 true)).2
     = [Some "Thank you for your feedback!"])
  ∧ (is_Some (nameless_registration !! "screen_0_Full_Name_0")
     ∧ flowOf nameless_registration = AppointmentFlow
     ∧ (webhookPost (env_forms nameless_registration) (nfm_request "Acme" "{}")
          (world0 true)).1 = Some 500
     ∧ registered <$>
         PoC (webhookPost (env_forms nameless_registration) (nfm_request "Acme" "{}")
                (world0 true)).2 !! 0 = Some (Some false)
     ∧ sentTexts (webhookPost (env_forms nameless_registration) (nfm_request "Acme" "{}")
                    (world0 true)).2 = []).
Proof.
  split.
  - split; [by eexists|]. split; [by vm_compute|]. split; [by vm_compute|].
    split; by vm_compute.
  - split; [by eexists|]. split; [by vm_compute|]. split; [by vm_compute|].
    split; by vm_compute.
Qed.

(** ** Knowledge lookup *)

Lemma matchingLines_spec (userQuery knowledgeText line : string) :
  line ∈ matchingLines userQuery knowledgeText ↔
  line ∈ Js.split (ascii_of_nat 10) knowledgeText
  ∧ contains (Js.toLowerCase line) (Js.toLowerCase userQuery).
Proof.
  unfold matchingLines. rewrite list_elem_of_In, filter_In, <- list_elem_of_In.
  by rewrite includes_contains.
Qed.

Lemma loadKnowledgeBase_cached env (orgId : string) (w : World) (text : string) :
  knowledgeCache w !! orgId = Some text →
  loadKnowledgeBase env orgId w = (Some text, w).
Proof.
  intros Hc. cbv [loadKnowledgeBase try_catch bind get_world ret]. by rewrite Hc.
Qed.

Lemma loadOrganizationConfig_cached (orgId : string) (w : World) (orgConfig : OrgConfig) :
  organizationConfigs w !! orgId = Some orgConfig →
  loadOrganizationConfig orgId w = (Some (Some orgConfig), w).
Proof.
  intros Hc. cbv [loadOrganizationConfig bind get_world ret]. by rewrite Hc.
Qed.

Lemma refineKnowledgeWithGpt_run env (userQuery : string) (matchedLines : list string)
    (orgConfig : OrgConfig) (w : World) :
  refineKnowledgeWithGpt env userQuery matchedLines (Some orgConfig) w =
    (Some (match env_llm env (llm_calls w)
                   (refine_request (orgName orgConfig) userQuery matchedLines) with
           | LlmChoice content _ => or_else content (Js.join nl matchedLines)
           | _ => Js.join nl matchedLines
           end),
     set_llm_calls
       (llm_calls w ++ [refine_request (orgName orgConfig) userQuery matchedLines]) w).
Proof.
  cbv [refineKnowledgeWithGpt try_catch bind orgName_of ret createChatCompletion].
  by destruct (env_llm _ _ _).
Qed.

Lemma checkKnowledgeFullWithGpt_run env (userQuery text : string)
    (orgConfig : OrgConfig) (w : World) :
  checkKnowledgeFullWithGpt env userQuery text (Some orgConfig) w =
    (Some (let reply := replyOf (env_llm env (llm_calls w)
                                   (full_request (orgName orgConfig) userQuery text)) in
           if nothingFound reply then EmptyString else reply),
     set_llm_calls (llm_calls w ++ [full_request (orgName orgConfig) userQuery text]) w).
Proof.
  cbv [checkKnowledgeFullWithGpt try_catch bind orgName_of ret createChatCompletion].
  destruct (env_llm _ _ _) as [| |[content|] fc]; cbn [mbind option_bind fst fmap option_fmap option_map replyOf]; try done.
  fold (nothingFound (or_else (Some (Js.trim content)) "")).
  by destruct (nothingFound _).
Qed.

Lemma nothingFound_spec (reply : string) :
  nothingFound reply = true ↔
  contains (Js.toLowerCase reply) "no relevant info"
  ∨ contains (Js.toLowerCase reply) "no relevant information"
  ∨ contains (Js.toLowerCase reply) "nothing relevant"
  ∨ String.length reply < 4.
Proof.
  unfold nothingFound. rewrite !orb_true_iff, !includes_contains, Nat.ltb_lt. tauto.
Qed.

Lemma knowledgeLookupImpl_run env (userQuery orgId knowledgeText : string)
    (orgConfig : OrgConfig) (w : World) :
  knowledgeCache w !! orgId = Some knowledgeText →
  organizationConfigs w !! orgId = Some orgConfig →
  knowledgeLookupImpl env userQuery orgId w =
    if unusableKnowledge knowledgeText
    then (Some ("No knowledge base loaded for " +:+ tenantName (Some orgConfig) orgId
                +:+ ". Sorry."), w)
    else if decide (0 < length (matchingLines userQuery knowledgeText))
    then refineKnowledgeWithGpt env userQuery (matchingLines userQuery knowledgeText)
           (Some orgConfig) w
    else
      (Some (let fallbackReply :=
               let reply := replyOf (env_llm env (llm_calls w)
                              (full_request (orgName orgConfig) userQuery knowledgeText)) in
               if nothingFound reply then EmptyString else reply in
             if Js.truthy fallbackReply && (0 <? String.length (Js.trim fallbackReply))
             then fallbackReply
             else noInfoMessage (tenantName (Some orgConfig) orgId)),
       set_llm_calls
         (llm_calls w ++ [full_request (orgName orgConfig) userQuery knowledgeText]) w).
Proof.
  intros Hk Hc. unfold knowledgeLookupImpl.
  unfold bind at 1. rewrite (loadKnowledgeBase_cached env _ _ knowledgeText) by done.
  unfold bind at 1. rewrite (loadOrganizationConfig_cached _ _ orgConfig) by done.
  fold (unusableKnowledge knowledgeText).
  destruct (unusableKnowledge knowledgeText); [done|].
  fold (matchingLines userQuery knowledgeText).
  destruct (decide (0 < length (matchingLines userQuery knowledgeText))); [done|].
  unfold bind. rewrite checkKnowledgeFullWithGpt_run. cbv zeta.
  unfold noInfoMessage, ret. by destruct (_ && _).
Qed.

(** C6, as stated, fails: a loaded text whose first words are the
    loader's failure prefix is not searched at all, although one of its lines
    matches the query. *)
Lemma C6_counterexample :
  "Visiting hours: 9am-5pm" ∈ Js.split (ascii_of_nat 10) guarded_text
  ∧ "Visiting hours: 9am-5pm" ∈ matchingLines "visiting hours" guarded_text
  ∧ knowledgeLookupImpl (env_summary "We are open from 9am to 5pm.") "visiting hours" "Acme"
      (world_kb guarded_text)
    = (Some "No knowledge base loaded for Acme Clinic. Sorry.", world_kb guarded_text).
Proof.
  split; [|split].
  - apply list_elem_of_In. vm_compute. tauto.
  - apply list_elem_of_In. vm_compute. tauto.
  - by vm_compute.
Qed.

(** C6, amended. For a loaded text that is not empty and does not start
    with "Error" or "No knowledge": the query is matched, ignoring case, as
    a substring of every line; when some line matches, exactly one LLM
    request is made, built from the matched lines, and its content is the
    answer, the matched lines joined by newlines standing in when the call
    fails, gives no choice or gives an empty content; only when no line
    matches is the whole text sent to the LLM, and a reply that holds one of
    the fixed phrases or is shorter than 4 characters gives the fixed
    message naming the tenant.  A text that is empty or starts with one of
    the two prefixes gives the fixed "no knowledge base" message without any
    LLM request. *)
Theorem C6_knowledge_lookup env (userQuery orgId knowledgeText : string)
    (orgConfig : OrgConfig) (w : World) :
  knowledgeCache w !! orgId = Some knowledgeText →
  organizationConfigs w !! orgId = Some orgConfig →
  (∀ line, line ∈ matchingLines userQuery knowledgeText ↔
           line ∈ Js.split (ascii_of_nat 10) knowledgeText
           ∧ contains (Js.toLowerCase line) (Js.toLowerCase userQuery))
  ∧ ("Visiting hours: 9am-5pm" ∈ Js.split (ascii_of_nat 10) knowledgeText →
     "Visiting hours: 9am-5pm" ∈ matchingLines "visiting hours" knowledgeText)
  ∧ (unusableKnowledge knowledgeText = true →
     knowledgeLookupImpl env userQuery orgId w =
       (Some ("No knowledge base loaded for " +:+ tenantName (Some orgConfig) orgId
              +:+ ". Sorry."), w))
  ∧ (unusableKnowledge knowledgeText = false →
     matchingLines userQuery knowledgeText ≠ [] →
     knowledgeLookupImpl env userQuery orgId w =
       (Some (match env_llm env (llm_calls w)
                      (refine_request (orgName orgConfig) userQuery
                         (matchingLines userQuery knowledgeText)) with
              | LlmChoice content _ =>
                  or_else content (Js.join nl (matchingLines userQuery knowledgeText))
              | _ => Js.join nl (matchingLines userQuery knowledgeText)
              end),
        set_llm_calls
          (llm_calls w ++ [refine_request (orgName orgConfig) userQuery
                             (matchingLines userQuery knowledgeText)]) w))
  ∧ (unusableKnowledge knowledgeText = false →
     matchingLines userQuery knowledgeText = [] →
     ∃ answer,
       knowledgeLookupImpl env userQuery orgId w =
         (Some answer,
          set_llm_calls
            (llm_calls w ++ [full_request (orgName orgConfig) userQuery knowledgeText]) w)
       ∧ (nothingFound (replyOf (env_llm env (llm_calls w)
                          (full_request (orgName orgConfig) userQuery knowledgeText))) = true →
          answer = noInfoMessage (tenantName (Some orgConfig) orgId)))
  ∧ (∀ reply, nothingFound reply = true ↔
              contains (Js.toLowerCase reply) "no relevant info"
              ∨ contains (Js.toLowerCase reply) "no relevant information"
              ∨ contains (Js.toLowerCase reply) "nothing relevant"
              ∨ String.length reply < 4)
  ∧ contains (noInfoMessage (tenantName (Some orgConfig) orgId))
      (tenantName (Some orgConfig) orgId).
Proof.
  intros Hk Hc.
  pose proof (knowledgeLookupImpl_run env userQuery orgId knowledgeText orgConfig w Hk Hc)
    as Hrun.
  split; [apply matchingLines_spec|]. split.
  { intros Hline. apply matchingLines_spec. split; [done|].
    apply includes_contains. reflexivity. }
  split. { intros Hg. by rewrite Hg in Hrun. }
  split.
  { intros Hg Hm. rewrite Hg in Hrun. rewrite decide_True in Hrun.
    - by rewrite refineKnowledgeWithGpt_run in Hrun.
    - destruct (matchingLines userQuery knowledgeText); [done | simpl; lia]. }
  split.
  { intros Hg Hm. rewrite Hg in Hrun. rewrite decide_False in Hrun by (rewrite Hm; simpl; lia).
    eexists. split; [exact Hrun|]. intros Hbad. cbv zeta. by rewrite Hbad. }
  split; [apply nothingFound_spec|].
  unfold noInfoMessage.
  by exists "No direct info found in the knowledge base. Please ask more about ", "!".
Qed.

Lemma C6_knowledge_lookup_witness :
  unusableKnowledge plain_text = false
  ∧ matchingLines "visiting hours" plain_text = ["Visiting hours: 9am-5pm"]
  ∧ knowledgeLookupImpl (env_summary "We are open from 9am to 5pm.") "visiting hours" "Acme"
      (world_kb plain_text)
    = (Some "We are open from 9am to 5pm.",
       set_llm_calls [refine_request "Acme Clinic" "visiting hours"
                        ["Visiting hours: 9am-5pm"]] (world_kb plain_text)).
Proof.
  assert (unusableKnowledge plain_text = false) as Hg by reflexivity.
  assert (matchingLines "visiting hours" plain_text = ["Visiting hours: 9am-5pm"]) as Hm
    by reflexivity.
  split; [exact Hg|]. split; [exact Hm|].
  destruct (C6_knowledge_lookup (env_summary "We are open from 9am to 5pm.")
              "visiting hours" "Acme" plain_text acme_config (world_kb plain_text)
              eq_refl eq_refl) as (_ & _ & _ & H & _).
  rewrite H; [by rewrite Hm | exact Hg | by rewrite Hm].
Defined.

(** ** Random ids *)

Lemma generate_from_run env (chars : string) (n : nat) (w : World) :
  generate_from env chars n w =
    (Some (drawn env chars n (random_draws w)), set_random_draws (n + random_draws w) w).
Proof.
  revert w. induction n as [|n IH]; intros w.
  - cbv [generate_from ret]. simpl. f_equal. by destruct w.
  - cbn [generate_from]. unfold bind at 1, random_index.
    unfold bind at 1. rewrite IH. unfold ret. cbn [random_draws set_random_draws drawn].
    f_equal. apply world_ext; wsimpl; try reflexivity. lia.
Qed.

Lemma get_lt (i : nat) (s : string) : i < String.length s → is_Some (String.get i s).
Proof.
  revert i. induction s as [|c s IH]; intros i Hi; simpl in *; [lia|].
  destruct i as [|i]; [by eexists | apply IH; lia].
Qed.

Lemma drawn_length env (chars : string) (n k : nat) :
  0 < String.length chars → String.length (drawn env chars n k) = n.
Proof.
  intros Hc. revert k. induction n as [|n IH]; intros k; [done|]. simpl.
  destruct (get_lt (env_random env k `mod` String.length chars) chars) as [c ->].
  - apply Nat.mod_upper_bound. lia.
  - simpl. by rewrite IH.
Qed.

Lemma drawn_chars env (chars : string) (n k i : nat) (c : ascii) :
  String.get i (drawn env chars n k) = Some c → ∃ j, String.get j chars = Some c.
Proof.
  revert k i. induction n as [|n IH]; intros k i Hget; [done|]. simpl in Hget.
  destruct (String.get _ chars) as [c'|] eqn:Hc; [|by eapply IH].
  destruct i as [|i]; simpl in Hget; [|by eapply IH].
  injection Hget as <-. by eexists.
Qed.

Lemma alphabet_alphanumeric (j : nat) (c : ascii) :
  String.get j alphabet = Some c → alphanumeric c = true.
Proof.
  unfold alphabet. intros H.
  do 62 (destruct j as [|j]; [injection H as <-; reflexivity|]; simpl in H).
  done.
Qed.

(** The ids of [generateId 8]: eight letters or digits. *)
Lemma generateId_run env (w : World) :
  generateId env 8 w =
    (Some (drawn env alphabet 8 (random_draws w)), set_random_draws (8 + random_draws w) w)
  ∧ String.length (drawn env alphabet 8 (random_draws w)) = 8
  ∧ ∀ i c, String.get i (drawn env alphabet 8 (random_draws w)) = Some c →
           alphanumeric c = true.
Proof.
  split; [apply generate_from_run|]. split.
  - apply drawn_length. unfold alphabet. simpl. lia.
  - intros i c Hget. apply drawn_chars in Hget as [j Hj]. by eapply alphabet_alphanumeric.
Qed.

(** ** Check-in *)

Lemma find_org_ext (field : OrgDoc → option string) (v : string) (w w' : World) :
  Organisation w' = Organisation w → find_org field v w' = find_org field v w.
Proof. unfold find_org. by intros ->. Qed.

Lemma createCheckinDoc_run env (pocRef : nat) (userPhone orgId : string) (w : World)
    (org : nat) (o : OrgDoc) :
  find_org OrgID orgId w = Some (org, o) →
  createCheckinDoc env pocRef userPhone orgId w =
    (Some tt,
     let checkinId := "CHK-" +:+ drawn env alphabet 8 (random_draws w) in
     set_Organisation
       (<[org := set_Notifications
                   (Notifications o ++
                    [checkinNotification env checkinId pocRef userPhone
                       (or_else (poc_Name <$> PoC w !! pocRef) "User") (S (clock_reads w))])
                   (set_Checkins
                      (<[checkinId := checkinDoc env checkinId pocRef userPhone orgId
                                        (clock_reads w)]> (Checkins o)) o)]>
          (Organisation w))
       (set_clock_reads (S (S (clock_reads w)))
          (set_random_draws (8 + random_draws w) w))).
Proof.
  intros Horg. pose proof Horg as Horg'. apply find_org_Some in Horg' as (Ho & _).
  cbv [createCheckinDoc bind getOrganisationRef get_world ret]. rewrite Horg.
  cbn [fmap option_fmap option_map fst].
  cbv [poc_get bind get_world ret].
  destruct (generateId_run env w) as (Hgen & _). rewrite Hgen.
  cbv [getCurrentIndianTime org_write createNotification modify bind get_world ret].
  wsimpl. f_equal. apply world_ext; wsimpl; try reflexivity.
  rewrite (list_alter_insert _ org (Organisation w) o) by done.
  erewrite list_alter_insert
    by (apply list_lookup_insert_eq; by eapply lookup_lt_Some).
  by rewrite list_insert_insert_eq.
Qed.

Lemma checkinCommand_startsWith (userText orgId : string) :
  checkinCommand userText orgId = true → Js.startsWith userText "Checkin:" = true.
Proof. unfold checkinCommand. by intros [H _]%andb_true_iff. Qed.

(** The state after a check-in command has been handled. *)
Lemma handleText_checkin env (orgId : string) (orgConfig : OrgConfig) (pocRef : nat)
    (from : string) (body : option string) (w : World) (d : PoCDoc) (org : nat) (o : OrgDoc) :
  PoC w !! pocRef = Some d →
  organizationConfigs w !! orgId = Some orgConfig →
  find_org OrgID orgId w = Some (org, o) →
  checkinCommand (or_else body "") orgId = true →
  ∃ w' d',
    handleText env orgId orgConfig pocRef from body w = (Some 200, w')
    ∧ Organisation w' =
        (let checkinId := "CHK-" +:+ drawn env alphabet 8 (random_draws w) in
         <[org := set_Notifications
                    (Notifications o ++
                     [checkinNotification env checkinId pocRef from
                        (or_else (Some (poc_Name d)) "User") (S (S (S (clock_reads w))))])
                    (set_Checkins
                       (<[checkinId := checkinDoc env checkinId pocRef from orgId
                                         (S (S (clock_reads w)))]> (Checkins o)) o)]>
           (Organisation w))
    ∧ sent w' =
        sent w ++
        (if Js.truthy (whatsappToken orgConfig) && Js.truthy (whatsappPhoneId orgConfig)
         then [text_message orgConfig from (Some (checkinAck orgConfig))] else [])
    ∧ llm_calls w' = llm_calls w
    ∧ PoC w' !! pocRef = Some d'
    ∧ Chat d' =
        Chat d ++
        [chat_entry env (clock_reads w) "inbound" from (whatsappPhoneId orgConfig) "text"
           (Some (or_else body "")) None;
         chat_entry env (S (S (S (S (clock_reads w))))) "outbound"
           (whatsappPhoneId orgConfig) from "text" (Some (checkinAck orgConfig)) None]
    ∧ chatState d' = chatState d.
Proof.
  intros Hd Hcfg Horg Hcmd. unfold handleText. cbv zeta.
  fold (checkinCommand (or_else body "") orgId). rewrite Hcmd.
  rewrite (checkinCommand_startsWith _ _ Hcmd). cbn [negb andb].
  unfold bind at 1. rewrite (saveChatToPoC_run env _ _ _ _ _ _ _ _ d) by done.
  set (d1 := set_lastSeen _ _). set (w1 := set_PoC _ _).
  assert (PoC w1 !! pocRef = Some d1) as Hd1.
  { unfold w1. wsimpl. apply list_lookup_insert_eq. by eapply lookup_lt_Some. }
  unfold bind at 1, ret at 1.
  unfold bind at 1.
  rewrite (createCheckinDoc_run env pocRef from orgId w1 org o)
    by (by rewrite (find_org_ext _ _ w)).
  cbv zeta. set (w2 := set_Organisation _ _).
  unfold bind at 1, checkinAck.
  rewrite (sendWhatsAppMessage_cached env _ _ _ w2 orgConfig) by done.
  fold (checkinAck orgConfig).
  assert (∀ b ws, PoC ws = PoC w2 → sent ws = sent w ++
             (if Js.truthy (whatsappToken orgConfig) && Js.truthy (whatsappPhoneId orgConfig)
              then [text_message orgConfig from (Some (checkinAck orgConfig))] else []) →
             Organisation ws = Organisation w2 → llm_calls ws = llm_calls w →
             clock_reads ws = clock_reads w2 →
             ∃ w' d',
               (let (o0, w') := (Some b, ws) : option bool * World in
                match o0 with
                | Some a =>
                    (saveChatToPoC env pocRef "outbound" (whatsappPhoneId orgConfig) from
                       "text" (Some (checkinAck orgConfig)) None;; ret 200) w'
                | None => (None, w')
                end) = (Some 200, w')
               ∧ Organisation w' = Organisation w2
               ∧ sent w' = sent w ++
                   (if Js.truthy (whatsappToken orgConfig)
                       && Js.truthy (whatsappPhoneId orgConfig)
                    then [text_message orgConfig from (Some (checkinAck orgConfig))] else [])
               ∧ llm_calls w' = llm_calls w
               ∧ PoC w' !! pocRef = Some d'
               ∧ Chat d' = Chat d1 ++
                   [chat_entry env (clock_reads w2) "outbound" (whatsappPhoneId orgConfig)
                      from "text" (Some (checkinAck orgConfig)) None]
               ∧ chatState d' = chatState d1) as Hlast.
  { intros b ws HPoC Hsent Horgs Hllm Hclock. cbv iota beta.
    unfold bind. rewrite (saveChatToPoC_run env _ _ _ _ _ _ _ _ d1)
      by (rewrite HPoC; unfold w2; wsimpl; done).
    unfold ret. eexists _, _. split; [done|]. wsimpl.
    split; [done|]. split; [done|]. split; [done|].
    split; [apply list_lookup_insert_eq; rewrite HPoC; unfold w2; wsimpl;
            by eapply lookup_lt_Some|].
    cbn [Chat set_lastSeen set_Chat chatState]. by rewrite Hclock. }
  destruct (Js.truthy (whatsappToken orgConfig) && Js.truthy (whatsappPhoneId orgConfig)).
  - destruct (Hlast (env_post env (text_message orgConfig from (Some (checkinAck orgConfig))))
                (set_sent (sent w2 ++ [text_message orgConfig from
                                         (Some (checkinAck orgConfig))]) w2))
      as (w' & d' & Hrun & Ho' & Hs' & Hl' & Hd' & Hc' & Hst'); try done.
    exists w', d'. split; [exact Hrun|]. rewrite Ho', Hs', Hl'.
    split; [|split; [done|split; [done|split; [done|]]]].
    + unfold w2. wsimpl. rewrite Hd1. unfold w1, d1. wsimpl. done.
    + rewrite Hc', Hst'. unfold d1, w2, w1. wsimpl.
      cbn [Chat set_lastSeen set_Chat chatState]. by rewrite <- app_assoc.
  - destruct (Hlast false w2) as (w' & d' & Hrun & Ho' & Hs' & Hl' & Hd' & Hc' & Hst');
      try done.
    { unfold w2, w1. wsimpl. by rewrite app_nil_r. }
    exists w', d'. split; [exact Hrun|]. rewrite Ho', Hs', Hl'.
    split; [|split; [done|split; [done|split; [done|]]]].
    + unfold w2. wsimpl. rewrite Hd1. unfold w1, d1. wsimpl. done.
    + rewrite Hc', Hst'. unfold d1, w2, w1. wsimpl.
      cbn [Chat set_lastSeen set_Chat chatState]. by rewrite <- app_assoc.
Qed.

(** The state in which a text that is no check-in command reaches the
    BotMode check: the inbound entry is in the transcript, and at most one
    notification, of kind "Message", has been written. *)
Lemma handleText_fallthrough env (orgId : string) (orgConfig : OrgConfig) (pocRef : nat)
    (from : string) (body : option string) (w : World) (d : PoCDoc) :
  PoC w !! pocRef = Some d →
  checkinCommand (or_else body "") orgId = false →
  ∃ w2 d2,
    handleText env orgId orgConfig pocRef from body w =
      (if bool_decide (BotMode d = Some false) then (Some 200, w2)
       else handleAi env orgId orgConfig pocRef from (or_else body "") (Some d2) w2)
    ∧ d2 = set_lastSeen (env_clock env (S (clock_reads w)))
             (set_Chat (Chat d ++ [chat_entry env (clock_reads w) "inbound" from
                                     (whatsappPhoneId orgConfig) "text"
                                     (Some (or_else body "")) None]) d)
    ∧ PoC w2 = <[pocRef := d2]> (PoC w)
    ∧ sent w2 = sent w ∧ llm_calls w2 = llm_calls w
    ∧ organizationConfigs w2 = organizationConfigs w
    ∧ (∀ k o,
         Organisation w !! k = Some o →
         ∃ o' extra,
           Organisation w2 !! k = Some o'
           ∧ Checkins o' = Checkins o ∧ Appointments o' = Appointments o
           ∧ Tickets o' = Tickets o
           ∧ Notifications o' = Notifications o ++ extra
           ∧ Forall (λ n, n_event n = "Message") extra).
Proof.
  intros Hd Hcmd. unfold handleText. cbv zeta.
  fold (checkinCommand (or_else body "") orgId). rewrite Hcmd.
  unfold bind at 1. rewrite (saveChatToPoC_run env _ _ _ _ _ _ _ _ d) by done.
  set (d1 := set_lastSeen _ _). set (w1 := set_PoC _ _).
  assert (PoC w1 !! pocRef = Some d1) as Hd1.
  { unfold w1. wsimpl. apply list_lookup_insert_eq. by eapply lookup_lt_Some. }
  match goal with
  | |- context [bind (poc_get pocRef) ?k] => set (rest := bind (poc_get pocRef) k)
  end.
  assert (∀ w2,
            PoC w2 = PoC w1 →
            rest w2
            = (if bool_decide (BotMode d = Some false) then (Some 200, w2)
               else handleAi env orgId orgConfig pocRef from (or_else body "") (Some d1) w2))
    as Hgate.
  { intros w2 HPoC. unfold rest. cbv [bind poc_get get_world ret]. rewrite HPoC, Hd1.
    cbn [mbind option_bind]. replace (BotMode d1) with (BotMode d) by done.
    by destruct (bool_decide (BotMode d = Some false)). }
  clearbody rest.
  assert (∀ k o, Organisation w !! k = Some o →
            ∃ o' extra, Organisation w1 !! k = Some o'
              ∧ Checkins o' = Checkins o ∧ Appointments o' = Appointments o
              ∧ Tickets o' = Tickets o ∧ Notifications o' = Notifications o ++ extra
              ∧ Forall (λ n, n_event n = "Message") extra) as Hsame.
  { intros k o Ho. exists o, []. rewrite app_nil_r. by repeat split. }
  unfold bind at 1.
  destruct (negb (Js.startsWith (or_else body "") "Checkin:")
            && (10 <? String.length (or_else body ""))).
  2:{ unfold ret at 1. rewrite Hgate by done. by exists w1, d1. }
  cbv [getOrganisationRef bind get_world ret].
  destruct (find_org OrgID orgId w1) as [[org o]|] eqn:Horg; cbn [fmap option_fmap option_map fst].
  2:{ rewrite Hgate by done. by exists w1, d1. }
  apply find_org_Some in Horg as [Ho _].
  cbv [poc_get createNotification getCurrentIndianTime org_write modify bind get_world ret].
  wsimpl. rewrite Hgate by done. eexists _, d1. split; [done|]. wsimpl.
  split; [done|]. split; [done|]. split; [done|]. split; [done|]. split; [done|].
  intros k o0 Ho0. destruct (decide (k = org)) as [->|Hk].
  - rewrite list_lookup_alter_eq. unfold w1 in Ho. wsimpl. cbn [Organisation set_PoC set_clock_reads] in Ho.
    rewrite Ho0 in Ho. injection Ho as <-.
    replace (Organisation w1 !! org) with (Some o0) by (by rewrite <- Ho0).
    cbn [fmap option_fmap option_map].
    eexists _, [_]. split; [done|]. cbn [Checkins Appointments Tickets Notifications
                                         set_Notifications].
    repeat (split; [done|]). by apply Forall_singleton.
  - rewrite list_lookup_alter_ne by done. by apply Hsame.
Qed.

Lemma handleAi_organisation env (orgId : string) (orgConfig : OrgConfig) (pocRef : nat)
    (from userText : string) (pocData : option PoCDoc) (w : World) :
  Organisation (handleAi env orgId orgConfig pocRef from userText pocData w).2
  = Organisation w.
Proof.
  assert (PreOrder (λ w w' : World, Organisation w' = Organisation w)) as Hpre.
  { split; [done|]. intros w1 w2 w3 H12 H23. congruence. }
  apply (handleAi_preserves (λ w w', Organisation w' = Organisation w) (λ _ _, True));
    done.
Qed.

(** ** The check-in command *)

Lemma colon_free_nil : colon_free EmptyString.
Proof. intros (before & after & H). by destruct before. Qed.

Lemma colon_free_cons (c : ascii) (s : string) :
  colon_free (String c s) ↔ c ≠ ":"%char ∧ colon_free s.
Proof.
  unfold colon_free. split.
  - intros Hn. split.
    + intros ->. apply Hn. by exists EmptyString, s.
    + intros (before & after & ->). apply Hn.
      exists (String c before), after. by rewrite append_cons.
  - intros [Hc Hs] (before & after & H). destruct before as [|c' before].
    + rewrite append_nil_l, append_cons in H. congruence.
    + rewrite append_cons in H. injection H as -> ->. apply Hs. by exists before, after.
Qed.

Lemma split_colon_segment (rest seg : string) :
  colon_segment rest seg → ∃ t, Js.split ":" rest = seg :: t.
Proof.
  intros [Hfree Hrest]. revert rest Hrest.
  induction seg as [|c seg IH]; intros rest Hrest.
  - destruct Hrest as [->|[more ->]]; [by exists []|].
    rewrite append_nil_l, append_cons, append_nil_l, split_cons_sep. by eexists.
  - apply colon_free_cons in Hfree as [Hc Hfree].
    assert (∃ rest', rest = String c rest'
                     ∧ (rest' = seg ∨ ∃ more, rest' = seg +:+ ":" +:+ more))
      as (rest' & -> & Hrest').
    { destruct Hrest as [->|[more ->]]; [by exists seg; split; [|left]|].
      rewrite append_cons. eexists. split; [done|]. right. by exists more. }
    destruct (IH Hfree rest' Hrest') as [t Ht].
    destruct (split_cons_other ":" c rest' Hc) as (h & t' & Hs & ->).
    rewrite Ht in Hs. injection Hs as <- <-. by exists t.
Qed.

Lemma colon_segment_exists (rest : string) : ∃ seg, colon_segment rest seg.
Proof.
  induction rest as [|c rest (seg & Hfree & Hrest)].
  - exists EmptyString. split; [apply colon_free_nil | by left].
  - destruct (decide (c = ":"%char)) as [->|Hc].
    + exists EmptyString. split; [apply colon_free_nil|]. right. by exists rest.
    + exists (String c seg). split; [by apply colon_free_cons|].
      destruct Hrest as [->|[more ->]]; [by left|]. right. exists more.
      by rewrite append_cons.
Qed.

Lemma or_else_empty (s : string) : or_else (Some s) "" = s.
Proof. by destruct s. Qed.

Lemma split_before_colon (index value : string) :
  colon_free index →
  Js.split ":" (index +:+ ":" +:+ value) = index :: Js.split ":" value.
Proof.
  induction index as [|c index IH].
  - intros _. rewrite append_nil_l, append_cons, append_nil_l. apply split_cons_sep.
  - rewrite colon_free_cons. intros [Hc Hi]. rewrite append_cons.
    destruct (split_cons_other ":" c (index +:+ ":" +:+ value) Hc) as (h & t & Hs & ->).
    rewrite IH in Hs by done. by injection Hs as <- <-.
Qed.

(** After the keyword, [split(":")[1]] is the part before the next
    colon. *)
Lemma split_checkin (rest seg : string) :
  colon_segment rest seg →
  or_else (Js.split ":" ("Checkin:" +:+ rest) !! 1) "" = seg.
Proof.
  intros [t Ht]%split_colon_segment.
  change ("Checkin:" +:+ rest) with ("Checkin" +:+ ":" +:+ rest).
  rewrite split_before_colon, Ht; [apply or_else_empty|].
  repeat (apply colon_free_cons; split; [done|]). apply colon_free_nil.
Qed.

Lemma checkinCommand_spec (userText orgId : string) :
  checkinCommand userText orgId = true ↔ checkinText userText orgId.
Proof.
  unfold checkinCommand, Js.startsWith. rewrite andb_true_iff, prefix_spec, bool_decide_eq_true.
  split.
  - intros [[rest ->] Hseg]. destruct (colon_segment_exists rest) as [seg Hs].
    exists rest, seg. split; [done|]. split; [done|]. by rewrite (split_checkin rest seg) in Hseg.
  - intros (rest & seg & -> & Hs & Htrim). split; [by exists rest|].
    by rewrite (split_checkin rest seg).
Qed.

Lemma contains_checkinAck (orgConfig : OrgConfig) :
  contains (checkinAck orgConfig) (orgName orgConfig).
Proof. by exists "Welcome to ", "! Check-in recorded. Please proceed!". Qed.

(** ** The path of a delivery to the text branch *)

Lemma try_catch_ret_state {A} (m : M A) (a : A) (w : World) :
  (try_catch m (ret a) w).2 = (m w).2.
Proof. unfold try_catch, ret. by destruct (m w) as [[x|] w']. Qed.

(** Tenant resolution reads the store and never fails. *)
Lemma getOrganizationFromContext_run (req : Request) (w : World) :
  ∃ orgId, getOrganizationFromContext req w = (Some orgId, w).
Proof.
  unfold getOrganizationFromContext, try_catch.
  destruct (negb (falsy (header_organization_id req))); [eexists; reflexivity|].
  destruct (negb (falsy (param_orgId req))); [eexists; reflexivity|].
  cbv zeta. unfold bind at 1.
  set (phoneId := if negb (falsy (metadata_phone_number_id req)) then _ else _).
  assert (∃ r, match phoneId with
               | Some phoneId => getOrganizationByPhoneId phoneId
               | None => ret None
               end w = (Some r, w)) as [r ->].
  { destruct phoneId as [phoneId|]; [|eexists; reflexivity].
    cbv [getOrganizationByPhoneId bind get_world ret].
    destruct (find_org WA_Phone_ID phoneId w) as [[? ?]|]; [eexists; reflexivity|].
    destruct (find_org FB_Number phoneId w) as [[? ?]|]; eexists; reflexivity. }
  clearbody phoneId.
  repeat match goal with
         | |- context [if negb (falsy ?v) then _ else _] => destruct (negb (falsy v))
         end; eexists; reflexivity.
Qed.

(** A configuration that loads is cached afterwards; nothing else
    changes, whether it came from the cache or from the store. *)
Lemma loadOrganizationConfig_loaded (orgId : string) (w : World) (orgConfig : OrgConfig) :
  (loadOrganizationConfig orgId w).1 = Some (Some orgConfig) →
  ∃ configs,
    loadOrganizationConfig orgId w
    = (Some (Some orgConfig), set_organizationConfigs configs w)
    ∧ configs !! orgId = Some orgConfig.
Proof.
  cbv [loadOrganizationConfig bind get_world ret modify].
  destruct (organizationConfigs w !! orgId) as [c|] eqn:Hc.
  - intros [= <-]. exists (organizationConfigs w). split; [|done].
    f_equal. by destruct w.
  - destruct (find_org OrgID orgId w) as [[ref o]|]; [|done].
    cbn [fst]. intros [= <-]. eexists. split; [done|]. wsimpl. apply lookup_insert_eq.
Qed.

(** The deliveries of a tenant whose billing is not active are
    answered with 200 and dropped. *)
Lemma webhookPost_inactive env (req : Request) (orgId : string) (orgConfig : OrgConfig)
    (w : World) :
  body_object req = true →
  (getOrganizationFromContext req w).1 = Some orgId →
  (loadOrganizationConfig orgId w).1 = Some (Some orgConfig) →
  billingActive orgConfig = false →
  ∃ configs, webhookPost env req w = (Some 200, set_organizationConfigs configs w).
Proof.
  intros Hobj Hctx Hload Hbill.
  destruct (getOrganizationFromContext_run req w) as [orgId' Hrun].
  rewrite Hrun in Hctx. injection Hctx as ->.
  destruct (loadOrganizationConfig_loaded _ _ _ Hload) as (configs & Hl & _).
  exists configs. unfold webhookPost, try_catch. rewrite Hobj. cbn [negb].
  unfold bind at 1. rewrite Hrun. unfold bind at 1. rewrite Hl.
  by rewrite Hbill.
Qed.

(** A text message of a known contact of a tenant whose configuration
    loads and whose billing is active: the configuration is cached, the
    last-seen time is written, and the text branch runs. *)
Lemma webhookPost_text env (req : Request) (msg : Message) (body : option string)
    (orgId : string) (orgConfig : OrgConfig) (w : World) (ref : nat) (d : PoCDoc) :
  body_object req = true →
  message req = Some msg →
  msg_payload msg = Text body →
  (getOrganizationFromContext req w).1 = Some orgId →
  (loadOrganizationConfig orgId w).1 = Some (Some orgConfig) →
  billingActive orgConfig = true →
  find_poc (msg_from msg) orgId w = Some (ref, d) →
  ∃ configs,
    configs !! orgId = Some orgConfig
    ∧ webhookPost env req w =
        try_catch (handleText env orgId orgConfig ref (msg_from msg) body) (ret 500)
          (set_PoC (<[ref := set_lastSeen (env_clock env (clock_reads w)) d]> (PoC w))
             (set_clock_reads (S (clock_reads w)) (set_organizationConfigs configs w))).
Proof.
  intros Hobj Hmsg Hpay Hctx Hload Hbill Hfind.
  destruct (getOrganizationFromContext_run req w) as [orgId' Hrun].
  rewrite Hrun in Hctx. injection Hctx as ->.
  destruct (loadOrganizationConfig_loaded _ _ _ Hload) as (configs & Hl & Hc).
  exists configs. split; [done|].
  unfold webhookPost, try_catch. rewrite Hobj. cbn [negb].
  unfold bind at 1. rewrite Hrun. unfold bind at 1. rewrite Hl.
  rewrite Hbill, Hmsg, Hpay. cbn [negb].
  unfold bind at 1.
  by rewrite (getOrCreatePoCByPhone_existing env _ _ _ _ ref d).
Qed.




(** ** The BotMode check *)

(** C10, as stated, fails: a contact whose BotMode is false and who
    sends the check-in command of the tenant is sent the acknowledgment. *)
Lemma C10_counterexample :
  BotMode <$> PoC (world0 false) !! 0 = Some (Some false)
  ∧ sent (world0 false) = []
  ∧ (webhookPost env0 (text_request "Acme" "Checkin:Acme") (world0 false)).1 = Some 200
  ∧ sent (webhookPost env0 (text_request "Acme" "Checkin:Acme") (world0 false)).2
    = [text_message acme_config "919000000001"
         (Some "Welcome to Acme Clinic! Check-in recorded. Please proceed!")]
  ∧ BotMode <$>
      PoC (webhookPost env0 (text_request "Acme" "Checkin:Acme") (world0 false)).2 !! 0
    = Some (Some false).
Proof. repeat split; by vm_compute. Qed.

(** C10, amended. For a text message of a known contact whose BotMode
    is false, sent to a tenant whose configuration loads: with active
    billing, a text that is not a check-in command of the tenant is
    answered with 200, appended to the contact's transcript, the last-seen
    time being that of the append, while the conversation turns and the
    BotMode of the contact stay as they are, no LLM request is made and
    nothing is sent; a check-in command (the organisation document
    existing) is answered with 200 and with no LLM request or change of the
    conversation turns either, but its acknowledgment is sent whenever the
    tenant has its two credentials, and is appended to the transcript after
    the inbound text; with inactive billing the webhook answers 200 and
    appends and sends nothing. *)
Theorem C10_botmode_gate env (req : Request) (msg : Message) (body : option string)
    (orgId : string) (orgConfig : OrgConfig) (w : World) (ref : nat) (d : PoCDoc) :
  body_object req = true →
  message req = Some msg →
  msg_payload msg = Text body →
  (getOrganizationFromContext req w).1 = Some orgId →
  (loadOrganizationConfig orgId w).1 = Some (Some orgConfig) →
  find_poc (msg_from msg) orgId w = Some (ref, d) →
  BotMode d = Some false →
  let userText := or_else body "" in
  let run := webhookPost env req w in
  (billingActive orgConfig = true → ¬ checkinText userText orgId →
     ∃ d',
       run.1 = Some 200
       ∧ PoC run.2 !! ref = Some d'
       ∧ Chat d' =
           Chat d ++
           [chat_entry env (S (clock_reads w)) "inbound" (msg_from msg)
              (whatsappPhoneId orgConfig) "text" (Some userText) None]
       ∧ lastSeen d' = Some (env_clock env (S (S (clock_reads w))))
       ∧ chatState d' = chatState d
       ∧ BotMode d' = Some false
       ∧ llm_calls run.2 = llm_calls w
       ∧ sent run.2 = sent w)
  ∧ (billingActive orgConfig = true → checkinText userText orgId →
     ∀ org o,
       find_org OrgID orgId w = Some (org, o) →
       ∃ d',
         run.1 = Some 200
         ∧ PoC run.2 !! ref = Some d'
         ∧ Chat d' =
             Chat d ++
             [chat_entry env (S (clock_reads w)) "inbound" (msg_from msg)
                (whatsappPhoneId orgConfig) "text" (Some userText) None;
              chat_entry env (5 + clock_reads w) "outbound"
                (whatsappPhoneId orgConfig) (msg_from msg) "text"
                (Some (checkinAck orgConfig)) None]
         ∧ chatState d' = chatState d
         ∧ llm_calls run.2 = llm_calls w
         ∧ sent run.2 =
             sent w ++
             (if Js.truthy (whatsappToken orgConfig) && Js.truthy (whatsappPhoneId orgConfig)
              then [text_message orgConfig (msg_from msg) (Some (checkinAck orgConfig))]
              else []))
  ∧ (billingActive orgConfig = false →
       run.1 = Some 200 ∧ PoC run.2 = PoC w
       ∧ sent run.2 = sent w ∧ llm_calls run.2 = llm_calls w).
Proof.
  intros Hobj Hmsg Hpay Hctx Hload Hfind Hbot userText run.
  pose proof (find_poc_Some _ _ _ _ _ Hfind) as (Hd & _).
  assert (ref < length (PoC w)) as Hlen by (by eapply lookup_lt_Some).
  split; [|split].
  - intros Hbill Hno.
    assert (checkinCommand userText orgId = false) as Hcmd.
    { destruct (checkinCommand userText orgId) eqn:E; [|done].
      by apply checkinCommand_spec in E. }
    destruct (webhookPost_text env req msg body orgId orgConfig w ref d)
      as (configs & Hcfg & Hrun); try done.
    set (d0 := set_lastSeen _ d) in Hrun. set (w0 := set_PoC _ _) in Hrun.
    destruct (handleText_fallthrough env orgId orgConfig ref (msg_from msg) body w0 d0)
      as (w2 & d2 & Hh & -> & HPoC & Hsent & Hllm & _); try done.
    { unfold w0. wsimpl. by apply list_lookup_insert_eq. }
    replace (BotMode d0) with (BotMode d) in Hh by done.
    rewrite bool_decide_eq_true_2 in Hh by done.
    assert (run = (Some 200, w2)) as ->.
    { unfold run. rewrite Hrun. unfold try_catch. by rewrite Hh. }
    eexists. split; [done|]. cbn [snd]. rewrite HPoC.
    split; [apply list_lookup_insert_eq; unfold w0; wsimpl; by rewrite length_insert|].
    by repeat split.
  - intros Hbill Hcmd%checkinCommand_spec org o Horg.
    destruct (webhookPost_text env req msg body orgId orgConfig w ref d)
      as (configs & Hcfg & Hrun); try done.
    set (d0 := set_lastSeen _ d) in Hrun. set (w0 := set_PoC _ _) in Hrun.
    destruct (handleText_checkin env orgId orgConfig ref (msg_from msg) body w0 d0 org o)
      as (w' & d' & Hh & _ & Hsent & Hllm & HP & HC & HS); try done.
    { unfold w0. wsimpl. by apply list_lookup_insert_eq. }
    assert (run = (Some 200, w')) as ->.
    { unfold run. rewrite Hrun. unfold try_catch. by rewrite Hh. }
    exists d'. split; [done|]. cbn [snd]. split; [done|]. by repeat split.
  - intros Hbill.
    destruct (webhookPost_inactive env req orgId orgConfig w) as (configs & Hr); try done.
    unfold run. by rewrite Hr.
Qed.

Lemma C10_botmode_gate_witness :
  ¬ checkinText "Checkin:Other" "Acme"
  ∧ ∃ d',
      (webhookPost env0 (text_request "Acme" "Checkin:Other") (world0 false)).1 = Some 200
      ∧ PoC (webhookPost env0 (text_request "Acme" "Checkin:Other") (world0 false)).2 !! 0
        = Some d'
      ∧ Chat d' =
          [chat_entry env0 1 "inbound" "919000000001" "15550001" "text"
             (Some "Checkin:Other") None]
      ∧ lastSeen d' = Some 1002
      ∧ chatState d' = None
      ∧ BotMode d' = Some false
      ∧ llm_calls (webhookPost env0 (text_request "Acme" "Checkin:Other") (world0 false)).2
        = []
      ∧ sent (webhookPost env0 (text_request "Acme" "Checkin:Other") (world0 false)).2 = [].
Proof.
  assert (¬ checkinText "Checkin:Other" "Acme") as Hno.
  { intros Hn%checkinCommand_spec. by vm_compute in Hn. }
  split; [exact Hno|].
  assert ((getOrganizationFromContext (text_request "Acme" "Checkin:Other")
             (world0 false)).1 = Some "Acme") as Hctx by (by vm_compute).
  assert ((loadOrganizationConfig "Acme" (world0 false)).1 = Some (Some acme_config))
    as Hload by (by vm_compute).
  assert (find_poc "919000000001" "Acme" (world0 false) = Some (0, alice false))
    as Hfind by (by vm_compute).
  destruct (C10_botmode_gate env0 (text_request "Acme" "Checkin:Other")
              {| msg_from := "919000000001"; msg_payload := Text (Some "Checkin:Other") |}
              (Some "Checkin:Other") "Acme" acme_config (world0 false) 0 (alice false)
              eq_refl eq_refl eq_refl Hctx Hload Hfind eq_refl) as (Hgate & _).
  exact (Hgate eq_refl Hno).
Defined.

(** ** The edit distance as a metric *)

Lemma lev_table_sym (a b : string) (i : nat) :
  ∀ j, lev_table a b i j = lev_table b a j i.
Proof.
  induction i as [|i IHi]; intros j.
  - by rewrite lev_table_0_l, lev_table_0_r.
  - induction j as [|j IHj].
    + by rewrite lev_table_0_l, lev_table_0_r.
    + rewrite !lev_table_S_S, (IHi (S j)), (IHi j), IHj.
      assert ((if decide (String.get i a = String.get j b) then 0 else 1)
              = (if decide (String.get j b = String.get i a) then 0 else 1)) as ->.
      { by destruct (decide (String.get i a = String.get j b)),
             (decide (String.get j b = String.get i a)). }
      unfold min3. lia.
Qed.

Lemma lev_table_upper (a b : string) (i : nat) :
  ∀ j, lev_table a b i j ≤ Nat.max i j.
Proof.
  induction i as [|i IHi]; intros j; [rewrite lev_table_0_l; lia|].
  destruct j as [|j]; [rewrite lev_table_0_r; lia|].
  rewrite lev_table_S_S. specialize (IHi j). unfold min3.
  destruct (decide _); lia.
Qed.

Lemma lev_table_lower_row (a b : string) (i j : nat) : j ≤ lev_table a b i j + i.
Proof.
  induction i as [|i IH]; [rewrite lev_table_0_l; lia|].
  pose proof (lev_table_low_row a b i j). lia.
Qed.

Lemma lev_table_lower_col (a b : string) (i j : nat) : i ≤ lev_table a b i j + j.
Proof.
  induction j as [|j IH]; [rewrite lev_table_0_r; lia|].
  pose proof (lev_table_low_col a b i j). lia.
Qed.

Lemma lev_table_diag (a : string) (i : nat) : lev_table a a i i = 0.
Proof. induction i as [|i IH]; [done|]. by rewrite lev_table_diag_eq. Qed.

Lemma lev_table_zero (a b : string) (i : nat) :
  ∀ j, lev_table a b i j = 0 →
       i = j ∧ ∀ k, k < i → String.get k a = String.get k b.
Proof.
  induction i as [|i IH]; intros j.
  - rewrite lev_table_0_l. intros ->. split; [done|]. lia.
  - destruct j as [|j]; [by rewrite lev_table_0_r|].
    rewrite lev_table_S_S. unfold min3. intros Hz.
    destruct (decide (String.get i a = String.get j b)) as [Heq|Hne]; [|lia].
    destruct (IH j) as [-> Hk]; [lia|]. split; [done|].
    intros k Hlt. destruct (decide (k = j)) as [->|]; [done|]. apply Hk. lia.
Qed.

Lemma string_get_ext (a : string) :
  ∀ b, String.length a = String.length b →
       (∀ k, k < String.length a → String.get k a = String.get k b) → a = b.
Proof.
  induction a as [|c a IH]; intros [|c' b] Hlen Hget; try done.
  simpl in Hlen. f_equal.
  - specialize (Hget 0). simpl in Hget. by injection (Hget ltac:(lia)).
  - apply IH; [lia|]. intros k Hk. apply (Hget (S k)). simpl. lia.
Qed.

(** The computed distance is 0 exactly for equal strings. *)
Theorem levenshteinDistance_zero (a b : string) :
  levenshteinDistance a b = Some 0 ↔ a = b.
Proof.
  rewrite levenshteinDistance_table. unfold editDistance. split.
  - intros [= Hz]. apply lev_table_zero in Hz as [Hlen Hget]. by apply string_get_ext.
  - intros <-. by rewrite lev_table_diag.
Qed.

(** The computed distance does not depend on the order of its arguments. *)
Theorem levenshteinDistance_sym (a b : string) :
  levenshteinDistance a b = levenshteinDistance b a.
Proof. rewrite !levenshteinDistance_table. unfold editDistance. by rewrite lev_table_sym. Qed.

(** The computed distance lies between the difference of the two lengths
    and the greater of them. *)
Theorem levenshteinDistance_bounds (a b : string) :
  ∃ d, levenshteinDistance a b = Some d
       ∧ String.length a - String.length b ≤ d
       ∧ String.length b - String.length a ≤ d
       ∧ d ≤ Nat.max (String.length a) (String.length b).
Proof.
  exists (editDistance a b). split; [apply levenshteinDistance_table|]. unfold editDistance.
  pose proof (lev_table_lower_row a b (String.length a) (String.length b)).
  pose proof (lev_table_lower_col a b (String.length a) (String.length b)).
  pose proof (lev_table_upper a b (String.length a) (String.length b)). lia.
Qed.

Lemma lev_table_triangle (a b c : string) (n : nat) :
  ∀ i j k, i + j + k < n →
    lev_table a c i k ≤ lev_table a b i j + lev_table b c j k.
Proof.
  induction n as [|n IH]; intros i j k Hn; [lia|].
  destruct i as [|i].
  { rewrite !lev_table_0_l. pose proof (lev_table_lower_row b c j k). lia. }
  destruct k as [|k].
  { rewrite !lev_table_0_r. pose proof (lev_table_lower_col a b (S i) j). lia. }
  destruct j as [|j].
  { rewrite lev_table_0_r, lev_table_0_l.
    pose proof (lev_table_upper a c (S i) (S k)). lia. }
  pose proof (IH i (S j) (S k) ltac:(lia)) as H1.
  pose proof (IH (S i) j (S k) ltac:(lia)) as H2.
  pose proof (IH (S i) (S j) k ltac:(lia)) as H3.
  pose proof (IH i j k ltac:(lia)) as H4.
  pose proof (lev_table_up_row a c i (S k)) as U1.
  pose proof (lev_table_up_col a c (S i) k) as U2.
  pose proof (lev_table_low_row b c j (S k)) as L1.
  pose proof (lev_table_up_row a b i j) as U3.
  assert (lev_table a c (S i) (S k)
          ≤ lev_table a c i k
            + (if decide (String.get i a = String.get k c) then 0 else 1)) as U4.
  { rewrite (lev_table_S_S a c i k). unfold min3. lia. }
  rewrite (lev_table_S_S a b i j) in *. rewrite (lev_table_S_S b c j k) in *.
  unfold min3 in *.
  destruct (decide (String.get i a = String.get j b)) as [E1|E1],
           (decide (String.get j b = String.get k c)) as [E2|E2],
           (decide (String.get i a = String.get k c)) as [E3|E3];
    try lia.
  congruence.
Qed.

(** The computed distance obeys the triangle inequality. *)
Theorem levenshteinDistance_triangle (a b c : string) :
  ∃ dab dbc dac,
    levenshteinDistance a b = Some dab ∧ levenshteinDistance b c = Some dbc
    ∧ levenshteinDistance a c = Some dac ∧ dac ≤ dab + dbc.
Proof.
  exists (editDistance a b), (editDistance b c), (editDistance a c).
  rewrite !levenshteinDistance_table. repeat split. unfold editDistance.
  apply (lev_table_triangle a b c
           (S (String.length a + String.length b + String.length c))). lia.
Qed.

(** ** Generated ids of any length *)

Lemma digits_isDigit (j : nat) (c : ascii) :
  String.get j "0123456789" = Some c → isDigit c = true.
Proof.
  intros H. do 10 (destruct j as [|j]; [injection H as <-; reflexivity|]; simpl in H).
  done.
Qed.

(** [generateId(length)] and [generateFlowToken(length)] return exactly
    [length] characters, letters or digits for the one and digits for the
    other, and advance the random source by [length] draws; nothing else
    changes. *)
Theorem generated_ids_format env (length : nat) (w : World) :
  ∃ id token,
    generateId env length w = (Some id, set_random_draws (length + random_draws w) w)
    ∧ String.length id = length
    ∧ (∀ i c, String.get i id = Some c → alphanumeric c = true)
    ∧ generateFlowToken env length w
      = (Some token, set_random_draws (length + random_draws w) w)
    ∧ String.length token = length
    ∧ (∀ i c, String.get i token = Some c → isDigit c = true).
Proof.
  exists (drawn env alphabet length (random_draws w)),
         (drawn env "0123456789" length (random_draws w)).
  split; [apply generate_from_run|].
  split; [apply drawn_length; unfold alphabet; simpl; lia|].
  split. { intros i c Hget. apply drawn_chars in Hget as [j Hj].
           by eapply alphabet_alphanumeric. }
  split; [apply generate_from_run|].
  split; [apply drawn_length; simpl; lia|].
  intros i c Hget. apply drawn_chars in Hget as [j Hj]. by eapply digits_isDigit.
Qed.

(** ** Tenant resolution *)

Lemma or_else_truthy (v : option string) (fallback : string) :
  falsy v = false → Js.truthy (or_else v fallback) = true ∧ Some (or_else v fallback) = v.
Proof. destruct v as [[|c s]|]; by cbn. Qed.

(** The tenant of a request is always found: the resolver never fails,
    never changes the state and never gives an empty id; an id in the
    request header is taken as it is, whatever the rest of the request
    says. *)
Theorem getOrganizationFromContext_resolves (req : Request) (w : World) :
  ∃ orgId,
    getOrganizationFromContext req w = (Some orgId, w)
    ∧ Js.truthy orgId = true
    ∧ (falsy (header_organization_id req) = false →
       header_organization_id req = Some orgId).
Proof.
  unfold getOrganizationFromContext, try_catch.
  destruct (falsy (header_organization_id req)) eqn:Hh; cbn [negb].
  2:{ apply or_else_truthy with (fallback := EmptyString) in Hh as [Ht Hv].
      eexists. split; [reflexivity|]. by split. }
  destruct (falsy (param_orgId req)) eqn:Hp; cbn [negb].
  2:{ apply or_else_truthy with (fallback := EmptyString) in Hp as [Ht Hv].
      eexists. split; [reflexivity|]. by split. }
  cbv zeta. unfold bind at 1.
  set (phoneId := if negb (falsy (metadata_phone_number_id req)) then _ else _).
  assert (∃ r, match phoneId with
               | Some phoneId => getOrganizationByPhoneId phoneId
               | None => ret None
               end w = (Some r, w)) as [r ->].
  { destruct phoneId as [phoneId|]; [|eexists; reflexivity].
    cbv [getOrganizationByPhoneId bind get_world ret].
    destruct (find_org WA_Phone_ID phoneId w) as [[? ?]|]; [eexists; reflexivity|].
    destruct (find_org FB_Number phoneId w) as [[? ?]|]; eexists; reflexivity. }
  clearbody phoneId.
  destruct (falsy r) eqn:Hr; cbn [negb].
  2:{ apply or_else_truthy with (fallback := EmptyString) in Hr as [Ht Hv].
      eexists. split; [reflexivity|]. by split. }
  destruct (falsy (message req ≫= _)) eqn:Hc; cbn [negb].
  2:{ assert (falsy (context_organization_id req) = false) as Hc'.
      { by destruct (message req). }
      apply or_else_truthy with (fallback := EmptyString) in Hc' as [Ht Hv].
      eexists. split; [reflexivity|]. by split. }
  destruct (falsy (metadata_organization_id req)) eqn:Hm; cbn [negb].
  2:{ apply or_else_truthy with (fallback := EmptyString) in Hm as [Ht Hv].
      eexists. split; [reflexivity|]. by split. }
  eexists. split; [reflexivity|]. by split.
Qed.

(** ** The configuration cache *)

Lemma loadOrganizationConfig_again (orgId : string) (w : World) :
  ∃ r w1,
    loadOrganizationConfig orgId w = (Some r, w1)
    ∧ loadOrganizationConfig orgId w1 = (Some r, w1)
    ∧ (r = None → w1 = w)
    ∧ PoC w1 = PoC w ∧ Organisation w1 = Organisation w ∧ sent w1 = sent w
    ∧ llm_calls w1 = llm_calls w ∧ knowledgeCache w1 = knowledgeCache w.
Proof.
  cbv [loadOrganizationConfig bind get_world ret modify].
  destruct (organizationConfigs w !! orgId) as [c|] eqn:Hc.
  - exists (Some c), w. rewrite Hc. by repeat split.
  - destruct (find_org OrgID orgId w) as [[ref o]|] eqn:Ho.
    + eexists _, _. split; [reflexivity|]. wsimpl. rewrite lookup_insert_eq.
      by repeat split.
    + exists None, w. rewrite Hc, Ho. by repeat split.
Qed.


(** A cached configuration is served as it is, whatever has since
    become of the organisation documents. *)
Theorem loadOrganizationConfig_stale (orgId : string) (w : World) (orgConfig : OrgConfig)
    (docs : list OrgDoc) :
  (loadOrganizationConfig orgId w).1 = Some (Some orgConfig) →
  loadOrganizationConfig orgId (set_Organisation docs (loadOrganizationConfig orgId w).2)
  = (Some (Some orgConfig), set_Organisation docs (loadOrganizationConfig orgId w).2).
Proof.
  intros Hload. destruct (loadOrganizationConfig_loaded _ _ _ Hload) as (configs & Hl & Hc).
  rewrite Hl. cbn [snd]. apply loadOrganizationConfig_cached. by wsimpl.
Qed.

Lemma loadOrganizationConfig_stale_witness :
  loadOrganizationConfig "Acme" (set_Organisation [] (loadOrganizationConfig "Acme" (world0 true)).2)
  = (Some (Some acme_config),
     set_Organisation [] (loadOrganizationConfig "Acme" (world0 true)).2).
Proof.
  apply (loadOrganizationConfig_stale "Acme" (world0 true) acme_config []).
  by vm_compute.
Defined.

(** ** Deliveries that are turned away *)



(** ** Outbound text messages *)

(** [sendWhatsAppMessage] never throws and never writes to the store;
    it posts at most one message, and that message goes out under the
    token and the phone id of the tenant it was called for, which are both
    non-empty. *)
Theorem sendWhatsAppMessage_one_post env (to : string) (message : option string)
    (orgId : string) (w : World) :
  ∃ ok w',
    sendWhatsAppMessage env to message orgId w = (Some ok, w')
    ∧ PoC w' = PoC w ∧ Organisation w' = Organisation w ∧ llm_calls w' = llm_calls w
    ∧ ((ok = false ∧ sent w' = sent w)
       ∨ ∃ orgConfig,
           organizationConfigs w' !! orgId = Some orgConfig
           ∧ Js.truthy (whatsappToken orgConfig) = true
           ∧ Js.truthy (whatsappPhoneId orgConfig) = true
           ∧ sent w' = sent w ++ [text_message orgConfig to message]
           ∧ ok = env_post env (text_message orgConfig to message)).
Proof.
  destruct (loadOrganizationConfig_again orgId w)
    as (r & w1 & Hl & Hl1 & _ & HP & HO & HS & HL & _).
  unfold sendWhatsAppMessage, bind at 1. rewrite Hl.
  destruct r as [orgConfig|]; [|exists false, w1; unfold ret; by repeat split; try left].
  destruct (Js.truthy (whatsappToken orgConfig)) eqn:Ht; cbn [negb orb];
    [|exists false, w1; unfold ret; by repeat split; try left].
  destruct (Js.truthy (whatsappPhoneId orgConfig)) eqn:Hp; cbn [negb orb];
    [|exists false, w1; unfold ret; by repeat split; try left].
  cbv [post bind modify ret]. eexists _, _. split; [reflexivity|]. wsimpl.
  split; [done|]. split; [done|]. split; [done|]. right. exists orgConfig.
  split.
  { destruct (loadOrganizationConfig_loaded orgId w orgConfig) as (configs & Hl' & Hc);
      [by rewrite Hl|].
    rewrite Hl in Hl'. injection Hl' as ->. by wsimpl. }
  unfold text_message. rewrite HS. by repeat split.
Qed.

(** ** Symptom triage *)


(** ** The knowledge cache *)

(** Loading the knowledge text of a tenant twice gives the same text
    twice, and the second load neither changes the state nor reads a URL or
    a file again; the loader never throws. *)
Theorem loadKnowledgeBase_idempotent env env' (orgId : string) (w : World) :
  ∃ text w1,
    loadKnowledgeBase env orgId w = (Some text, w1)
    ∧ loadKnowledgeBase env' orgId w1 = (Some text, w1)
    ∧ PoC w1 = PoC w ∧ Organisation w1 = Organisation w ∧ sent w1 = sent w
    ∧ llm_calls w1 = llm_calls w.
Proof.
  cbv [loadKnowledgeBase try_catch bind get_world ret modify].
  destruct (knowledgeCache w !! orgId) as [t|] eqn:Hk.
  - exists t, w. rewrite Hk. by repeat split.
  - destruct (loadOrganizationConfig_again orgId w)
      as (r & w0 & Hl & Hl0 & Hnone & HP & HO & HS & HL & HK).
    rewrite Hl. destruct r as [orgConfig|].
    + eexists _, _. split; [reflexivity|]. wsimpl. rewrite lookup_insert_eq.
      by repeat split.
    + rewrite (Hnone eq_refl) in *. eexists _, _. split; [reflexivity|].
      rewrite Hk, Hl. by repeat split.
Qed.

(** ** The appointment shortcut *)

(** Only the action [new] makes [appointmentFlowImpl] send anything:
    for every other action, a missing one included, the state stays as it
    is and the reply is one of the three fixed texts. *)
Theorem appointmentFlowImpl_only_new env (action : option string) (userPhone orgId : string)
    (w : World) :
  action ≠ Some "new" →
  ∃ reply,
    appointmentFlowImpl env action userPhone orgId w = (Some reply, w)
    ∧ reply ∈ ["Rescheduling placeholder. Not implemented.";
               "Cancellation placeholder. Not implemented.";
               "Unknown appointment action => new, reschedule, cancel only."]
    ∧ (reply = "Rescheduling placeholder. Not implemented." ↔ action = Some "reschedule")
    ∧ (reply = "Cancellation placeholder. Not implemented." ↔ action = Some "cancel").
Proof.
  intros Hnew. unfold appointmentFlowImpl. rewrite decide_False by done.
  destruct (decide (action = Some "reschedule")) as [->|Hr].
  { eexists. split; [reflexivity|]. split; [by left|]. by split. }
  destruct (decide (action = Some "cancel")) as [->|Hc].
  { eexists. split; [reflexivity|]. split; [right; by left|]. by split. }
  eexists. split; [reflexivity|]. split; [right; right; by left|]. by split.
Qed.

Lemma appointmentFlowImpl_only_new_witness :
  ∃ reply,
    appointmentFlowImpl env0 (Some "cancel") "919000000001" "Acme" (world0 true)
    = (Some reply, world0 true)
    ∧ reply ∈ ["Rescheduling placeholder. Not implemented.";
               "Cancellation placeholder. Not implemented.";
               "Unknown appointment action => new, reschedule, cancel only."]
    ∧ (reply = "Rescheduling placeholder. Not implemented."
       ↔ Some "cancel" = Some "reschedule")
    ∧ (reply = "Cancellation placeholder. Not implemented." ↔ Some "cancel" = Some "cancel").
Proof.
  apply (appointmentFlowImpl_only_new env0 (Some "cancel") "919000000001" "Acme"
           (world0 true)).
  discriminate.
Defined.

(** ** The conversation memory *)



(** ** Registration *)

(** A registration submitted for an existing contact marks the contact
    as registered under the submitted name and returns [true]; the
    transcript, the phone and the tenant of the contact, every other
    contact, the outbox, the LLM log and the appointments, tickets and
    check-ins of every organisation stay as they are.  Submitted for a
    reference that has no document, it returns [false] and writes
    nothing. *)
Theorem processWelcomeFormSubmission_registers env (pocRef : nat) (flowData : FlowData)
    (orgId : string) (w : World) :
  (∀ d,
     PoC w !! pocRef = Some d →
     ∃ w' d',
       processWelcomeFormSubmission env pocRef flowData orgId w = (Some true, w')
       ∧ PoC w' !! pocRef = Some d'
       ∧ registered d' = Some true
       ∧ poc_Name d' = or_else (flowData !! "screen_0_Full_Name_0") ""
       ∧ Chat d' = Chat d ∧ poc_Phone d' = poc_Phone d ∧ addedBy d' = addedBy d
       ∧ (∀ j, j ≠ pocRef → PoC w' !! j = PoC w !! j)
       ∧ sent w' = sent w ∧ llm_calls w' = llm_calls w
       ∧ (∀ k, Appointments <$> Organisation w' !! k = Appointments <$> Organisation w !! k)
       ∧ (∀ k, Tickets <$> Organisation w' !! k = Tickets <$> Organisation w !! k)
       ∧ (∀ k, Checkins <$> Organisation w' !! k = Checkins <$> Organisation w !! k))
  ∧ (PoC w !! pocRef = None →
     processWelcomeFormSubmission env pocRef flowData orgId w
     = (Some false, set_clock_reads (S (clock_reads w)) w)).
Proof.
  split; [intros d Hd; by apply processWelcomeFormSubmission_run|].
  intros Hnone.
  cbv [processWelcomeFormSubmission try_catch bind get_world getCurrentIndianTime
       poc_update throw ret].
  wsimpl. by rewrite Hnone.
Qed.

Lemma processWelcomeFormSubmission_registers_witness :
  processWelcomeFormSubmission env0 7 (feedback_form "1") "Acme" (world0 true)
  = (Some false, set_clock_reads 1 (world0 true)).
Proof.
  destruct (processWelcomeFormSubmission_registers env0 7 (feedback_form "1") "Acme"
              (world0 true)) as [_ H].
  exact (H eq_refl).
Defined.
